(** * NPC Emotion Game: the per-tick simulation core and the rule-based
      emotion strategy

    A shallow embedding of [Game_Build_Logics/game_engine.py] and
    [Game_Build_Logics/Emotion_Systems/rule_based_emotion.py].

    Numbers.  Python [int]s that stay integral (counters, frame number,
    enemy health, milliseconds, obstacle coordinates) are [Z].  Python
    [float]s (positions, speeds, player health) are exact rationals [Q]:
    rounding error, infinities and NaN are outside the model.  The three
    transcendental library calls the engine makes ([math.sqrt], [math.cos],
    [math.sin]) are operations of the class [FloatOps]; every theorem holds
    for whatever these operations return.

    Environment.  What the engine reads from outside during one call of
    [Game.update] (the pygame event queue, the pressed keys, the clock, the
    draws of [random], and the answer of the plugged-in emotion system) is
    the record [Input]. *)

From Stdlib Require Import QArith Qabs Qround Lqa ZArith Lia Bool List.
From stdpp Require Import base decidable list strings.

Local Open Scope Q_scope.

(** ** Python numerics *)

(** [a < b] on floats. *)
Definition Qltb (a b : Q) : bool := negb (Qle_bool b a).

(** Python's two-argument [min] and [max] return the first argument unless
    the second is strictly smaller (resp. larger). *)
Definition pymin (a b : Q) : Q := if Qltb b a then b else a.
Definition pymax (a b : Q) : Q := if Qltb a b then b else a.

(** [round(x)] with one argument: nearest integer, ties to even. *)
Definition pyround (x : Q) : Q :=
  let f := Qfloor x in
  let r := x - inject_Z f in
  if Qltb r (1#2) then inject_Z f
  else if Qltb (1#2) r then inject_Z (f + 1)
  else if Z.even f then inject_Z f else inject_Z (f + 1).

(** [random.uniform(a, b)] is [a + (b - a) * random()]; [u] is the draw. *)
Definition uniform (a b u : Q) : Q := a + (b - a) * u.

Class FloatOps := {
  fsqrt : Q -> Q;
  fcos : Q -> Q;
  fsin : Q -> Q;
  fpi : Q
}.

(** ** Constants and enumerations of [game_engine.py] *)

Definition WIDTH : Z := 1400.
Definition HEIGHT : Z := 750.
Definition ROOM_WIDTH : Z := 600.
Definition ROOM_HEIGHT : Z := 600.
Definition PLAYER_SIZE : Z := 30.
Definition NPC_SIZE : Z := 24.
Definition ENEMY_SIZE : Z := 30.
Definition OBSTACLE_SIZE : Z := 40.
Definition FPS : Z := 30.

Definition MAX_HEALTH : Z := 100.
Definition ENEMY_DAMAGE : Z := 20.
Definition RESOURCE_HEAL : Z := 10.
Definition ENEMY_DETECTION_RADIUS : Z := 250.
Definition ATTACK_RADIUS : Z := 60.
Definition PLAYER_DAMAGE : Z := 100.
Definition NPC_DAMAGE : Z := 20.
Definition PLAYER_SPEED : Z := 4.
Definition NPC_SPEED : Q := 2.5.
Definition ENEMY_SPEED : Q := 1.5.

Inductive PlayerAction := IDLE | MOVE | ATTACK.
Inductive NPCEmotion :=
  ANTICIPATION | HAPPINESS | FEAR | ANGER | SURPRISE | SADNESS.
Inductive NPCReaction :=
  FOLLOW | NOTIFY_RESOURCE | NOTIFY_DANGER | ATTACK_ENEMY | NOTIFY_SURPRISE
  | PROVIDE_HEALING.
Inductive GameState := START_SCREEN | PLAYING | COMPLETED.

(** The keys of the [rooms] and [obstacles] dictionaries: 1 and 2. *)
Inductive RoomId := Room1 | Room2.

#[global] Instance PlayerAction_eq_dec : EqDecision PlayerAction.
Proof. solve_decision. Defined.
#[global] Instance NPCEmotion_eq_dec : EqDecision NPCEmotion.
Proof. solve_decision. Defined.
#[global] Instance NPCReaction_eq_dec : EqDecision NPCReaction.
Proof. solve_decision. Defined.
#[global] Instance GameState_eq_dec : EqDecision GameState.
Proof. solve_decision. Defined.
#[global] Instance RoomId_eq_dec : EqDecision RoomId.
Proof. solve_decision. Defined.

(** The signature shared by every emotion system's [determine_emotion]:
    player_health, enemy_proximity, resource_proximity, lagged_player_action,
    level, player_x, player_y, npc_x, npc_y, resources_collected,
    enemies_killed, npc_emotion_lagged, current_player_action. *)
Definition EmotionFn : Type :=
  Q -> Q -> Q -> PlayerAction -> RoomId -> Q -> Q -> Q -> Q -> Z -> Z ->
  NPCEmotion -> PlayerAction -> NPCEmotion.

(** ** [rule_based_emotion.py] *)

Module RuleBased.
Section RuleBased.
Context {F : FloatOps}.

(** The distance test of the surprise rule,
    [((player_x - npc_x)**2 + (player_y - npc_y)**2)**0.5 < 60]. *)
Definition player_npc_distance (player_x player_y npc_x npc_y : Q) : Q :=
  fsqrt ((player_x - npc_x) ^ 2 + (player_y - npc_y) ^ 2).

(** [RuleBasedEmotionSystem.determine_emotion]: five independent [if]
    statements, each overwriting the local [emotion]. *)
Definition determine_emotion : EmotionFn :=
  fun player_health enemy_proximity resource_proximity lagged_player_action
      level player_x player_y npc_x npc_y resources_collected enemies_killed
      npc_emotion_lagged current_player_action =>
  let emotion := ANTICIPATION in
  let emotion := if Qltb resource_proximity 150 then HAPPINESS else emotion in
  let emotion := if Qltb enemy_proximity 125 then FEAR else emotion in
  let emotion := if Qltb enemy_proximity 60 then ANGER else emotion in
  let emotion :=
    if bool_decide (current_player_action = ATTACK)
       && Qltb (player_npc_distance player_x player_y npc_x npc_y) 60
    then SURPRISE else emotion in
  let emotion := if Qle_bool player_health 30 then SADNESS else emotion in
  emotion.


End RuleBased.
End RuleBased.

(** ** The entity store of [Game] *)

(** [self.player] *)
Record Player := {
p_x : Q;
p_y : Q;
p_health : Q;
p_action : PlayerAction;
p_speed : Q;
p_resources_collected : Z;
p_enemies_killed : Z
}.

(** [self.npc] *)
Record NPC := {
n_x : Q;
n_y : Q;
n_emotion : NPCEmotion;
n_emotion_lagged : NPCEmotion;
n_reaction : NPCReaction;
n_speed : Q;
n_attack_cooldown : Z
}.

(** One entry of [self.enemies] *)
Record Enemy := {
e_x : Q;
e_y : Q;
e_speed : Q;
e_alive : bool;
e_room : RoomId;
e_health : Z
}.

(** One entry of [self.resources] *)
Record Resource := {
r_x : Q;
r_y : Q;
r_collected : bool;
r_room : RoomId
}.

(** A rectangle dictionary ([rooms], [door], [exit]). *)
Record Box := { b_x : Z; b_y : Z; b_width : Z; b_height : Z }.

(** The attributes of [Game] that the simulation reads or writes.  The
  rectangles of [rooms], [door] and [exit] never change and are the
  constants below; [door_open] is [self.door["open"]]. *)
Record Game := {
state : GameState;
running : bool;
debug_mode : bool;
game_time_limit : Z;
participant_id : option string;
condition : option string;
last_room_transition : Z;
frame : Z;
resources_collected : Z;
enemies_killed : Z;
door_open : bool;
door_unlock_effect : bool;
current_room : RoomId;
lagged_player_action : PlayerAction;
player : Player;
npc : NPC;
obstacles : RoomId -> list (Z * Z);
enemies : list Enemy;
resources : list Resource
}.

Definition room_x_offset : Z := (WIDTH - (2 * ROOM_WIDTH + 150)) / 2.
Definition room_y_offset : Z := (HEIGHT - ROOM_HEIGHT) / 2.

Definition rooms (r : RoomId) : Box :=
match r with
| Room1 => {| b_x := room_x_offset; b_y := room_y_offset;
              b_width := ROOM_WIDTH; b_height := ROOM_HEIGHT |}
| Room2 => {| b_x := room_x_offset + ROOM_WIDTH + 150; b_y := room_y_offset;
              b_width := ROOM_WIDTH; b_height := ROOM_HEIGHT |}
end.

Definition door : Box :=
{| b_x := b_x (rooms Room1) + ROOM_WIDTH;
   b_y := b_y (rooms Room1) + ROOM_HEIGHT / 2 - 50;
   b_width := 150; b_height := 100 |}.

Definition exit : Box :=
{| b_x := b_x (rooms Room2) + ROOM_WIDTH - 70;
   b_y := b_y (rooms Room2) + ROOM_HEIGHT / 2 - 40;
   b_width := 60; b_height := 80 |}.

Definition exit_room : RoomId := Room2.
Definition room_transition_cooldown : Z := 500.

(** *** Field updates (Python assignments to one attribute or key) *)

Definition set_p_pos (x y : Q) (p : Player) : Player :=
{| p_x := x; p_y := y; p_health := p_health p; p_action := p_action p;
   p_speed := p_speed p;
   p_resources_collected := p_resources_collected p;
   p_enemies_killed := p_enemies_killed p |}.
Definition set_p_health (h : Q) (p : Player) : Player :=
{| p_x := p_x p; p_y := p_y p; p_health := h; p_action := p_action p;
   p_speed := p_speed p;
   p_resources_collected := p_resources_collected p;
   p_enemies_killed := p_enemies_killed p |}.
Definition set_p_action (a : PlayerAction) (p : Player) : Player :=
{| p_x := p_x p; p_y := p_y p; p_health := p_health p; p_action := a;
   p_speed := p_speed p;
   p_resources_collected := p_resources_collected p;
   p_enemies_killed := p_enemies_killed p |}.
Definition set_p_resources_collected (n : Z) (p : Player) : Player :=
{| p_x := p_x p; p_y := p_y p; p_health := p_health p;
   p_action := p_action p; p_speed := p_speed p;
   p_resources_collected := n;
   p_enemies_killed := p_enemies_killed p |}.
Definition set_p_enemies_killed (n : Z) (p : Player) : Player :=
{| p_x := p_x p; p_y := p_y p; p_health := p_health p;
   p_action := p_action p; p_speed := p_speed p;
   p_resources_collected := p_resources_collected p;
   p_enemies_killed := n |}.

Definition set_n_pos (x y : Q) (n : NPC) : NPC :=
{| n_x := x; n_y := y; n_emotion := n_emotion n;
   n_emotion_lagged := n_emotion_lagged n; n_reaction := n_reaction n;
   n_speed := n_speed n; n_attack_cooldown := n_attack_cooldown n |}.
Definition set_n_emotion (e : NPCEmotion) (n : NPC) : NPC :=
{| n_x := n_x n; n_y := n_y n; n_emotion := e;
   n_emotion_lagged := n_emotion_lagged n; n_reaction := n_reaction n;
   n_speed := n_speed n; n_attack_cooldown := n_attack_cooldown n |}.
Definition set_n_emotion_lagged (e : NPCEmotion) (n : NPC) : NPC :=
{| n_x := n_x n; n_y := n_y n; n_emotion := n_emotion n;
   n_emotion_lagged := e; n_reaction := n_reaction n;
   n_speed := n_speed n; n_attack_cooldown := n_attack_cooldown n |}.
Definition set_n_reaction (r : NPCReaction) (n : NPC) : NPC :=
{| n_x := n_x n; n_y := n_y n; n_emotion := n_emotion n;
   n_emotion_lagged := n_emotion_lagged n; n_reaction := r;
   n_speed := n_speed n; n_attack_cooldown := n_attack_cooldown n |}.
Definition set_n_attack_cooldown (c : Z) (n : NPC) : NPC :=
{| n_x := n_x n; n_y := n_y n; n_emotion := n_emotion n;
   n_emotion_lagged := n_emotion_lagged n; n_reaction := n_reaction n;
   n_speed := n_speed n; n_attack_cooldown := c |}.

Definition set_e_pos (x y : Q) (e : Enemy) : Enemy :=
{| e_x := x; e_y := y; e_speed := e_speed e; e_alive := e_alive e;
   e_room := e_room e; e_health := e_health e |}.
Definition set_e_health (h : Z) (e : Enemy) : Enemy :=
{| e_x := e_x e; e_y := e_y e; e_speed := e_speed e; e_alive := e_alive e;
   e_room := e_room e; e_health := h |}.
Definition set_e_alive (a : bool) (e : Enemy) : Enemy :=
{| e_x := e_x e; e_y := e_y e; e_speed := e_speed e; e_alive := a;
   e_room := e_room e; e_health := e_health e |}.

Definition set_r_collected (c : bool) (r : Resource) : Resource :=
{| r_x := r_x r; r_y := r_y r; r_collected := c; r_room := r_room r |}.

Definition set_state (v : GameState) (g : Game) : Game :=
{| state := v; running := running g; debug_mode := debug_mode g;
   game_time_limit := game_time_limit g;
   participant_id := participant_id g; condition := condition g;
   last_room_transition := last_room_transition g; frame := frame g;
   resources_collected := resources_collected g;
   enemies_killed := enemies_killed g; door_open := door_open g;
   door_unlock_effect := door_unlock_effect g;
   current_room := current_room g;
   lagged_player_action := lagged_player_action g; player := player g;
   npc := npc g; obstacles := obstacles g; enemies := enemies g;
   resources := resources g |}.
Definition set_running (v : bool) (g : Game) : Game :=
{| state := state g; running := v; debug_mode := debug_mode g;
   game_time_limit := game_time_limit g;
   participant_id := participant_id g; condition := condition g;
   last_room_transition := last_room_transition g; frame := frame g;
   resources_collected := resources_collected g;
   enemies_killed := enemies_killed g; door_open := door_open g;
   door_unlock_effect := door_unlock_effect g;
   current_room := current_room g;
   lagged_player_action := lagged_player_action g; player := player g;
   npc := npc g; obstacles := obstacles g; enemies := enemies g;
   resources := resources g |}.
Definition set_debug_mode (v : bool) (g : Game) : Game :=
{| state := state g; running := running g; debug_mode := v;
   game_time_limit := game_time_limit g;
   participant_id := participant_id g; condition := condition g;
   last_room_transition := last_room_transition g; frame := frame g;
   resources_collected := resources_collected g;
   enemies_killed := enemies_killed g; door_open := door_open g;
   door_unlock_effect := door_unlock_effect g;
   current_room := current_room g;
   lagged_player_action := lagged_player_action g; player := player g;
   npc := npc g; obstacles := obstacles g; enemies := enemies g;
   resources := resources g |}.
Definition set_last_room_transition (v : Z) (g : Game) : Game :=
{| state := state g; running := running g; debug_mode := debug_mode g;
   game_time_limit := game_time_limit g;
   participant_id := participant_id g; condition := condition g;
   last_room_transition := v; frame := frame g;
   resources_collected := resources_collected g;
   enemies_killed := enemies_killed g; door_open := door_open g;
   door_unlock_effect := door_unlock_effect g;
   current_room := current_room g;
   lagged_player_action := lagged_player_action g; player := player g;
   npc := npc g; obstacles := obstacles g; enemies := enemies g;
   resources := resources g |}.
Definition set_frame (v : Z) (g : Game) : Game :=
{| state := state g; running := running g; debug_mode := debug_mode g;
   game_time_limit := game_time_limit g;
   participant_id := participant_id g; condition := condition g;
   last_room_transition := last_room_transition g; frame := v;
   resources_collected := resources_collected g;
   enemies_killed := enemies_killed g; door_open := door_open g;
   door_unlock_effect := door_unlock_effect g;
   current_room := current_room g;
   lagged_player_action := lagged_player_action g; player := player g;
   npc := npc g; obstacles := obstacles g; enemies := enemies g;
   resources := resources g |}.
Definition set_resources_collected (v : Z) (g : Game) : Game :=
{| state := state g; running := running g; debug_mode := debug_mode g;
   game_time_limit := game_time_limit g;
   participant_id := participant_id g; condition := condition g;
   last_room_transition := last_room_transition g; frame := frame g;
   resources_collected := v; enemies_killed := enemies_killed g;
   door_open := door_open g; door_unlock_effect := door_unlock_effect g;
   current_room := current_room g;
   lagged_player_action := lagged_player_action g; player := player g;
   npc := npc g; obstacles := obstacles g; enemies := enemies g;
   resources := resources g |}.
Definition set_enemies_killed (v : Z) (g : Game) : Game :=
{| state := state g; running := running g; debug_mode := debug_mode g;
   game_time_limit := game_time_limit g;
   participant_id := participant_id g; condition := condition g;
   last_room_transition := last_room_transition g; frame := frame g;
   resources_collected := resources_collected g; enemies_killed := v;
   door_open := door_open g; door_unlock_effect := door_unlock_effect g;
   current_room := current_room g;
   lagged_player_action := lagged_player_action g; player := player g;
   npc := npc g; obstacles := obstacles g; enemies := enemies g;
   resources := resources g |}.
Definition set_door_open (v : bool) (g : Game) : Game :=
{| state := state g; running := running g; debug_mode := debug_mode g;
   game_time_limit := game_time_limit g;
   participant_id := participant_id g; condition := condition g;
   last_room_transition := last_room_transition g; frame := frame g;
   resources_collected := resources_collected g;
   enemies_killed := enemies_killed g; door_open := v;
   door_unlock_effect := door_unlock_effect g;
   current_room := current_room g;
   lagged_player_action := lagged_player_action g; player := player g;
   npc := npc g; obstacles := obstacles g; enemies := enemies g;
   resources := resources g |}.
Definition set_door_unlock_effect (v : bool) (g : Game) : Game :=
{| state := state g; running := running g; debug_mode := debug_mode g;
   game_time_limit := game_time_limit g;
   participant_id := participant_id g; condition := condition g;
   last_room_transition := last_room_transition g; frame := frame g;
   resources_collected := resources_collected g;
   enemies_killed := enemies_killed g; door_open := door_open g;
   door_unlock_effect := v; current_room := current_room g;
   lagged_player_action := lagged_player_action g; player := player g;
   npc := npc g; obstacles := obstacles g; enemies := enemies g;
   resources := resources g |}.
Definition set_current_room (v : RoomId) (g : Game) : Game :=
{| state := state g; running := running g; debug_mode := debug_mode g;
   game_time_limit := game_time_limit g;
   participant_id := participant_id g; condition := condition g;
   last_room_transition := last_room_transition g; frame := frame g;
   resources_collected := resources_collected g;
   enemies_killed := enemies_killed g; door_open := door_open g;
   door_unlock_effect := door_unlock_effect g; current_room := v;
   lagged_player_action := lagged_player_action g; player := player g;
   npc := npc g; obstacles := obstacles g; enemies := enemies g;
   resources := resources g |}.
Definition set_lagged_player_action (v : PlayerAction) (g : Game) : Game :=
{| state := state g; running := running g; debug_mode := debug_mode g;
   game_time_limit := game_time_limit g;
   participant_id := participant_id g; condition := condition g;
   last_room_transition := last_room_transition g; frame := frame g;
   resources_collected := resources_collected g;
   enemies_killed := enemies_killed g; door_open := door_open g;
   door_unlock_effect := door_unlock_effect g;
   current_room := current_room g; lagged_player_action := v;
   player := player g; npc := npc g; obstacles := obstacles g;
   enemies := enemies g; resources := resources g |}.
Definition set_player (v : Player) (g : Game) : Game :=
{| state := state g; running := running g; debug_mode := debug_mode g;
   game_time_limit := game_time_limit g;
   participant_id := participant_id g; condition := condition g;
   last_room_transition := last_room_transition g; frame := frame g;
   resources_collected := resources_collected g;
   enemies_killed := enemies_killed g; door_open := door_open g;
   door_unlock_effect := door_unlock_effect g;
   current_room := current_room g;
   lagged_player_action := lagged_player_action g; player := v;
   npc := npc g; obstacles := obstacles g; enemies := enemies g;
   resources := resources g |}.
Definition set_npc (v : NPC) (g : Game) : Game :=
{| state := state g; running := running g; debug_mode := debug_mode g;
   game_time_limit := game_time_limit g;
   participant_id := participant_id g; condition := condition g;
   last_room_transition := last_room_transition g; frame := frame g;
   resources_collected := resources_collected g;
   enemies_killed := enemies_killed g; door_open := door_open g;
   door_unlock_effect := door_unlock_effect g;
   current_room := current_room g;
   lagged_player_action := lagged_player_action g; player := player g;
   npc := v; obstacles := obstacles g; enemies := enemies g;
   resources := resources g |}.
Definition set_enemies (v : list Enemy) (g : Game) : Game :=
{| state := state g; running := running g; debug_mode := debug_mode g;
   game_time_limit := game_time_limit g;
   participant_id := participant_id g; condition := condition g;
   last_room_transition := last_room_transition g; frame := frame g;
   resources_collected := resources_collected g;
   enemies_killed := enemies_killed g; door_open := door_open g;
   door_unlock_effect := door_unlock_effect g;
   current_room := current_room g;
   lagged_player_action := lagged_player_action g; player := player g;
   npc := npc g; obstacles := obstacles g; enemies := v;
   resources := resources g |}.
Definition set_resources (v : list Resource) (g : Game) : Game :=
{| state := state g; running := running g; debug_mode := debug_mode g;
   game_time_limit := game_time_limit g;
   participant_id := participant_id g; condition := condition g;
   last_room_transition := last_room_transition g; frame := frame g;
   resources_collected := resources_collected g;
   enemies_killed := enemies_killed g; door_open := door_open g;
   door_unlock_effect := door_unlock_effect g;
   current_room := current_room g;
   lagged_player_action := lagged_player_action g; player := player g;
   npc := npc g; obstacles := obstacles g; enemies := enemies g;
   resources := v |}.

(** ** What one call of [update] reads from outside *)

Inductive Key :=
K_ESCAPE | K_RETURN | K_SPACE | K_r | K_d | K_o | K_1 | K_2 | K_OTHER.

(** A pygame event; [ctrl] is [pygame.key.get_mods() & KMOD_CTRL] at the
  moment the event is handled. *)
Inductive Event :=
| QUIT
| KEYDOWN (key : Key) (ctrl : bool)
| KEYUP (key : Key).

#[global] Instance Key_eq_dec : EqDecision Key.
Proof. solve_decision. Defined.

(** [pygame.key.get_pressed()], read as the four directions:
  W or UP, S or DOWN, A or LEFT, D or RIGHT. *)
Record Keys := { k_up : bool; k_down : bool; k_left : bool; k_right : bool }.

(** The values of [random.random()] behind the draws one enemy may consume
  in [update_enemies]: two jitter offsets, the 0.3 test and the angle. *)
Record EnemyDraw := {
d_jitter_x : Q;
d_jitter_y : Q;
d_chance : Q;
d_angle : Q
}.

(** What [reset] obtains from [generate_obstacles], [get_valid_position] and
  [random.uniform]: the obstacle lists, and for the i-th enemy and
  resource created, its position (and the draw behind its speed). *)
Record Layout := {
l_obstacles : RoomId -> list (Z * Z);
l_enemy_position : nat -> Z * Z;
l_enemy_speed : nat -> Q;
l_resource_position : nat -> Z * Z
}.

Record Input := {
in_events : list Event;
in_keys : Keys;
in_ticks : Z;
in_decide : EmotionFn;
in_enemy_draw : nat -> EnemyDraw;
in_layout : Layout
}.

(** ** [Game] *)

Section Engine.
Context {F : FloatOps}.

(** [math.sqrt((x1 - x2)**2 + (y1 - y2)**2)] *)
Definition distance (x1 y1 x2 y2 : Q) : Q :=
  fsqrt ((x1 - x2) ^ 2 + (y1 - y2) ^ 2).

(** [max(lo, min(v, hi))] *)
Definition clamp (lo v hi : Q) : Q := pymax lo (pymin v hi).

(** *** [reset] *)

Definition new_enemy (l : Layout) (room : RoomId) (i : nat) : Enemy :=
  {| e_x := inject_Z (fst (l_enemy_position l i));
     e_y := inject_Z (snd (l_enemy_position l i));
     e_speed := uniform (ENEMY_SPEED * 0.8) (ENEMY_SPEED * 1.2)
                        (l_enemy_speed l i);
     e_alive := true;
     e_room := room;
     e_health := 100 |}.

Definition new_resource (l : Layout) (room : RoomId) (i : nat) : Resource :=
  {| r_x := inject_Z (fst (l_resource_position l i));
     r_y := inject_Z (snd (l_resource_position l i));
     r_collected := false;
     r_room := room |}.

Definition reset (l : Layout) (g : Game) : Game :=
  {| state := state g;
     running := true;
     debug_mode := debug_mode g;
     game_time_limit := game_time_limit g;
     participant_id := participant_id g;
     condition := condition g;
     last_room_transition := last_room_transition g;
     frame := 0;
     resources_collected := 0;
     enemies_killed := 0;
     door_open := false;
     door_unlock_effect := false;
     current_room := Room1;
     lagged_player_action := IDLE;
     player := {| p_x := inject_Z (room_x_offset + 150);
                  p_y := inject_Z (room_y_offset + 150);
                  p_health := 100;
                  p_action := IDLE;
                  p_speed := inject_Z PLAYER_SPEED;
                  p_resources_collected := 0;
                  p_enemies_killed := 0 |};
     npc := {| n_x := inject_Z (room_x_offset + 100);
               n_y := inject_Z (room_y_offset + 100);
               n_emotion := ANTICIPATION;
               n_emotion_lagged := ANTICIPATION;
               n_reaction := FOLLOW;
               n_speed := NPC_SPEED;
               n_attack_cooldown := 0 |};
     obstacles := l_obstacles l;
     enemies := map (new_enemy l Room1) (seq 0 7)
                ++ map (new_enemy l Room2) (seq 7 8);
     resources := map (new_resource l Room1) (seq 0 2)
                  ++ map (new_resource l Room2) (seq 2 2) |}.

(** [Game.__init__]: the attributes set before [reset], then [reset]. *)
Definition new_game (time_limit : Z) (pid cond : option string)
    (l : Layout) : Game :=
  reset l
    {| state := START_SCREEN; running := true; debug_mode := false;
       game_time_limit := time_limit;
       participant_id := pid; condition := cond;
       last_room_transition := 0; frame := 0;
       resources_collected := 0; enemies_killed := 0;
       door_open := false; door_unlock_effect := false;
       current_room := Room1; lagged_player_action := IDLE;
       player := {| p_x := 0; p_y := 0; p_health := 100; p_action := IDLE;
                    p_speed := inject_Z PLAYER_SPEED;
                    p_resources_collected := 0; p_enemies_killed := 0 |};
       npc := {| n_x := 0; n_y := 0; n_emotion := ANTICIPATION;
                 n_emotion_lagged := ANTICIPATION; n_reaction := FOLLOW;
                 n_speed := NPC_SPEED; n_attack_cooldown := 0 |};
       obstacles := fun _ => []; enemies := []; resources := [] |}.

(** *** [is_valid_move] *)

(** The test of the loop body: this obstacle blocks the position. *)
Definition obstacle_blocks (x y : Q) (size : Z) (obs : Z * Z) : bool :=
  Qltb (distance x y (inject_Z (fst obs)) (inject_Z (snd obs)))
       (inject_Z (OBSTACLE_SIZE + size) / 2).

Definition is_valid_move (g : Game) (x y : Q) (size : Z) : bool :=
  forallb (fun obs => negb (obstacle_blocks x y size obs))
          (obstacles g (current_room g)).

(** *** [get_nearest_enemy_distance], [get_nearest_resource_distance] *)

(** [min(min_distance, distance)] where [None] is [float('inf')]. *)
Definition min_inf (min_distance : option Q) (d : Q) : option Q :=
  match min_distance with
  | None => Some d
  | Some m => Some (pymin m d)
  end.

(** [min_distance if min_distance != float('inf') else 1000] *)
Definition or_sentinel (min_distance : option Q) : Q :=
  match min_distance with
  | None => 1000
  | Some m => m
  end.

Definition enemy_counts (g : Game) (e : Enemy) : bool :=
  bool_decide (e_room e = current_room g) && e_alive e.

Definition resource_counts (g : Game) (r : Resource) : bool :=
  bool_decide (r_room r = current_room g) && negb (r_collected r).

Definition player_enemy_distance (g : Game) (e : Enemy) : Q :=
  distance (p_x (player g)) (p_y (player g)) (e_x e) (e_y e).

Definition player_resource_distance (g : Game) (r : Resource) : Q :=
  distance (p_x (player g)) (p_y (player g)) (r_x r) (r_y r).

Definition get_nearest_enemy_distance (g : Game) : Q :=
  or_sentinel
    (fold_left (fun m e =>
                  if enemy_counts g e
                  then min_inf m (player_enemy_distance g e) else m)
               (enemies g) None).

Definition get_nearest_resource_distance (g : Game) : Q :=
  or_sentinel
    (fold_left (fun m r =>
                  if resource_counts g r
                  then min_inf m (player_resource_distance g r) else m)
               (resources g) None).

(** *** [update_npc_emotion], [update_npc_reaction] *)

Definition update_npc_reaction (g : Game) : Game :=
  let r := match n_emotion (npc g) with
           | ANTICIPATION => FOLLOW
           | HAPPINESS => NOTIFY_RESOURCE
           | FEAR => NOTIFY_DANGER
           | ANGER => ATTACK_ENEMY
           | SURPRISE => NOTIFY_SURPRISE
           | SADNESS => PROVIDE_HEALING
           end in
  set_npc (set_n_reaction r (npc g)) g.

Definition update_npc_emotion (decide : EmotionFn) (g : Game) : Game :=
  let g := set_npc (set_n_emotion_lagged (n_emotion (npc g)) (npc g)) g in
  let e := decide (p_health (player g))
                  (get_nearest_enemy_distance g)
                  (get_nearest_resource_distance g)
                  (lagged_player_action g)
                  (current_room g)
                  (p_x (player g)) (p_y (player g))
                  (n_x (npc g)) (n_y (npc g))
                  (p_resources_collected (player g))
                  (p_enemies_killed (player g))
                  (n_emotion_lagged (npc g))
                  (p_action (player g)) in
  update_npc_reaction (set_npc (set_n_emotion e (npc g)) g).

(** *** [update_npc_position] *)

Definition IDEAL_DISTANCE : Q := 60.
Definition MIN_DISTANCE : Q := 40.

(** [npc["x"] += dx * npc["speed"] * k; npc["y"] += dy * npc["speed"] * k] *)
Definition npc_shift (dx dy k : Q) (g : Game) : Game :=
  set_npc (set_n_pos (n_x (npc g) + dx * n_speed (npc g) * k)
                     (n_y (npc g) + dy * n_speed (npc g) * k)
                     (npc g)) g.

(** The search for [nearest_enemy]: the index and distance of the first
    closest alive enemy of the room, [None] while [min_distance] is
    infinite. *)
Fixpoint nearest_enemy_from (g : Game) (i : nat) (es : list Enemy)
    (best : option (nat * Q)) : option (nat * Q) :=
  match es with
  | [] => best
  | e :: es' =>
      if enemy_counts g e then
        let d := distance (n_x (npc g)) (n_y (npc g)) (e_x e) (e_y e) in
        let closer := match best with
                      | None => true
                      | Some (_, m) => Qltb d m
                      end in
        nearest_enemy_from g (S i) es' (if closer then Some (i, d) else best)
      else nearest_enemy_from g (S i) es' best
  end.

(** The NPC's hit on [enemies[nearest_enemy]]. *)
Definition npc_hit (e : Enemy) : Enemy :=
  let e := set_e_health (e_health e - NPC_DAMAGE) e in
  if (e_health e <=? 0)%Z then set_e_alive false e else e.

Definition npc_attack (i : nat) (e : Enemy) (g : Game) : Game :=
  let e' := npc_hit e in
  let g := set_enemies (<[i := e']> (enemies g)) g in
  let g := set_npc (set_n_attack_cooldown 30 (npc g)) g in
  if (e_health e' <=? 0)%Z then
    set_enemies_killed (enemies_killed g + 1)
      (set_player (set_p_enemies_killed (p_enemies_killed (player g) + 1)
                                        (player g)) g)
  else g.

(** The branch on [npc["reaction"]]; the boolean is [moved]. *)
Definition npc_act (g : Game) : Game * bool :=
  let dx := p_x (player g) - n_x (npc g) in
  let dy := p_y (player g) - n_y (npc g) in
  let dist := distance (p_x (player g)) (p_y (player g))
                       (n_x (npc g)) (n_y (npc g)) in
  match n_reaction (npc g) with
  | FOLLOW =>
      if Qltb 0 dist then
        let dx := dx / dist in
        let dy := dy / dist in
        if Qltb (IDEAL_DISTANCE + 10) dist then
          (npc_shift dx dy 1.5 g, true)
        else if Qltb dist MIN_DISTANCE then
          (npc_shift dx dy (-0.5) g, true)
        else if Qltb IDEAL_DISTANCE dist then
          if Qltb (IDEAL_DISTANCE + 5) dist then
            (npc_shift dx dy 1.0 g, true)
          else (g, false)
        else (g, false)
      else (g, false)
  | NOTIFY_RESOURCE | NOTIFY_DANGER =>
      if Qltb (IDEAL_DISTANCE * 1.5) dist then
        (npc_shift (dx / dist) (dy / dist) 1.2 g, true)
      else (g, false)
  | ATTACK_ENEMY =>
      match nearest_enemy_from g 0 (enemies g) None with
      | Some (i, min_distance) =>
          match enemies g !! i with
          | Some e =>
              if Qltb (inject_Z ATTACK_RADIUS + 5) min_distance then
                let dx := e_x e - n_x (npc g) in
                let dy := e_y e - n_y (npc g) in
                let dist := distance (e_x e) (e_y e)
                                     (n_x (npc g)) (n_y (npc g)) in
                if Qltb 0 dist then
                  (npc_shift (dx / dist) (dy / dist) 1.2 g, true)
                else (g, false)
              else if Qltb min_distance (inject_Z ATTACK_RADIUS)
                      && (n_attack_cooldown (npc g) =? 0)%Z then
                (npc_attack i e g, false)
              else (g, false)
          | None => (g, false)
          end
      | None => (g, false)
      end
  | PROVIDE_HEALING =>
      if Qltb (inject_Z ATTACK_RADIUS + 5) dist then
        (npc_shift (dx / dist) (dy / dist) 1.5 g, true)
      else
        let healing_amount := 10 in
        (set_player (set_p_health
                       (pymin (p_health (player g) + healing_amount) 100)
                       (player g)) g, false)
  | NOTIFY_SURPRISE => (g, false)
  end.

(** [if not self.is_valid_move(npc.x, npc.y, NPC_SIZE): revert] *)
Definition npc_check_move (old_x old_y : Q) (g : Game) : Game :=
  if negb (is_valid_move g (n_x (npc g)) (n_y (npc g)) NPC_SIZE)
  then set_npc (set_n_pos old_x old_y (npc g)) g
  else g.

(** "Keep NPC in the current room" *)
Definition npc_keep_in_room (g : Game) : Game :=
  let room := rooms (current_room g) in
  let x := clamp (inject_Z (b_x room + NPC_SIZE / 2)) (n_x (npc g))
                 (inject_Z (b_x room + b_width room - NPC_SIZE / 2)) in
  let y := clamp (inject_Z (b_y room + NPC_SIZE / 2)) (n_y (npc g))
                 (inject_Z (b_y room + b_height room - NPC_SIZE / 2)) in
  set_npc (set_n_pos x y (npc g)) g.

(** [if not moved: round the position] *)
Definition npc_round (moved : bool) (g : Game) : Game :=
  if negb moved
  then set_npc (set_n_pos (pyround (n_x (npc g))) (pyround (n_y (npc g)))
                          (npc g)) g
  else g.

Definition npc_cooldown (g : Game) : Game :=
  if (0 <? n_attack_cooldown (npc g))%Z
  then set_npc (set_n_attack_cooldown (n_attack_cooldown (npc g) - 1)
                                      (npc g)) g
  else g.

Definition update_npc_position (g : Game) : Game :=
  let g := npc_cooldown g in
  let old_x := n_x (npc g) in
  let old_y := n_y (npc g) in
  let '(g, moved) := npc_act g in
  npc_round moved (npc_keep_in_room (npc_check_move old_x old_y g)).

(** *** [update_enemies] *)

Definition enemy_jitter (d : EnemyDraw) (e : Enemy) : Enemy :=
  set_e_pos
    (e_x e + uniform (- e_speed e * 0.5) (e_speed e * 0.5) (d_jitter_x d))
    (e_y e + uniform (- e_speed e * 0.5) (e_speed e * 0.5) (d_jitter_y d))
    e.

(** The candidate positions of the pursuit, for the unit vector
    [(dx, dy)] towards the player. *)
Definition step_full (dx dy : Q) (e : Enemy) : Q * Q :=
  (e_x e + dx * e_speed e, e_y e + dy * e_speed e).
Definition step_horizontal (dx : Q) (e : Enemy) : Q * Q :=
  (e_x e + dx * e_speed e, e_y e).
Definition step_vertical (dy : Q) (e : Enemy) : Q * Q :=
  (e_x e, e_y e + dy * e_speed e).
Definition step_random (d : EnemyDraw) (e : Enemy) : Q * Q :=
  let angle := uniform 0 (2 * fpi) (d_angle d) in
  (e_x e + fcos angle * e_speed e, e_y e + fsin angle * e_speed e).

Definition valid_at (g : Game) (pos : Q * Q) : bool :=
  is_valid_move g (fst pos) (snd pos) ENEMY_SIZE.

(** The value of [(new_x, new_y)] when line 609 is reached. *)
Definition pursuit_candidate (g : Game) (d : EnemyDraw) (dx dy : Q)
    (e : Enemy) : Q * Q :=
  if negb (valid_at g (step_full dx dy e)) then
    if negb (valid_at g (step_horizontal dx e)) then
      if negb (valid_at g (step_vertical dy e)) && Qltb (d_chance d) 0.3
      then step_random d e
      else step_vertical dy e
    else step_horizontal dx e
  else step_full dx dy e.

(** "enemies chase player if within detection radius" *)
Definition enemy_pursue (g : Game) (d : EnemyDraw) (player_distance : Q)
    (e : Enemy) : Enemy :=
  if Qltb player_distance (inject_Z ENEMY_DETECTION_RADIUS) then
    let dx := p_x (player g) - e_x e in
    let dy := p_y (player g) - e_y e in
    if Qltb 0 player_distance then
      let new := pursuit_candidate g d (dx / player_distance)
                                   (dy / player_distance) e in
      if valid_at g new then set_e_pos (fst new) (snd new) e else e
    else e
  else e.

(** "Check if the enemy's final position is valid" *)
Definition enemy_check_move (g : Game) (old_x old_y : Q) (e : Enemy)
    : Enemy :=
  if negb (is_valid_move g (e_x e) (e_y e) ENEMY_SIZE)
  then set_e_pos old_x old_y e else e.

(** "Keep within room boundaries" *)
Definition enemy_keep_in_room (g : Game) (e : Enemy) : Enemy :=
  let room := rooms (current_room g) in
  set_e_pos
    (clamp (inject_Z (b_x room + ENEMY_SIZE / 2)) (e_x e)
           (inject_Z (b_x room + b_width room - ENEMY_SIZE / 2)))
    (clamp (inject_Z (b_y room + ENEMY_SIZE / 2)) (e_y e)
           (inject_Z (b_y room + b_height room - ENEMY_SIZE / 2)))
    e.

(** "Damage player if close enough", on the player's health. *)
Definition enemy_damage (player_distance : Q) (health : Q) : Q :=
  if Qltb player_distance (inject_Z ATTACK_RADIUS)
  then pymax 0 (health - inject_Z ENEMY_DAMAGE / inject_Z FPS)
  else health.

(** One iteration of the loop: the enemy and the player's health after. *)
Definition update_enemy (g : Game) (d : EnemyDraw) (e : Enemy) (health : Q)
    : Enemy * Q :=
  if enemy_counts g e then
    let old_x := e_x e in
    let old_y := e_y e in
    let e := enemy_jitter d e in
    let player_distance := player_enemy_distance g e in
    let e := enemy_pursue g d player_distance e in
    let e := enemy_check_move g old_x old_y e in
    let e := enemy_keep_in_room g e in
    (e, enemy_damage player_distance health)
  else (e, health).

Fixpoint update_enemies_from (g : Game) (draw : nat -> EnemyDraw) (i : nat)
    (es : list Enemy) (health : Q) : list Enemy * Q :=
  match es with
  | [] => ([], health)
  | e :: es' =>
      let '(e', health) := update_enemy g (draw i) e health in
      let '(es'', health) := update_enemies_from g draw (S i) es' health in
      (e' :: es'', health)
  end.

Definition update_enemies (draw : nat -> EnemyDraw) (g : Game) : Game :=
  let '(es, health) :=
    update_enemies_from g draw 0 (enemies g) (p_health (player g)) in
  set_enemies es (set_player (set_p_health health (player g)) g).

(** *** [check_resource_collection] *)

Definition resource_in_reach (g : Game) (r : Resource) : bool :=
  resource_counts g r
  && Qltb (player_resource_distance g r) (inject_Z ATTACK_RADIUS).

(** The body of the [if]: pick the resource up, count it, heal, and open
    the door once two resources are collected. *)
Definition collect (g : Game) : Game :=
  let p := player g in
  let p := set_p_resources_collected (p_resources_collected p + 1) p in
  let g := set_player p g in
  let g := set_resources_collected (resources_collected g + 1) g in
  let g := set_player
             (set_p_health
                (pymin (p_health (player g) + inject_Z RESOURCE_HEAL) 100)
                (player g)) g in
  if (2 <=? resources_collected g)%Z && negb (door_open g)
  then set_door_unlock_effect true (set_door_open true g)
  else g.

Fixpoint check_resources_from (rs : list Resource) (g : Game)
    : list Resource * Game :=
  match rs with
  | [] => ([], g)
  | r :: rs' =>
      if resource_in_reach g r then
        let '(rs'', g') := check_resources_from rs' (collect g) in
        (set_r_collected true r :: rs'', g')
      else
        let '(rs'', g') := check_resources_from rs' g in
        (r :: rs'', g')
  end.

Definition check_resource_collection (g : Game) : Game :=
  let '(rs, g') := check_resources_from (resources g) g in
  set_resources rs g'.

(** *** [is_player_at_door], [check_door_interaction] *)

Definition is_player_at_door (g : Game) : bool :=
  let door_center_x := inject_Z (b_x door) + inject_Z (b_width door) / 2 in
  let door_center_y := inject_Z (b_y door) + inject_Z (b_height door) / 2 in
  let dx := Qabs (p_x (player g) - door_center_x) in
  let dy := Qabs (p_y (player g) - door_center_y) in
  let door_x_threshold :=
    inject_Z (b_width door) / 2 + inject_Z PLAYER_SIZE / 2 in
  let door_y_threshold :=
    inject_Z (b_height door) / 2 + inject_Z PLAYER_SIZE / 2 in
  Qltb dx door_x_threshold && Qltb dy door_y_threshold.

(** The teleport of both characters into [room]; [x] is the player's
    anchor there. *)
Definition enter_room (room : RoomId) (x : Q) (now : Z) (g : Game) : Game :=
  let g := set_current_room room g in
  let y := inject_Z (b_y (rooms room)) + inject_Z ROOM_HEIGHT / 2 in
  let g := set_player (set_p_pos x y (player g)) g in
  let g := set_npc (set_n_pos (p_x (player g) - 30) (p_y (player g))
                              (npc g)) g in
  set_last_room_transition now g.

Definition check_door_interaction (now : Z) (g : Game) : Game :=
  if is_player_at_door g then
    if (room_transition_cooldown <? now - last_room_transition g)%Z then
      if door_open g then
        let g := if door_unlock_effect g
                 then set_door_unlock_effect false g else g in
        match current_room g with
        | Room1 =>
            enter_room Room2 (inject_Z (b_x (rooms Room2) + 50)) now g
        | Room2 =>
            enter_room Room1
              (inject_Z (b_x (rooms Room1) + ROOM_WIDTH - 50)) now g
        end
      else
        if Qltb (p_x (player g)) (inject_Z (b_x door))
        then set_player (set_p_pos (p_x (player g) - 10) (p_y (player g))
                                   (player g)) g
        else set_player (set_p_pos (p_x (player g) + 10) (p_y (player g))
                                   (player g)) g
    else g
  else g.

(** *** [check_exit_interaction] *)

(** Conversion of a float to a C [int], as [pygame.Rect] and Python's
    [int()] do: truncation towards zero. *)
Definition trunc (q : Q) : Z := Z.quot (Qnum q) (Zpos (Qden q)).

(** [pygame.Rect.colliderect] *)
Definition colliderect (a b : Box) : bool :=
  if (b_width a =? 0)%Z || (b_height a =? 0)%Z
     || (b_width b =? 0)%Z || (b_height b =? 0)%Z
  then false
  else
    ((Z.min (b_x a) (b_x a + b_width a)
      <? Z.max (b_x b) (b_x b + b_width b))
     && (Z.min (b_y a) (b_y a + b_height a)
         <? Z.max (b_y b) (b_y b + b_height b))
     && (Z.min (b_x b) (b_x b + b_width b)
         <? Z.max (b_x a) (b_x a + b_width a))
     && (Z.min (b_y b) (b_y b + b_height b)
         <? Z.max (b_y a) (b_y a + b_height a)))%Z.

Definition player_rect (g : Game) : Box :=
  {| b_x := trunc (p_x (player g) - inject_Z PLAYER_SIZE / 2);
     b_y := trunc (p_y (player g) - inject_Z PLAYER_SIZE / 2);
     b_width := PLAYER_SIZE;
     b_height := PLAYER_SIZE |}.

(** The two outer conditions: room 2, and the rectangles collide. *)
Definition at_exit (g : Game) : bool :=
  bool_decide (current_room g = Room2) && colliderect (player_rect g) exit.

(** The completion gate of line 719. *)
Definition completion_gate (g : Game) : bool :=
  ((8 <=? p_enemies_killed (player g))
   && (4 <=? p_resources_collected (player g)))%Z.

Definition check_exit_interaction (g : Game) : Game :=
  if at_exit g then
    if completion_gate g then set_state COMPLETED g else g
  else g.

(** The [else] branch, "Give feedback on what's missing". *)
Definition missing_resources (g : Game) : Z :=
  Z.max 0 (4 - p_resources_collected (player g)).
Definition missing_enemies (g : Game) : Z :=
  Z.max 0 (5 - p_enemies_killed (player g)).

Inductive ExitMessage :=
  | NeedResourcesAndEnemies (r e : Z)
  | NeedResources (r : Z)
  | NeedEnemies (e : Z).

(** What [check_exit_interaction] prints about missing objectives. *)
Definition exit_feedback (g : Game) : option ExitMessage :=
  if at_exit g && negb (completion_gate g) && debug_mode g then
    if (0 <? missing_resources g)%Z && (0 <? missing_enemies g)%Z then
      Some (NeedResourcesAndEnemies (missing_resources g)
                                    (missing_enemies g))
    else if (0 <? missing_resources g)%Z then
      Some (NeedResources (missing_resources g))
    else if (0 <? missing_enemies g)%Z then
      Some (NeedEnemies (missing_enemies g))
    else None
  else None.

(** *** [check_attack] *)

Definition in_attack_range (g : Game) (e : Enemy) : bool :=
  enemy_counts g e
  && Qltb (player_enemy_distance g e) (inject_Z ATTACK_RADIUS).

(** "Player does high damage to guarantee one-hit kills" *)
Definition player_hit (e : Enemy) : Enemy :=
  let e := set_e_health (e_health e - PLAYER_DAMAGE) e in
  if (e_health e <=? 0)%Z then set_e_alive false e else e.

Definition count_kill (g : Game) : Game :=
  set_enemies_killed (enemies_killed g + 1)
    (set_player (set_p_enemies_killed (p_enemies_killed (player g) + 1)
                                      (player g)) g).

Fixpoint check_attack_from (es : list Enemy) (g : Game)
    : list Enemy * Game :=
  match es with
  | [] => ([], g)
  | e :: es' =>
      if in_attack_range g e then
        let e' := player_hit e in
        let g := if (e_health e' <=? 0)%Z then count_kill g else g in
        let '(es'', g') := check_attack_from es' g in
        (e' :: es'', g')
      else
        let '(es'', g') := check_attack_from es' g in
        (e :: es'', g')
  end.

Definition check_attack (g : Game) : Game :=
  if bool_decide (p_action (player g) = ATTACK) then
    let '(es, g') := check_attack_from (enemies g) g in
    set_enemies es g'
  else g.

(** *** Event handlers *)

Definition toggle_debug (g : Game) : Game :=
  set_debug_mode (negb (debug_mode g)) g.

Definition start_screen_event (g : Game) (ev : Event) : Game :=
  match ev with
  | QUIT => g
  | KEYDOWN K_ESCAPE _ => g
  | KEYDOWN K_RETURN _ | KEYDOWN K_SPACE _ => set_state PLAYING g
  | KEYDOWN K_d true => toggle_debug g
  | KEYDOWN _ _ => g
  | KEYUP _ => g
  end.

Definition handle_start_screen_events (evs : list Event) (g : Game) : Game :=
  fold_left start_screen_event evs g.

Definition completed_screen_event (g : Game) (ev : Event) : Game :=
  match ev with
  | QUIT => set_running false g
  | KEYDOWN K_ESCAPE _ => set_running false g
  | KEYDOWN _ _ => g
  | KEYUP _ => g
  end.

Definition handle_completed_screen_events (evs : list Event) (g : Game)
    : Game :=
  fold_left completed_screen_event evs g.

(** The debug keys 1 and 2: jump to the centre of a room. *)
Definition debug_jump (room : RoomId) (g : Game) : Game :=
  let g := set_current_room room g in
  set_player
    (set_p_pos (inject_Z (b_x (rooms room) + ROOM_WIDTH / 2))
               (inject_Z (b_y (rooms room) + ROOM_HEIGHT / 2))
               (player g)) g.

Definition playing_event (g : Game) (ev : Event) : Game :=
  match ev with
  | QUIT => g
  | KEYDOWN K_ESCAPE _ => g
  | KEYDOWN K_r _ => g
  | KEYDOWN K_SPACE _ =>
      check_attack (set_player (set_p_action ATTACK (player g)) g)
  | KEYDOWN K_d true => toggle_debug g
  | KEYDOWN K_o _ => if debug_mode g then set_door_open true g else g
  | KEYDOWN K_1 _ => if debug_mode g then debug_jump Room1 g else g
  | KEYDOWN K_2 _ => if debug_mode g then debug_jump Room2 g else g
  | KEYDOWN _ _ => g
  | KEYUP K_SPACE =>
      if bool_decide (p_action (player g) = ATTACK)
      then set_player (set_p_action IDLE (player g)) g
      else g
  | KEYUP _ => g
  end.

(** "Handle continuous key presses": the tentative position and [moved]. *)
Definition player_step (k : Keys) (p : Player) : Player * bool :=
  let y := if k_up k then p_y p - p_speed p else p_y p in
  let y := if k_down k then y + p_speed p else y in
  let x := if k_left k then p_x p - p_speed p else p_x p in
  let x := if k_right k then x + p_speed p else x in
  (set_p_pos x y p, k_up k || k_down k || k_left k || k_right k).

(** "Update player action state" *)
Definition player_action_update (moved : bool) (p : Player) : Player :=
  if moved && negb (bool_decide (p_action p = ATTACK))
  then set_p_action MOVE p
  else if negb moved && negb (bool_decide (p_action p = ATTACK))
  then set_p_action IDLE p
  else p.

(** [if not self.is_valid_move(player.x, player.y, PLAYER_SIZE): revert] *)
Definition player_check_move (old_x old_y : Q) (g : Game) : Game :=
  if negb (is_valid_move g (p_x (player g)) (p_y (player g)) PLAYER_SIZE)
  then set_player (set_p_pos old_x old_y (player g)) g
  else g.

(** "Normal boundary checking" *)
Definition player_keep_in_room (g : Game) : Game :=
  let room := rooms (current_room g) in
  set_player
    (set_p_pos
       (clamp (inject_Z (b_x room + PLAYER_SIZE / 2)) (p_x (player g))
              (inject_Z (b_x room + b_width room - PLAYER_SIZE / 2)))
       (clamp (inject_Z (b_y room + PLAYER_SIZE / 2)) (p_y (player g))
              (inject_Z (b_y room + b_height room - PLAYER_SIZE / 2)))
       (player g)) g.

(** "Special door handling", then the boundary check. *)
Definition player_door_or_bounds (now : Z) (g : Game) : Game :=
  if is_player_at_door g && door_open g
  then check_door_interaction now g
  else player_keep_in_room g.

Definition handle_playing_events (inp : Input) (g : Game) : Game :=
  let g := fold_left playing_event (in_events inp) g in
  let old_x := p_x (player g) in
  let old_y := p_y (player g) in
  let '(p, moved) := player_step (in_keys inp) (player g) in
  let g := set_player (player_action_update moved p) g in
  let g := player_check_move old_x old_y g in
  player_door_or_bounds (in_ticks inp) g.

(** *** [update] *)

(** The simulation steps of a playing tick, before the game-over and
    time-limit checks. *)
Definition playing_tick (inp : Input) (g : Game) : Game :=
  let g := set_frame (frame g + 1) g in
  let g := set_lagged_player_action (p_action (player g)) g in
  let g := handle_playing_events inp g in
  let g := update_npc_emotion (in_decide inp) g in
  let g := update_npc_position g in
  let g := update_enemies (in_enemy_draw inp) g in
  let g := check_resource_collection g in
  check_exit_interaction g.

(** "Check game over conditions" *)
Definition player_died (g : Game) : bool := Qle_bool (p_health (player g)) 0.

Definition game_over_check (l : Layout) (g : Game) : Game :=
  if player_died g then reset l g else g.

(** "Check time limit if enabled" *)
Definition time_is_up (g : Game) : bool :=
  ((0 <? game_time_limit g) && (game_time_limit g * FPS <=? frame g))%Z.

Definition time_limit_check (g : Game) : Game :=
  if time_is_up g then set_state COMPLETED g else g.

Definition update (inp : Input) (g : Game) : Game :=
  match state g with
  | START_SCREEN => handle_start_screen_events (in_events inp) g
  | COMPLETED => handle_completed_screen_events (in_events inp) g
  | PLAYING =>
      time_limit_check
        (game_over_check (in_layout inp) (playing_tick inp g))
  end.

(** *** [run] *)

(** The dictionary returned by [run]. *)
Record GameData := {
  gd_participant_id : string;
  gd_condition : option string;
  gd_resources_collected : Z;
  gd_enemies_killed : Z;
  gd_health : Z;
  gd_completed : bool;
  gd_play_time : Q
}.

(** "Before closing, gather and return game data if in a study" *)
Definition game_data (g : Game) : option GameData :=
  match participant_id g with
  | Some pid =>
      if bool_decide (pid = EmptyString) then None
      else Some {| gd_participant_id := pid;
                   gd_condition := condition g;
                   gd_resources_collected :=
                     p_resources_collected (player g);
                   gd_enemies_killed := p_enemies_killed (player g);
                   gd_health := trunc (p_health (player g));
                   gd_completed := bool_decide (state g = COMPLETED);
                   gd_play_time := inject_Z (frame g) / inject_Z FPS |}
  | None => None
  end.

(** The states of [while self.running: self.update()], one input per
    iteration.  [updates inputs g] is the game after the loop has consumed
    the inputs (or has stopped before). *)
Fixpoint updates (inputs : list Input) (g : Game) : Game :=
  match inputs with
  | [] => g
  | inp :: inputs' =>
      if running g then updates inputs' (update inp g) else g
  end.

(** [run]: [None] while the loop is still running after these inputs,
    otherwise the value returned. *)
Definition run (inputs : list Input) (g : Game) : option (option GameData) :=
  let g' := updates inputs g in
  if running g' then None else Some (game_data g').

End Engine.

(** ** A runnable instance of the float operations

    Square roots are computed to six decimals by integer square root
    (exact on rational squares with denominator up to 10^6); sine and cosine
    by their Taylor polynomials of degree 7 and 6.  Used to evaluate the
    model on concrete inputs. *)

Definition sqrt6 (q : Q) : Q :=
  let n := (Qnum q * 1000000000000)%Z in
  Qred (Z.sqrt (n / Zpos (Qden q)) # 1000000).

Definition sin7 (x : Q) : Q :=
  Qred (x - x ^ 3 / 6 + x ^ 5 / 120 - x ^ 7 / 5040).

Definition cos6 (x : Q) : Q :=
  Qred (1 - x ^ 2 / 2 + x ^ 4 / 24 - x ^ 6 / 720).

Definition run_floats : FloatOps :=
  {| fsqrt := sqrt6; fcos := cos6; fsin := sin7; fpi := 3.141592653589793 |}.

(** ** Vocabulary of the properties *)






(** The position lies in the room, inset by half the mover's size. *)
Definition inside_room (room : RoomId) (size : Z) (x y : Q) : Prop :=
  inject_Z (b_x (rooms room) + size / 2) <= x
  /\ x <= inject_Z (b_x (rooms room) + b_width (rooms room) - size / 2)
  /\ inject_Z (b_y (rooms room) + size / 2) <= y
  /\ y <= inject_Z (b_y (rooms room) + b_height (rooms room) - size / 2).


(** The player's health is within [0, 100]. *)
Definition health_ok (g : Game) : Prop :=
  0 <= p_health (player g) /\ p_health (player g) <= 100.

(** This call of [update] ends the run: the player died in a playing tick
    and [reset] recreates every entity. *)
Definition resets `{F : FloatOps} (inp : Input) (g : Game) : bool :=
  match state g with
  | PLAYING => player_died (playing_tick inp g)
  | _ => false
  end.

(** Some O key-down of the event list is handled while debug mode is on,
    given the debug flag at the start of the list (Ctrl+D toggles it). *)
Fixpoint debug_opens (debug : bool) (evs : list Event) : bool :=
  match evs with
  | [] => false
  | KEYDOWN K_d true :: evs' => debug_opens (negb debug) evs'
  | KEYDOWN K_o _ :: evs' => debug || debug_opens debug evs'
  | _ :: evs' => debug_opens debug evs'
  end.

(** The number of deactivated enemies. *)
Definition dead_count (es : list Enemy) : Z :=
  Z.of_nat (length (List.filter (fun e => negb (e_alive e)) es)).

(** Both kill counters equal the number of deactivated enemies. *)
Definition kills_counted (g : Game) : Prop :=
  enemies_killed g = dead_count (enemies g)
  /\ p_enemies_killed (player g) = dead_count (enemies g).

(** ** Proof vocabulary *)

Ltac case_ifs :=
  repeat match goal with
         | |- context [if ?b then _ else _] => destruct b
         | |- context [match ?x with _ => _ end] => destruct x
         end.


(** The fields a stage leaves alone, as far as the door is concerned. *)
Definition same_door (g g' : Game) : Prop :=
  door_open g' = door_open g
  /\ resources_collected g' = resources_collected g.


(** A deactivated enemy is left exactly as it was. *)
Definition dead_fixed (e e' : Enemy) : Prop := e_alive e = false -> e' = e.


(** How a stage may change the enemies and the two kill counters: every kill
    counted is a new deactivation, and no deactivated enemy is touched. *)
Definition kill_step (g g' : Game) : Prop :=
  Forall2 dead_fixed (enemies g) (enemies g')
  /\ (enemies_killed g' - dead_count (enemies g')
      = enemies_killed g - dead_count (enemies g))%Z
  /\ (p_enemies_killed (player g') - dead_count (enemies g')
      = p_enemies_killed (player g) - dead_count (enemies g))%Z.


(** The fields a stage leaves alone, as far as the clock is concerned. *)
Definition same_clock (g g' : Game) : Prop :=
  frame g' = frame g /\ game_time_limit g' = game_time_limit g.

(** What one pass of [check_attack] makes of an enemy, and whether that
    pass counts it as a kill. *)
Definition struck `{F : FloatOps} (g : Game) (e : Enemy) : Enemy :=
  if in_attack_range g e then player_hit e else e.

Definition felled `{F : FloatOps} (g : Game) (e : Enemy) : bool :=
  in_attack_range g e && (e_health (player_hit e) <=? 0)%Z.

Definition strike_kills `{F : FloatOps} (g : Game) (es : list Enemy) : Z :=
  Z.of_nat (length (List.filter (felled g) es)).

(** ** Concrete inputs *)

(** A placement [reset] can produce: three obstacles per room outside the
    safe zones, one enemy 61 pixels to the right of the player's spawn
    point and the others out of detection range, resources out of reach. *)
Definition demo_layout : Layout :=
  {| l_obstacles := fun r =>
       match r with
       | Room1 => [(100, 500); (300, 600); (500, 150)]%Z
       | Room2 => [(900, 200); (1000, 600); (1200, 150)]%Z
       end;
     l_enemy_position := fun i =>
       nth i [(236, 225); (450, 450); (500, 500); (550, 550); (450, 550);
              (550, 450); (580, 580)]%Z
             (1000 + 20 * Z.of_nat i, 300)%Z;
     l_enemy_speed := fun _ => 1 # 2;
     l_resource_position := fun i =>
       nth i [(400, 300); (420, 400)]%Z (1100, 500)%Z |}.

(** The same placement with every enemy of room 1 out of detection range. *)
Definition quiet_layout : Layout :=
  {| l_obstacles := l_obstacles demo_layout;
     l_enemy_position := fun i =>
       match i with
       | O => (450, 500)%Z
       | _ => l_enemy_position demo_layout i
       end;
     l_enemy_speed := l_enemy_speed demo_layout;
     l_resource_position := l_resource_position demo_layout |}.


(** Draws that give no jitter and fail the 0.3 test. *)
Definition still_draw : EnemyDraw :=
  {| d_jitter_x := 1 # 2; d_jitter_y := 1 # 2; d_chance := 1 # 2;
     d_angle := 0 |}.

Definition no_keys : Keys :=
  {| k_up := false; k_down := false; k_left := false; k_right := false |}.

(** One call of [update] with the given event queue, no direction key
    held, and the rule-based emotion system plugged in. *)
Definition tick (l : Layout) (evs : list Event) : Input :=
  {| in_events := evs;
     in_keys := no_keys;
     in_ticks := 0;
     in_decide := @RuleBased.determine_emotion run_floats;
     in_enemy_draw := fun _ => still_draw;
     in_layout := l |}.

(** The game after the start screen has been left. *)
Definition started (time_limit : Z) (l : Layout) : Game :=
  @update run_floats (tick l [KEYDOWN K_RETURN false])
    (new_game time_limit (Some "P01"%string) None l).

(** A game in room 2 with the player standing on the exit, six enemies
    killed and all four resources collected, debug mode on. *)
Definition at_exit_six_kills : Game :=
  let g := started 120 quiet_layout in
  let g := set_current_room Room2 (set_debug_mode true g) in
  let p := set_p_pos (inject_Z (b_x exit + 30)) (inject_Z (b_y exit + 40))
                     (player g) in
  set_player (set_p_enemies_killed 6 (set_p_resources_collected 4 p)) g.



Definition cornered_enemy : Enemy :=
  {| e_x := 300; e_y := 300; e_speed := 1.5; e_alive := true;
     e_room := Room1; e_health := 100 |}.

(** Some SPACE key-down is in the event queue. *)
Definition attack_pressed (evs : list Event) : bool :=
  existsb (fun ev => match ev with
                     | KEYDOWN K_SPACE _ => true
                     | _ => false
                     end) evs.

(** The game at the last frame before a one-second limit expires. *)
Definition last_frame : Game := set_frame 29 (started 1 quiet_layout).

(** The game after Ctrl+D and O were pressed on the first playing tick. *)
Definition door_forced : Game :=
  @update run_floats
    (tick quiet_layout [KEYDOWN K_d true; KEYDOWN K_o false])
    (started 120 quiet_layout).

(** Attack pressed while the nearest enemy is 61 pixels away; then the
    same game one tick later, the key still held; and the game after the
    key was released and pressed again with the enemy in reach. *)
Definition attack_held : Game :=
  @update run_floats (tick demo_layout [KEYDOWN K_SPACE false])
    (started 120 demo_layout).

Definition attack_held_next : Game :=
  @update run_floats (tick demo_layout []) attack_held.

Definition enemy_felled : Game :=
  @update run_floats
    (tick demo_layout [KEYUP K_SPACE; KEYDOWN K_SPACE false]) attack_held.

(** The first enemy of the pool. *)
Definition first_enemy (g : Game) : Enemy :=
  match enemies g with
  | e :: _ => e
  | [] => cornered_enemy
  end.

(** ** Footprints

    The attributes of [Game] that the tick functions assign to. *)
Inductive Field :=
  | F_state | F_running | F_debug_mode | F_last_room_transition | F_frame
  | F_resources_collected | F_enemies_killed | F_door_open
  | F_door_unlock_effect | F_current_room | F_lagged_player_action
  | F_p_pos | F_p_health | F_p_action | F_p_resources_collected
  | F_p_enemies_killed
  | F_n_pos | F_n_emotion | F_n_emotion_lagged | F_n_reaction
  | F_n_attack_cooldown
  | F_enemies | F_resources.

Definition field_index (f : Field) : nat :=
  match f with
  | F_state => 0 | F_running => 1 | F_debug_mode => 2
  | F_last_room_transition => 3 | F_frame => 4 | F_resources_collected => 5
  | F_enemies_killed => 6 | F_door_open => 7 | F_door_unlock_effect => 8
  | F_current_room => 9 | F_lagged_player_action => 10 | F_p_pos => 11
  | F_p_health => 12 | F_p_action => 13 | F_p_resources_collected => 14
  | F_p_enemies_killed => 15 | F_n_pos => 16 | F_n_emotion => 17
  | F_n_emotion_lagged => 18 | F_n_reaction => 19
  | F_n_attack_cooldown => 20 | F_enemies => 21 | F_resources => 22
  end.

Definition written (fs : list Field) (f : Field) : bool :=
  existsb (fun f' => Nat.eqb (field_index f') (field_index f)) fs.

(** The two games hold the same value in the field. *)
Definition field_eq (f : Field) (g g' : Game) : Prop :=
  match f with
  | F_state => state g' = state g
  | F_running => running g' = running g
  | F_debug_mode => debug_mode g' = debug_mode g
  | F_last_room_transition => last_room_transition g' = last_room_transition g
  | F_frame => frame g' = frame g
  | F_resources_collected => resources_collected g' = resources_collected g
  | F_enemies_killed => enemies_killed g' = enemies_killed g
  | F_door_open => door_open g' = door_open g
  | F_door_unlock_effect => door_unlock_effect g' = door_unlock_effect g
  | F_current_room => current_room g' = current_room g
  | F_lagged_player_action =>
      lagged_player_action g' = lagged_player_action g
  | F_p_pos => p_x (player g') = p_x (player g)
               /\ p_y (player g') = p_y (player g)
  | F_p_health => p_health (player g') = p_health (player g)
  | F_p_action => p_action (player g') = p_action (player g)
  | F_p_resources_collected =>
      p_resources_collected (player g') = p_resources_collected (player g)
  | F_p_enemies_killed =>
      p_enemies_killed (player g') = p_enemies_killed (player g)
  | F_n_pos => n_x (npc g') = n_x (npc g) /\ n_y (npc g') = n_y (npc g)
  | F_n_emotion => n_emotion (npc g') = n_emotion (npc g)
  | F_n_emotion_lagged => n_emotion_lagged (npc g') = n_emotion_lagged (npc g)
  | F_n_reaction => n_reaction (npc g') = n_reaction (npc g)
  | F_n_attack_cooldown =>
      n_attack_cooldown (npc g') = n_attack_cooldown (npc g)
  | F_enemies => enemies g' = enemies g
  | F_resources => resources g' = resources g
  end.

(** The attributes no tick function assigns to. *)
Definition fixed_eq (g g' : Game) : Prop :=
  game_time_limit g' = game_time_limit g
  /\ participant_id g' = participant_id g
  /\ condition g' = condition g
  /\ obstacles g' = obstacles g
  /\ p_speed (player g') = p_speed (player g)
  /\ n_speed (npc g') = n_speed (npc g).

(** [g'] differs from [g] at most in the fields [fs]. *)
Definition footprint (fs : list Field) (g g' : Game) : Prop :=
  fixed_eq g g' /\ forall f, written fs f = false -> field_eq f g g'.

(** The footprint of each step of a playing tick. *)
Definition events_fields : list Field :=
  [F_p_action; F_enemies; F_enemies_killed; F_p_enemies_killed; F_debug_mode;
   F_door_open; F_current_room; F_p_pos; F_door_unlock_effect; F_n_pos;
   F_last_room_transition].
Definition emotion_fields : list Field :=
  [F_n_emotion; F_n_emotion_lagged; F_n_reaction].
Definition companion_fields : list Field :=
  [F_n_pos; F_n_attack_cooldown; F_enemies; F_enemies_killed;
   F_p_enemies_killed; F_p_health].
Definition enemy_fields : list Field := [F_enemies; F_p_health].
Definition pickup_fields : list Field :=
  [F_resources; F_resources_collected; F_p_resources_collected; F_p_health;
   F_door_open; F_door_unlock_effect].
Definition exit_fields : list Field := [F_state].

(** ** Invariants of the reachable states *)

(** The reaction is the one [update_npc_reaction] derives from the
    emotion. *)
Definition reaction_matches (g : Game) : Prop :=
  n_reaction (npc (update_npc_reaction g)) = n_reaction (npc g).

(** The loop of [run] can only have stopped on the completed screen. *)
Definition stopped_only_completed (g : Game) : Prop :=
  running g = true \/ state g = COMPLETED.


(** An enemy has at most 100 health and is alive exactly while its health
    is positive. *)
Definition enemy_sane (e : Enemy) : Prop :=
  (e_health e <= 100)%Z /\ e_alive e = (0 <? e_health e)%Z.

(** The number of collected resources. *)
Definition collected_count (rs : list Resource) : Z :=
  Z.of_nat (length (List.filter r_collected rs)).

(** Both resource counters equal the number of collected resources. *)
Definition resources_counted (g : Game) : Prop :=
  resources_collected g = collected_count (resources g)
  /\ p_resources_collected (player g) = collected_count (resources g).

(** The order of the three screens. *)
Definition state_rank (s : GameState) : nat :=
  match s with START_SCREEN => 0 | PLAYING => 1 | COMPLETED => 2 end.

(** A resource, once collected, is left as it is. *)
Definition collected_fixed (r r' : Resource) : Prop :=
  (r_collected r = true -> r' = r)
  /\ r_x r' = r_x r /\ r_y r' = r_y r /\ r_room r' = r_room r.

(** Every field the simulation steps before the exit check may write:
    all but [state] and [running]. *)
Definition simulation_fields : list Field :=
  [F_debug_mode; F_last_room_transition; F_frame; F_resources_collected;
   F_enemies_killed; F_door_open; F_door_unlock_effect; F_current_room;
   F_lagged_player_action; F_p_pos; F_p_health; F_p_action;
   F_p_resources_collected; F_p_enemies_killed; F_n_pos; F_n_emotion;
   F_n_emotion_lagged; F_n_reaction; F_n_attack_cooldown; F_enemies;
   F_resources].

(** The playing tick up to and including [check_resource_collection]. *)
Definition simulate `{F : FloatOps} (inp : Input) (g : Game) : Game :=
  let g := set_frame (frame g + 1) g in
  let g := set_lagged_player_action (p_action (player g)) g in
  let g := handle_playing_events inp g in
  let g := update_npc_emotion (in_decide inp) g in
  let g := update_npc_position g in
  let g := update_enemies (in_enemy_draw inp) g in
  check_resource_collection g.

(** The player's health is positive and at most 100. *)
Definition health_positive (g : Game) : Prop :=
  0 < p_health (player g) /\ p_health (player g) <= 100.

(** Solves [footprint fs g g'] once [g'] is a term built from setters. *)
Ltac footprint_setters :=
  solve [split; [repeat split; reflexivity |
                 let f := fresh "f" in let Hf := fresh "Hf" in
                 intros f Hf; destruct f; cbv in Hf; try discriminate Hf;
                 simpl; auto]].

Ltac footprint_sub :=
  let f := fresh "f" in let H := fresh "H" in
  intros f; destruct f; cbv; intros H; (reflexivity || discriminate H).


(** How a stage may change the resources and the two resource counters:
    every pickup counted is a new collection, and no collected resource is
    touched. *)
Definition resource_step (g g' : Game) : Prop :=
  Forall2 collected_fixed (resources g) (resources g')
  /\ (resources_collected g' - collected_count (resources g')
      = resources_collected g - collected_count (resources g))%Z
  /\ (p_resources_collected (player g') - collected_count (resources g')
      = p_resources_collected (player g) - collected_count (resources g))%Z.

(** The pools have their fixed sizes and the counters count them. *)
Definition pools_ok (g : Game) : Prop :=
  length (enemies g) = 15%nat /\ length (resources g) = 4%nat
  /\ kills_counted g /\ resources_counted g.

(** What a stage may do to one enemy: never change its room or its speed,
    never raise its health, and keep it sane. *)
Definition enemy_step (e e' : Enemy) : Prop :=
  e_room e' = e_room e /\ e_speed e' = e_speed e
  /\ (e_health e' <= e_health e)%Z
  /\ (enemy_sane e -> enemy_sane e').

Definition enemies_step (g g' : Game) : Prop :=
  Forall2 enemy_step (enemies g) (enemies g').

Definition enemies_sane (g : Game) : Prop := Forall enemy_sane (enemies g).

(** ** [random_emotion.py] *)

Module RandomEmotion.

Definition emotion_change_interval : Z := 35.

(** The draws of one change: [random.choice(list(NPCEmotion))], then
    [random.randint(-15, 15)]. *)
Record Draw := { d_choice : NPCEmotion; d_offset : Z }.

Definition offset_in_range (d : Draw) : Prop :=
  (-15 <= d_offset d <= 15)%Z.

(** [initialize] sets [emotion_change_cooldown]. *)
Definition initialize : Z := 0.

(** [RandomEmotionSystem.determine_emotion].  The object's state is
    [emotion_change_cooldown]; the result is the state after the call and
    the emotion returned. *)
Definition determine_emotion (emotion_change_cooldown : Z) (d : Draw)
    (player_health enemy_proximity resource_proximity : Q)
    (lagged_player_action : PlayerAction) (level : RoomId)
    (player_x player_y npc_x npc_y : Q)
    (resources_collected enemies_killed : Z)
    (npc_emotion_lagged : NPCEmotion) (current_player_action : PlayerAction)
    : Z * NPCEmotion :=
  let emotion_change_cooldown := (emotion_change_cooldown - 1)%Z in
  if (emotion_change_cooldown <=? 0)%Z then
    let new_emotion := d_choice d in
    ((emotion_change_interval + d_offset d)%Z, new_emotion)
  else (emotion_change_cooldown, npc_emotion_lagged).

(** The call as the engine sees it in one tick. *)
Definition decide (emotion_change_cooldown : Z) (d : Draw) : EmotionFn :=
  fun player_health enemy_proximity resource_proximity lagged_player_action
      level player_x player_y npc_x npc_y resources_collected enemies_killed
      npc_emotion_lagged current_player_action =>
  snd (determine_emotion emotion_change_cooldown d
         player_health enemy_proximity resource_proximity
         lagged_player_action level player_x player_y npc_x npc_y
         resources_collected enemies_killed npc_emotion_lagged
         current_player_action).

(** One call's arguments. *)
Record Snapshot := {
  s_player_health : Q;
  s_enemy_proximity : Q;
  s_resource_proximity : Q;
  s_lagged_player_action : PlayerAction;
  s_level : RoomId;
  s_player_x : Q;
  s_player_y : Q;
  s_npc_x : Q;
  s_npc_y : Q;
  s_resources_collected : Z;
  s_enemies_killed : Z;
  s_npc_emotion_lagged : NPCEmotion;
  s_current_player_action : PlayerAction
}.

Definition call (emotion_change_cooldown : Z) (d : Draw) (s : Snapshot)
    : Z * NPCEmotion :=
  determine_emotion emotion_change_cooldown d
    (s_player_health s) (s_enemy_proximity s) (s_resource_proximity s)
    (s_lagged_player_action s) (s_level s)
    (s_player_x s) (s_player_y s) (s_npc_x s) (s_npc_y s)
    (s_resources_collected s) (s_enemies_killed s)
    (s_npc_emotion_lagged s) (s_current_player_action s).

(** A sequence of calls on the same object: the state after the last one
    and the emotions returned. *)
Fixpoint calls (emotion_change_cooldown : Z) (ins : list (Draw * Snapshot))
    : Z * list NPCEmotion :=
  match ins with
  | [] => (emotion_change_cooldown, [])
  | (d, s) :: ins' =>
      let '(c, e) := call emotion_change_cooldown d s in
      let '(c', es) := calls c ins' in
      (c', e :: es)
  end.

End RandomEmotion.

(** ** [ml_emotion.py] *)

Module MLEmotion.

(** [self.model.predict(features)[0]] as a function of the feature row;
    [None] stands for an exception raised by the call. *)
Definition Model : Type := list Q -> option Z.

(** [self.index_to_emotion]; [None] is the [KeyError]. *)
Definition index_to_emotion (prediction : Z) : option NPCEmotion :=
  match prediction with
  | 0%Z => Some ANTICIPATION
  | 1%Z => Some HAPPINESS
  | 2%Z => Some FEAR
  | 3%Z => Some ANGER
  | 4%Z => Some SURPRISE
  | 5%Z => Some SADNESS
  | _ => None
  end.

(** The value of a dummy in [feature_dict]: 0, or 1 for the key that was
    set. *)
Definition dummy {A : Type} `{EqDecision A} (key value : A) : Q :=
  if bool_decide (value = key) then 1 else 0.

Definition level_number (level : RoomId) : Q :=
  match level with Room1 => 1 | Room2 => 2 end.

(** The row handed to [predict], in the order of the [np.array]. *)
Definition features
    (player_health enemy_proximity resource_proximity : Q)
    (lagged_player_action : PlayerAction) (level : RoomId)
    (player_x player_y npc_x npc_y : Q)
    (resources_collected enemies_killed : Z)
    (npc_emotion_lagged : NPCEmotion) (current_player_action : PlayerAction)
    : list Q :=
  [player_x; player_y; npc_x; npc_y; player_health; enemy_proximity;
   resource_proximity; inject_Z resources_collected;
   inject_Z enemies_killed; level_number level;
   dummy IDLE current_player_action;
   dummy MOVE current_player_action;
   dummy ATTACK current_player_action;
   dummy IDLE lagged_player_action;
   dummy MOVE lagged_player_action;
   dummy ATTACK lagged_player_action;
   dummy ANTICIPATION npc_emotion_lagged;
   dummy HAPPINESS npc_emotion_lagged;
   dummy FEAR npc_emotion_lagged;
   dummy ANGER npc_emotion_lagged;
   dummy SURPRISE npc_emotion_lagged;
   dummy SADNESS npc_emotion_lagged].

Section MLEmotion.
Context {F : FloatOps}.

(** [MLEmotionSystem.determine_emotion]; [model] is [None] when
    [not self.model_loaded or self.model is None]. *)
Definition determine_emotion (model : option Model) : EmotionFn :=
  fun player_health enemy_proximity resource_proximity lagged_player_action
      level player_x player_y npc_x npc_y resources_collected enemies_killed
      npc_emotion_lagged current_player_action =>
  match model with
  | None =>
      let emotion := ANTICIPATION in
      let emotion :=
        if Qltb resource_proximity 150 then HAPPINESS else emotion in
      let emotion := if Qltb enemy_proximity 125 then FEAR else emotion in
      let emotion := if Qltb enemy_proximity 60 then ANGER else emotion in
      let emotion :=
        if bool_decide (current_player_action = ATTACK)
           && Qltb (fsqrt ((player_x - npc_x) ^ 2 + (player_y - npc_y) ^ 2))
                   60
        then SURPRISE else emotion in
      let emotion := if Qle_bool player_health 30 then SADNESS else emotion in
      emotion
  | Some predict =>
      match predict (features player_health enemy_proximity
                       resource_proximity lagged_player_action level
                       player_x player_y npc_x npc_y resources_collected
                       enemies_killed npc_emotion_lagged
                       current_player_action) with
      | Some prediction =>
          match index_to_emotion prediction with
          | Some emotion => emotion
          | None => npc_emotion_lagged
          end
      | None => npc_emotion_lagged
      end
  end.

End MLEmotion.
End MLEmotion.

(** The sum of a slice of the feature row. *)
Definition slice_sum (first len : nat) (row : list Q) : Q :=
  fold_right Qplus 0 (firstn len (skipn first row)).

(** ** Placement: [generate_obstacles] and [get_valid_position]

    The candidates that the [random.randint] calls of the attempt loops
    produce are functions of the attempt number. *)

Module Placement.
Section Placement.
Context {F : FloatOps}.

Definition MIN_OBSTACLES : Z := 3.
Definition MAX_OBSTACLES : Z := 8.

(** [math.sqrt((x - obs_x)**2 + (y - obs_y)**2)] on integer points. *)
Definition point_distance (p obs : Z * Z) : Q :=
  fsqrt (inject_Z ((fst p - fst obs) ^ 2 + (snd p - snd obs) ^ 2)).

(** [safe_zones]: rectangles [(x, y, w, h)]. *)
Definition safe_zones (room_id : RoomId) : list (Z * Z * Z * Z) :=
  let room := rooms room_id in
  match room_id with
  | Room1 =>
      [(b_x room + 100, b_y room + 100, 150, 150);
       (b_x room + ROOM_WIDTH - 150, b_y room + ROOM_HEIGHT / 2 - 100,
        150, 200)]
  | Room2 =>
      [(b_x room, b_y room + ROOM_HEIGHT / 2 - 100, 150, 200);
       (b_x room + ROOM_WIDTH - 150, b_y room + ROOM_HEIGHT / 2 - 100,
        150, 200)]
  end%Z.

Definition in_zone (p : Z * Z) (zone : Z * Z * Z * Z) : bool :=
  let '(safe_x, safe_y, safe_w, safe_h) := zone in
  ((safe_x <=? fst p) && (fst p <=? safe_x + safe_w)
   && (safe_y <=? snd p) && (snd p <=? safe_y + safe_h))%Z.

Definition in_safe_zone (room_id : RoomId) (p : Z * Z) : bool :=
  existsb (in_zone p) (safe_zones room_id).

(** "Check if it overlaps with existing obstacles" *)
Definition overlapping (obstacles : list (Z * Z)) (p : Z * Z) : bool :=
  existsb (fun obs =>
             Qltb (point_distance p obs) (inject_Z OBSTACLE_SIZE * 1.5))
          obstacles.

Definition acceptable (room_id : RoomId) (obstacles : list (Z * Z))
    (p : Z * Z) : bool :=
  negb (in_safe_zone room_id p) && negb (overlapping obstacles p).

(** [for attempt in range(max_attempts)]: the first acceptable candidate
    from [attempt] on, among [remaining] attempts. *)
Fixpoint first_accepted (accept : Z * Z -> bool) (candidate : nat -> Z * Z)
    (attempt remaining : nat) : option (Z * Z) :=
  match remaining with
  | O => None
  | S remaining' =>
      if accept (candidate attempt) then Some (candidate attempt)
      else first_accepted accept candidate (S attempt) remaining'
  end.

(** One iteration of [for _ in range(num_obstacles)]. *)
Definition place_obstacle (room_id : RoomId) (obstacles : list (Z * Z))
    (candidate : nat -> Z * Z) : list (Z * Z) :=
  match first_accepted (acceptable room_id obstacles) candidate 0 50 with
  | Some p => obstacles ++ [p]
  | None => obstacles
  end.

(** The obstacles of one room; [candidate i] are the candidates for the
    i-th obstacle. *)
Definition generate_room (room_id : RoomId) (num_obstacles : nat)
    (candidate : nat -> nat -> Z * Z) : list (Z * Z) :=
  fold_left (fun obstacles i => place_obstacle room_id obstacles (candidate i))
            (seq 0 num_obstacles) [].

Definition generate_obstacles (num_obstacles : RoomId -> nat)
    (candidate : RoomId -> nat -> nat -> Z * Z) : RoomId -> list (Z * Z) :=
  fun room_id =>
    generate_room room_id (num_obstacles room_id) (candidate room_id).

(** "Check if position is too close to any obstacle" *)
Definition too_close (obstacles : list (Z * Z)) (p : Z * Z) : bool :=
  existsb (fun obs =>
             Qltb (point_distance p obs) (inject_Z (OBSTACLE_SIZE + 30)))
          obstacles.

Definition default_position (room_id : RoomId) : Z * Z :=
  (b_x (rooms room_id) + 150, b_y (rooms room_id) + 150)%Z.

Definition get_valid_position (obstacles : RoomId -> list (Z * Z))
    (room_id : RoomId) (candidate : nat -> Z * Z) : Z * Z :=
  match first_accepted (fun p => negb (too_close (obstacles room_id) p))
                       candidate 0 100 with
  | Some p => p
  | None => default_position room_id
  end.

End Placement.
End Placement.

(** What [generate_room] keeps true of the obstacle list. *)
Inductive well_placed `{F : FloatOps} (room_id : RoomId)
    : list (Z * Z) -> Prop :=
  | well_placed_nil : well_placed room_id []
  | well_placed_snoc (obstacles : list (Z * Z)) (p : Z * Z) :
      well_placed room_id obstacles ->
      Placement.in_safe_zone room_id p = false ->
      Placement.overlapping obstacles p = false ->
      well_placed room_id (obstacles ++ [p]).

(** ** More concrete inputs *)

(** The game one tick after the nearest enemy came within its attack
    radius, with the player's health down to one half. *)
Definition dying : Game :=
  set_player (set_p_health (1 # 2) (player attack_held)) attack_held.

(** The player two pixels into the doorway of the open door. *)
Definition at_open_door : Game :=
  set_player (set_p_pos 612 375 (player door_forced)) door_forced.


Definition fear_draw : RandomEmotion.Draw :=
  {| RandomEmotion.d_choice := FEAR; RandomEmotion.d_offset := -15 |}.

Definition calm_snapshot : RandomEmotion.Snapshot :=
  {| RandomEmotion.s_player_health := 100;
     RandomEmotion.s_enemy_proximity := 1000;
     RandomEmotion.s_resource_proximity := 1000;
     RandomEmotion.s_lagged_player_action := IDLE;
     RandomEmotion.s_level := Room1;
     RandomEmotion.s_player_x := 175;
     RandomEmotion.s_player_y := 225;
     RandomEmotion.s_npc_x := 125;
     RandomEmotion.s_npc_y := 175;
     RandomEmotion.s_resources_collected := 0;
     RandomEmotion.s_enemies_killed := 0;
     RandomEmotion.s_npc_emotion_lagged := HAPPINESS;
     RandomEmotion.s_current_player_action := IDLE |}.

(** Candidates along the lower wall of a room, 100 pixels apart. *)
Definition wall_candidates (room_id : RoomId) (i attempt : nat) : Z * Z :=
  (b_x (rooms room_id) + 75 + 100 * Z.of_nat i, 600)%Z.

(** An entity the stage does not simulate (deactivated, or of the other
    room) is left exactly as it is. *)
Definition uncounted_enemy_fixed (g : Game) (e e' : Enemy) : Prop :=
  enemy_counts g e = false -> e' = e.

Definition uncounted_resource_fixed (g : Game) (r r' : Resource) : Prop :=
  resource_counts g r = false -> r' = r.


(** * Properties *)

(** ** Comparisons *)

Lemma Qltb_lt (a b : Q) : Qltb a b = true <-> a < b.
Proof.
  unfold Qltb. rewrite negb_true_iff, <- not_true_iff_false, Qle_bool_iff.
  split; [apply Qnot_le_lt | apply Qlt_not_le].
Qed.

Lemma Qltb_ge (a b : Q) : Qltb a b = false <-> b <= a.
Proof.
  unfold Qltb. rewrite negb_false_iff. apply Qle_bool_iff.
Qed.



Lemma pymin_cases (a b : Q) :
  (pymin a b = a /\ a <= b) \/ (pymin a b = b /\ b < a).
Proof.
  unfold pymin. destruct (Qltb b a) eqn:E.
  - right. split; [reflexivity | now apply Qltb_lt].
  - left. split; [reflexivity | now apply Qltb_ge].
Qed.

Lemma pymax_cases (a b : Q) :
  (pymax a b = a /\ b <= a) \/ (pymax a b = b /\ a < b).
Proof.
  unfold pymax. destruct (Qltb a b) eqn:E.
  - right. split; [reflexivity | now apply Qltb_lt].
  - left. split; [reflexivity | now apply Qltb_ge].
Qed.

Lemma pymin_le_l (a b : Q) : pymin a b <= a.
Proof. destruct (pymin_cases a b) as [[-> ?]|[-> ?]]; lra. Qed.

Lemma pymin_le_r (a b : Q) : pymin a b <= b.
Proof. destruct (pymin_cases a b) as [[-> ?]|[-> ?]]; lra. Qed.

Lemma pymax_ge_l (a b : Q) : a <= pymax a b.
Proof. destruct (pymax_cases a b) as [[-> ?]|[-> ?]]; lra. Qed.


(** ** Nearest distances *)

Section Nearest.
Context {A : Type} (counts : A -> bool) (dist : A -> Q).

End Nearest.




(** ** Obstacles *)


Lemma is_valid_move_frame `{F : FloatOps} (g g' : Game) (x y : Q) (size : Z) :
obstacles g' = obstacles g -> current_room g' = current_room g ->
is_valid_move g' x y size = is_valid_move g x y size.
Proof. unfold is_valid_move. intros -> ->. reflexivity. Qed.


(** ** Pursuit *)


(** ** Generic facts about the loops *)

Lemma fold_left_preserves {A B : Type} (P : A -> Prop) (f : A -> B -> A)
  (l : list B) (a : A) :
(forall a b, P a -> P (f a b)) -> P a -> P (fold_left f l a).
Proof.
intros Hstep. revert a. induction l as [|b l IH]; simpl; auto.
Qed.

(** ** Player health *)

Lemma count_kill_health (g : Game) :
p_health (player (count_kill g)) = p_health (player g).
Proof. reflexivity. Qed.

Lemma check_attack_from_health `{F : FloatOps} (es : list Enemy) (g : Game) :
p_health (player (snd (check_attack_from es g))) = p_health (player g).
Proof.
revert g. induction es as [|e es IH]; intros g; simpl; [reflexivity|].
destruct (in_attack_range g e).
- destruct (e_health (player_hit e) <=? 0)%Z;
    match goal with
    | |- context [check_attack_from es ?g'] =>
        specialize (IH g'); destruct (check_attack_from es g')
    end; simpl in *; rewrite IH; reflexivity.
- specialize (IH g). destruct (check_attack_from es g). exact IH.
Qed.

Lemma check_attack_health `{F : FloatOps} (g : Game) :
p_health (player (check_attack g)) = p_health (player g).
Proof.
unfold check_attack. destruct (bool_decide _); [|reflexivity].
pose proof (check_attack_from_health (enemies g) g) as H.
destruct (check_attack_from (enemies g) g). exact H.
Qed.

Lemma playing_event_health `{F : FloatOps} (g : Game) (ev : Event) :
p_health (player (playing_event g ev)) = p_health (player g).
Proof.
destruct ev as [|k c|k]; [reflexivity| |].
- destruct k; simpl; try reflexivity.
  + rewrite check_attack_health. reflexivity.
  + destruct c; reflexivity.
  + destruct (debug_mode g); reflexivity.
  + destruct (debug_mode g); reflexivity.
  + destruct (debug_mode g); reflexivity.
- destruct k; simpl; try reflexivity.
  destruct (bool_decide _); reflexivity.
Qed.

Lemma check_door_interaction_health `{F : FloatOps} (now : Z) (g : Game) :
p_health (player (check_door_interaction now g)) = p_health (player g).
Proof.
unfold check_door_interaction.
repeat match goal with
       | |- context [if ?b then _ else _] => destruct b
       | |- context [match current_room ?g with _ => _ end] =>
           destruct (current_room g)
       end; reflexivity.
Qed.

Lemma handle_playing_events_health `{F : FloatOps} (inp : Input) (g : Game) :
p_health (player (handle_playing_events inp g)) = p_health (player g).
Proof.
unfold handle_playing_events.
set (g1 := fold_left playing_event (in_events inp) g).
assert (H1 : p_health (player g1) = p_health (player g)).
{ subst g1. apply (fold_left_preserves
    (fun g' => p_health (player g') = p_health (player g))); [|reflexivity].
  intros a b Ha. rewrite playing_event_health. exact Ha. }
rewrite <- H1. clearbody g1. clear H1.
destruct (player_step (in_keys inp) (player g1)) as [p moved] eqn:Hstep.
assert (Hp : p_health p = p_health (player g1)).
{ unfold player_step in Hstep. injection Hstep as <- _. reflexivity. }
assert (Hpa : p_health (player_action_update moved p) = p_health (player g1)).
{ unfold player_action_update.
  repeat match goal with
         | |- context [if ?b then _ else _] => destruct b
         end; exact Hp. }
unfold player_door_or_bounds, player_check_move.
repeat match goal with
       | |- context [if ?b then _ else _] => destruct b
       end;
  rewrite ?check_door_interaction_health; simpl; exact Hpa || reflexivity.
Qed.

Lemma update_npc_emotion_health `{F : FloatOps} (decide : EmotionFn)
  (g : Game) :
p_health (player (update_npc_emotion decide g)) = p_health (player g).
Proof. reflexivity. Qed.

Lemma heal_bounds (h k : Q) :
0 <= h -> 0 <= k -> 0 <= pymin (h + k) 100 /\ pymin (h + k) 100 <= 100.
Proof.
intros Hh Hk. destruct (pymin_cases (h + k) 100) as [[-> ?]|[-> ?]]; lra.
Qed.

Lemma npc_act_health `{F : FloatOps} (g : Game) :
health_ok g -> health_ok (fst (npc_act g)).
Proof.
intros [H0 H100]. unfold npc_act, npc_attack.
repeat match goal with
       | |- context [match ?x with _ => _ end] => destruct x
       end; simpl; try (split; assumption).
unfold health_ok. simpl. apply heal_bounds; lra.
Qed.

Lemma update_npc_position_health `{F : FloatOps} (g : Game) :
health_ok g -> health_ok (update_npc_position g).
Proof.
intros H. unfold update_npc_position.
assert (H0 : health_ok (npc_cooldown g)).
{ unfold npc_cooldown. destruct (_ <? _)%Z; exact H. }
apply npc_act_health in H0.
destruct (npc_act (npc_cooldown g)) as [g1 moved]. simpl in H0.
unfold npc_round, npc_keep_in_room, npc_check_move.
repeat match goal with
       | |- context [if ?b then _ else _] => destruct b
       end; exact H0.
Qed.

Lemma enemy_damage_bounds (player_distance h : Q) :
0 <= h -> h <= 100 ->
0 <= enemy_damage player_distance h /\ enemy_damage player_distance h <= 100.
Proof.
intros H0 H100. unfold enemy_damage.
destruct (Qltb _ _); [|split; assumption].
assert (Hd : inject_Z ENEMY_DAMAGE / inject_Z FPS == 2#3) by reflexivity.
destruct (pymax_cases 0 (h - inject_Z ENEMY_DAMAGE / inject_Z FPS))
  as [[-> ?]|[-> ?]]; rewrite ?Hd in *; lra.
Qed.

Lemma update_enemies_from_health `{F : FloatOps} (g : Game)
  (draw : nat -> EnemyDraw) (i : nat) (es : list Enemy) (h : Q) :
0 <= h -> h <= 100 ->
0 <= snd (update_enemies_from g draw i es h)
/\ snd (update_enemies_from g draw i es h) <= 100.
Proof.
revert i h. induction es as [|e es IH]; intros i h H0 H100; simpl.
- split; assumption.
- destruct (update_enemy g (draw i) e h) as [e' h'] eqn:He.
  assert (Hh' : 0 <= h' /\ h' <= 100).
  { unfold update_enemy in He. destruct (enemy_counts g e).
    - injection He as _ <-. apply enemy_damage_bounds; assumption.
    - injection He as _ <-. split; assumption. }
  specialize (IH (S i) h' (proj1 Hh') (proj2 Hh')).
  destruct (update_enemies_from g draw (S i) es h'). exact IH.
Qed.

Lemma update_enemies_health `{F : FloatOps} (draw : nat -> EnemyDraw)
  (g : Game) :
health_ok g -> health_ok (update_enemies draw g).
Proof.
intros [H0 H100]. unfold update_enemies.
pose proof (update_enemies_from_health g draw 0 (enemies g) _ H0 H100) as H.
destruct (update_enemies_from g draw 0 (enemies g) (p_health (player g))).
exact H.
Qed.

Lemma collect_health (g : Game) : health_ok g -> health_ok (collect g).
Proof.
intros [H0 H100]. unfold collect.
assert (Hr : inject_Z RESOURCE_HEAL == 10) by reflexivity.
match goal with
| |- context [if ?b then _ else _] => destruct b
end; unfold health_ok; simpl;
  destruct (pymin_cases (p_health (player g) + inject_Z RESOURCE_HEAL) 100)
    as [[-> ?]|[-> ?]]; rewrite ?Hr in *; lra.
Qed.

Lemma check_resources_from_health `{F : FloatOps} (rs : list Resource)
  (g : Game) :
health_ok g -> health_ok (snd (check_resources_from rs g)).
Proof.
revert g. induction rs as [|r rs IH]; intros g H; simpl; [exact H|].
destruct (resource_in_reach g r).
- specialize (IH _ (collect_health g H)).
  destruct (check_resources_from rs (collect g)). exact IH.
- specialize (IH _ H). destruct (check_resources_from rs g). exact IH.
Qed.

Lemma check_resource_collection_health `{F : FloatOps} (g : Game) :
health_ok g -> health_ok (check_resource_collection g).
Proof.
intros H. unfold check_resource_collection.
pose proof (check_resources_from_health (resources g) g H) as H'.
destruct (check_resources_from (resources g) g). exact H'.
Qed.

Lemma check_exit_interaction_health `{F : FloatOps} (g : Game) :
p_health (player (check_exit_interaction g)) = p_health (player g).
Proof.
unfold check_exit_interaction.
destruct (at_exit g); [destruct (completion_gate g)|]; reflexivity.
Qed.

Lemma playing_tick_health `{F : FloatOps} (inp : Input) (g : Game) :
health_ok g -> health_ok (playing_tick inp g).
Proof.
intros H. unfold playing_tick. cbv zeta.
set (g0 := set_lagged_player_action _ (set_frame _ g)).
assert (H0 : health_ok g0) by exact H.
clearbody g0.
pose proof (handle_playing_events_health inp g0) as E1.
set (g1 := handle_playing_events inp g0) in *.
assert (H1 : health_ok g1) by (unfold health_ok; rewrite E1; exact H0).
clearbody g1.
pose proof (update_npc_emotion_health (in_decide inp) g1) as E2.
set (g2 := update_npc_emotion (in_decide inp) g1) in *.
assert (H2 : health_ok g2) by (unfold health_ok; rewrite E2; exact H1).
clearbody g2.
pose proof (update_npc_position_health g2 H2) as H3.
set (g3 := update_npc_position g2) in *. clearbody g3.
pose proof (update_enemies_health (in_enemy_draw inp) g3 H3) as H4.
set (g4 := update_enemies (in_enemy_draw inp) g3) in *. clearbody g4.
pose proof (check_resource_collection_health g4 H4) as H5.
set (g5 := check_resource_collection g4) in *. clearbody g5.
unfold health_ok. rewrite (check_exit_interaction_health g5). exact H5.
Qed.

Lemma reset_health `{F : FloatOps} (l : Layout) (g : Game) :
health_ok (reset l g).
Proof. unfold health_ok. simpl. lra. Qed.

Lemma time_limit_check_health (g : Game) :
health_ok g -> health_ok (time_limit_check g).
Proof.
intros H. unfold time_limit_check. destruct (time_is_up g); exact H.
Qed.

Lemma game_over_check_health `{F : FloatOps} (l : Layout) (g : Game) :
health_ok g -> health_ok (game_over_check l g).
Proof.
intros H. unfold game_over_check.
destruct (player_died g); [apply reset_health | exact H].
Qed.

Lemma update_health `{F : FloatOps} (inp : Input) (g : Game) :
health_ok g -> health_ok (update inp g).
Proof.
intros H. unfold update. destruct (state g).
- apply (fold_left_preserves health_ok); [|exact H].
  intros a [|k c|k] Ha; simpl; try exact Ha.
  destruct k; try exact Ha. destruct c; exact Ha.
- apply time_limit_check_health, game_over_check_health,
    playing_tick_health, H.
- apply (fold_left_preserves health_ok); [|exact H].
  intros a [|k c|k] Ha; simpl; try exact Ha.
  destruct k; exact Ha.
Qed.

Lemma updates_preserves `{F : FloatOps} (P : Game -> Prop) :
(forall inp g, P g -> P (update inp g)) ->
forall inputs g, P g -> P (updates inputs g).
Proof.
intros Hstep inputs. induction inputs as [|inp inputs IH]; intros g Hg;
  simpl; [exact Hg|].
destruct (running g); [apply IH, Hstep, Hg | exact Hg].
Qed.

(** C2. At every tick of every run the player's health is within [0, 100]
  (the companion dictionary has no health entry; the player's is the only
  health the two characters have): enemy contact damage in
  [update_enemies] floors it at 0, and the healing of
  [check_resource_collection] and of the companion in
  [update_npc_position] caps it at 100. *)
Theorem player_health_bounded `{F : FloatOps} :
(forall (time_limit : Z) (pid cond : option string) (l : Layout)
        (inputs : list Input),
    health_ok (updates inputs (new_game time_limit pid cond l)))
/\ (forall g : Game, health_ok g ->
      (forall draw, health_ok (update_enemies draw g))
      /\ health_ok (check_resource_collection g)
      /\ health_ok (update_npc_position g)).
Proof.
split.
- intros. apply (updates_preserves health_ok).
  + intros inp g. apply update_health.
  + apply reset_health.
- intros g H. split; [|split].
  + intros draw. apply update_enemies_health, H.
  + apply check_resource_collection_health, H.
  + apply update_npc_position_health, H.
Qed.

(** ** The door *)

Lemma same_door_refl (g : Game) : same_door g g.
Proof. split; reflexivity. Qed.

Lemma same_door_trans (g1 g2 g3 : Game) :
same_door g1 g2 -> same_door g2 g3 -> same_door g1 g3.
Proof. intros [? ?] [? ?]. split; congruence. Qed.

(** [check_attack_from] only counts kills. *)
Lemma check_attack_from_iter `{F : FloatOps} (es : list Enemy) (g : Game) :
exists n, snd (check_attack_from es g) = Nat.iter n count_kill g.
Proof.
revert g. induction es as [|e es IH]; intros g; simpl.
- exists 0%nat. reflexivity.
- destruct (in_attack_range g e).
  + destruct (e_health (player_hit e) <=? 0)%Z.
    * destruct (IH (count_kill g)) as [n Hn].
      destruct (check_attack_from es (count_kill g)). simpl in *.
      exists (S n). rewrite Hn. symmetry. apply Nat.iter_succ_r.
    * destruct (IH g) as [n Hn]. destruct (check_attack_from es g).
      exists n. exact Hn.
  + destruct (IH g) as [n Hn]. destruct (check_attack_from es g).
    exists n. exact Hn.
Qed.

Lemma check_attack_frame `{F : FloatOps} (P : Game -> Prop) (g : Game) :
(forall g', P g' -> P (count_kill g')) ->
(forall es g', P g' -> P (set_enemies es g')) ->
P g -> P (check_attack g).
Proof.
intros Hkill Hset Hg. unfold check_attack.
destruct (bool_decide _); [|exact Hg].
destruct (check_attack_from_iter (enemies g) g) as [n Hn].
destruct (check_attack_from (enemies g) g) as [es g']. simpl in Hn.
apply Hset. rewrite Hn. clear Hn. induction n; simpl; auto.
Qed.

Lemma playing_event_door `{F : FloatOps} (g : Game) (ev : Event) :
resources_collected (playing_event g ev) = resources_collected g
/\ (door_open g = true -> door_open (playing_event g ev) = true)
/\ (debug_opens (debug_mode g) [ev] = false ->
    door_open (playing_event g ev) = door_open g)
/\ debug_mode (playing_event g ev)
   = match ev with
     | KEYDOWN K_d true => negb (debug_mode g)
     | _ => debug_mode g
     end.
Proof.
destruct ev as [|k c|k]; simpl.
- repeat split; auto.
- destruct k; simpl; try (repeat split; auto; fail).
  + set (g1 := set_player (set_p_action ATTACK (player g)) g).
    apply (check_attack_frame
             (fun g' => resources_collected g' = resources_collected g
                        /\ (door_open g = true -> door_open g' = true)
                        /\ (false = false -> door_open g' = door_open g)
                        /\ debug_mode g' = debug_mode g)).
    * intros g' H. exact H.
    * intros es g' H. exact H.
    * repeat split; auto.
  + destruct c; repeat split; auto.
  + destruct (debug_mode g) eqn:E; simpl; repeat split; auto;
      intros Hopen; discriminate Hopen.
  + destruct (debug_mode g) eqn:E; unfold debug_jump; simpl;
      repeat split; auto.
  + destruct (debug_mode g) eqn:E; unfold debug_jump; simpl;
      repeat split; auto.
- destruct k; simpl; try (repeat split; auto; fail).
  destruct (bool_decide _); repeat split; auto.
Qed.

Lemma debug_opens_cons (debug : bool) (ev : Event) (evs : list Event) :
debug_opens debug (ev :: evs)
= debug_opens debug [ev]
  || debug_opens (match ev with
                  | KEYDOWN K_d true => negb debug
                  | _ => debug
                  end) evs.
Proof.
destruct ev as [|k c|k]; simpl; try reflexivity.
destruct k; simpl; try reflexivity.
- destruct c; reflexivity.
- rewrite orb_false_r. reflexivity.
Qed.

Lemma playing_events_door `{F : FloatOps} (evs : list Event) (g : Game) :
let g' := fold_left playing_event evs g in
resources_collected g' = resources_collected g
/\ (door_open g = true -> door_open g' = true)
/\ (debug_opens (debug_mode g) evs = false -> door_open g' = door_open g).
Proof.
revert g. induction evs as [|ev evs IH]; intros g; simpl.
- repeat split; auto.
- destruct (playing_event_door g ev) as (Hr & Hmono & Hsame & Hdebug).
  destruct (IH (playing_event g ev)) as (Hr' & Hmono' & Hsame').
  split; [congruence|]. split; [auto|].
  intros Hno. change (debug_opens (debug_mode g) (ev :: evs) = false) in Hno.
  rewrite debug_opens_cons in Hno. apply orb_false_iff in Hno as [H1 H2].
  rewrite Hdebug in Hsame'. rewrite (Hsame' H2). apply Hsame, H1.
Qed.

Lemma check_door_interaction_same_door `{F : FloatOps} (now : Z) (g : Game) :
same_door g (check_door_interaction now g).
Proof.
unfold check_door_interaction, same_door.
destruct (is_player_at_door g); [|auto].
destruct (_ <? _)%Z; [|auto].
destruct (door_open g) eqn:Hd.
- destruct (door_unlock_effect g); simpl; destruct (current_room g);
    simpl; auto.
- destruct (Qltb _ _); simpl; auto.
Qed.

Lemma player_motion_same_door `{F : FloatOps} (inp : Input) (g : Game) :
let old_x := p_x (player g) in
let old_y := p_y (player g) in
same_door g
  (player_door_or_bounds (in_ticks inp)
     (player_check_move old_x old_y
        (set_player
           (player_action_update (snd (player_step (in_keys inp) (player g)))
                                 (fst (player_step (in_keys inp) (player g))))
           g))).
Proof.
intros old_x old_y.
unfold player_door_or_bounds, player_check_move.
match goal with
| |- same_door g (if ?c then check_door_interaction ?n ?g1 else _) =>
    destruct c;
      [apply (same_door_trans g g1);
         [|apply check_door_interaction_same_door] |]
end; case_ifs; split; reflexivity.
Qed.

Lemma handle_playing_events_unfold `{F : FloatOps} (inp : Input) (g : Game) :
handle_playing_events inp g
= let g1 := fold_left playing_event (in_events inp) g in
  player_door_or_bounds (in_ticks inp)
    (player_check_move (p_x (player g1)) (p_y (player g1))
       (set_player
          (player_action_update
             (snd (player_step (in_keys inp) (player g1)))
             (fst (player_step (in_keys inp) (player g1))))
          g1)).
Proof.
unfold handle_playing_events. cbv zeta.
destruct (player_step (in_keys inp)
            (player (fold_left playing_event (in_events inp) g))).
reflexivity.
Qed.

Lemma npc_act_same_door `{F : FloatOps} (g : Game) :
same_door g (fst (npc_act g)).
Proof.
unfold npc_act, npc_attack. case_ifs; split; reflexivity.
Qed.

Lemma update_npc_position_same_door `{F : FloatOps} (g : Game) :
same_door g (update_npc_position g).
Proof.
unfold update_npc_position.
assert (H0 : same_door g (npc_cooldown g)).
{ unfold npc_cooldown. case_ifs; split; reflexivity. }
pose proof (npc_act_same_door (npc_cooldown g)) as H1.
destruct (npc_act (npc_cooldown g)) as [g1 moved]. simpl in H1.
apply (same_door_trans _ _ _ H0), (same_door_trans _ _ _ H1).
unfold npc_round, npc_keep_in_room, npc_check_move.
case_ifs; split; reflexivity.
Qed.

Lemma update_enemies_same_door `{F : FloatOps} (draw : nat -> EnemyDraw)
  (g : Game) :
same_door g (update_enemies draw g).
Proof.
unfold update_enemies. destruct (update_enemies_from _ _ _ _ _).
split; reflexivity.
Qed.

(** Picking one resource up. *)
Lemma collect_door (g : Game) :
resources_collected (collect g) = (resources_collected g + 1)%Z
/\ door_open (collect g)
   = door_open g || (2 <=? resources_collected g + 1)%Z.
Proof.
unfold collect. cbn -[Z.leb Z.add pymin Qplus inject_Z].
destruct (2 <=? resources_collected g + 1)%Z, (door_open g) eqn:Hd;
  cbn -[Z.leb Z.add pymin Qplus inject_Z]; rewrite ?Hd; split; reflexivity.
Qed.

Lemma check_resources_from_door `{F : FloatOps} (rs : list Resource)
  (g : Game) :
let g' := snd (check_resources_from rs g) in
(resources_collected g <= resources_collected g')%Z
/\ door_open g'
   = door_open g
     || ((resources_collected g <? resources_collected g')
         && (2 <=? resources_collected g'))%Z.
Proof.
revert g. induction rs as [|r rs IH]; intros g; simpl.
- split; [lia|]. rewrite Z.ltb_irrefl, orb_false_r. reflexivity.
- destruct (resource_in_reach g r).
  + specialize (IH (collect g)). destruct (collect_door g) as [Hr Hd].
    destruct (check_resources_from rs (collect g)) as [rs' g'].
    simpl in *. destruct IH as [Hle Hopen]. split; [lia|].
    rewrite Hopen, Hd, Hr.
    destruct (door_open g); simpl; [reflexivity|].
    destruct (2 <=? resources_collected g + 1)%Z eqn:E1;
      destruct (resources_collected g + 1 <? resources_collected g')%Z eqn:E2;
      destruct (2 <=? resources_collected g')%Z eqn:E3;
      destruct (resources_collected g <? resources_collected g')%Z eqn:E4;
      simpl; try reflexivity; lia.
  + specialize (IH g). destruct (check_resources_from rs g). exact IH.
Qed.

Lemma check_resource_collection_door `{F : FloatOps} (g : Game) :
let g' := check_resource_collection g in
(door_open g = true -> door_open g' = true)
/\ (door_open g = (2 <=? resources_collected g)%Z ->
    door_open g' = (2 <=? resources_collected g')%Z).
Proof.
unfold check_resource_collection.
pose proof (check_resources_from_door (resources g) g) as H.
destruct (check_resources_from (resources g) g) as [rs g'].
simpl in *. destruct H as [Hle Hopen]. rewrite Hopen. split.
- intros ->. reflexivity.
- intros ->.
  destruct (2 <=? resources_collected g)%Z eqn:E1;
    destruct (resources_collected g <? resources_collected g')%Z eqn:E2;
    destruct (2 <=? resources_collected g')%Z eqn:E3;
    simpl; try reflexivity; lia.
Qed.

Lemma handle_playing_events_door `{F : FloatOps} (inp : Input) (g : Game) :
resources_collected (handle_playing_events inp g) = resources_collected g
/\ (door_open g = true -> door_open (handle_playing_events inp g) = true)
/\ (debug_opens (debug_mode g) (in_events inp) = false ->
    door_open (handle_playing_events inp g) = door_open g).
Proof.
rewrite handle_playing_events_unfold. cbv zeta.
destruct (playing_events_door (in_events inp) g) as (Hr & Hm & Hs).
destruct (player_motion_same_door inp
            (fold_left playing_event (in_events inp) g)) as [Hd Hr'].
cbv zeta in Hd, Hr'. rewrite Hd, Hr'. repeat split; assumption.
Qed.

Lemma check_exit_interaction_same_door `{F : FloatOps} (g : Game) :
same_door g (check_exit_interaction g).
Proof.
unfold check_exit_interaction.
destruct (at_exit g); [destruct (completion_gate g)|]; split; reflexivity.
Qed.

(** The simulation steps of a playing tick, on the door. *)
Lemma playing_tick_door `{F : FloatOps} (inp : Input) (g : Game) :
(door_open g = true -> door_open (playing_tick inp g) = true)
/\ (debug_opens (debug_mode g) (in_events inp) = false ->
    door_open g = (2 <=? resources_collected g)%Z ->
    door_open (playing_tick inp g)
    = (2 <=? resources_collected (playing_tick inp g))%Z).
Proof.
unfold playing_tick. cbv zeta.
set (g0 := set_lagged_player_action _ (set_frame _ g)).
destruct (handle_playing_events_door inp g0) as (Hr1 & Hm1 & Hs1).
change (resources_collected g0) with (resources_collected g) in Hr1.
change (door_open g0) with (door_open g) in Hm1, Hs1.
change (debug_mode g0) with (debug_mode g) in Hs1.
set (g1 := handle_playing_events inp g0) in *. clearbody g1. clear g0.
assert (H2 : same_door g1 (update_npc_emotion (in_decide inp) g1))
  by (split; reflexivity).
set (g2 := update_npc_emotion (in_decide inp) g1) in *. clearbody g2.
pose proof (update_npc_position_same_door g2) as H3.
set (g3 := update_npc_position g2) in *. clearbody g3.
pose proof (update_enemies_same_door (in_enemy_draw inp) g3) as H4.
set (g4 := update_enemies (in_enemy_draw inp) g3) in *. clearbody g4.
destruct (same_door_trans _ _ _ H2 (same_door_trans _ _ _ H3 H4))
  as [Hd Hr].
destruct (check_resource_collection_door g4) as [Hm5 Hi5].
cbv zeta in Hm5, Hi5.
set (g5 := check_resource_collection g4) in *. clearbody g5.
destruct (check_exit_interaction_same_door g5) as [Hd6 Hr6].
rewrite Hd6, Hr6. split.
- intros Ho. apply Hm5. rewrite Hd. auto.
- intros Hno Hinv. apply Hi5. rewrite Hd, Hr, Hr1, (Hs1 Hno). exact Hinv.
Qed.

Lemma handle_start_screen_events_same_door `{F : FloatOps}
  (evs : list Event) (g : Game) :
same_door g (handle_start_screen_events evs g).
Proof.
apply (fold_left_preserves (same_door g)); [|apply same_door_refl].
intros a [|k c|k] Ha; simpl; try exact Ha.
destruct k; try exact Ha. destruct c; exact Ha.
Qed.

Lemma handle_completed_screen_events_same_door `{F : FloatOps}
  (evs : list Event) (g : Game) :
same_door g (handle_completed_screen_events evs g).
Proof.
apply (fold_left_preserves (same_door g)); [|apply same_door_refl].
intros a [|k c|k] Ha; simpl; try exact Ha.
destruct k; exact Ha.
Qed.

Lemma time_limit_check_same_door (g : Game) :
same_door g (time_limit_check g).
Proof.
unfold time_limit_check. destruct (time_is_up g); split; reflexivity.
Qed.

Lemma update_door `{F : FloatOps} (inp : Input) (g : Game) :
(resets inp g = false -> door_open g = true ->
 door_open (update inp g) = true)
/\ (debug_opens (debug_mode g) (in_events inp) = false ->
    door_open g = (2 <=? resources_collected g)%Z ->
    door_open (update inp g) = (2 <=? resources_collected (update inp g))%Z).
Proof.
unfold update, resets. destruct (state g).
- destruct (handle_start_screen_events_same_door (in_events inp) g)
    as [-> ->]. auto.
- destruct (playing_tick_door inp g) as [Hm Hi].
  set (g1 := playing_tick inp g) in *. clearbody g1.
  destruct (time_limit_check_same_door
              (game_over_check (in_layout inp) g1)) as [-> ->].
  unfold game_over_check. split.
  + intros Halive Ho. rewrite Halive. auto.
  + intros Hno Hinv. destruct (player_died g1); [reflexivity | auto].
- destruct (handle_completed_screen_events_same_door (in_events inp) g)
    as [-> ->]. auto.
Qed.

(** C3 (amended). A run starts with the door closed and no resource
  collected.  During a run the open flag never goes from true back to
  false, so it goes from false to true at most once.  On every tick in
  which no O key-down is handled in debug mode, the flag is tied to the
  threshold: if it was equal to "resources_collected >= 2" before the
  tick, it is equal to it after.  (In debug mode the O key opens the door
  whatever the count.) *)
Theorem door_opens_once_at_threshold `{F : FloatOps} :
(forall (time_limit : Z) (pid cond : option string) (l : Layout),
    door_open (new_game time_limit pid cond l) = false
    /\ resources_collected (new_game time_limit pid cond l) = 0%Z)
/\ (forall (l : Layout) (g : Game),
      door_open (reset l g) = false
      /\ resources_collected (reset l g) = 0%Z)
/\ (forall (inp : Input) (g : Game),
      resets inp g = false -> door_open g = true ->
      door_open (update inp g) = true)
/\ (forall (inp : Input) (g : Game),
      debug_opens (debug_mode g) (in_events inp) = false ->
      door_open g = (2 <=? resources_collected g)%Z ->
      door_open (update inp g)
      = (2 <=? resources_collected (update inp g))%Z).
Proof.
split; [intros; split; reflexivity|].
split; [intros; split; reflexivity|].
split; intros inp g; apply update_door.
Qed.

(** ** Deactivated enemies *)

Lemma dead_fixed_refl (es : list Enemy) : Forall2 dead_fixed es es.
Proof. induction es; constructor; auto. intros _. reflexivity. Qed.

Lemma dead_fixed_trans (es1 es2 es3 : list Enemy) :
Forall2 dead_fixed es1 es2 -> Forall2 dead_fixed es2 es3 ->
Forall2 dead_fixed es1 es3.
Proof.
intros H12. revert es3. induction H12 as [|e1 e2 es1 es2 H _ IH];
  intros es3 H23; inversion H23; subst; constructor; auto.
intros Hd. specialize (H Hd). subst e2. auto.
Qed.

Lemma kill_step_refl (g : Game) : kill_step g g.
Proof. split; [apply dead_fixed_refl | split; reflexivity]. Qed.

Lemma kill_step_trans (g1 g2 g3 : Game) :
kill_step g1 g2 -> kill_step g2 g3 -> kill_step g1 g3.
Proof.
intros (H & ? & ?) (H' & ? & ?).
split; [exact (dead_fixed_trans _ _ _ H H') | split; congruence].
Qed.

(** A stage that leaves the enemies and both counters alone. *)
Lemma kill_step_same (g g' : Game) :
enemies g' = enemies g -> enemies_killed g' = enemies_killed g ->
p_enemies_killed (player g') = p_enemies_killed (player g) ->
kill_step g g'.
Proof.
intros He Hk Hp. unfold kill_step. rewrite He, Hk, Hp.
split; [apply dead_fixed_refl | split; reflexivity].
Qed.

Lemma dead_count_cons (e : Enemy) (es : list Enemy) :
dead_count (e :: es)
= ((if e_alive e then 0 else 1) + dead_count es)%Z.
Proof.
unfold dead_count. simpl. destruct (e_alive e); simpl; lia.
Qed.

Lemma enemy_counts_alive `{F : FloatOps} (g : Game) (e : Enemy) :
enemy_counts g e = true -> e_alive e = true.
Proof. unfold enemy_counts. intros H. apply andb_true_iff in H. tauto. Qed.

Lemma player_hit_alive (e : Enemy) :
e_alive e = true ->
e_alive (player_hit e) = negb (e_health (player_hit e) <=? 0)%Z.
Proof.
intros Ha. unfold player_hit. simpl.
destruct (e_health e - PLAYER_DAMAGE <=? 0)%Z eqn:E; simpl;
  rewrite E; simpl; auto.
Qed.

Lemma npc_hit_alive (e : Enemy) :
e_alive e = true ->
e_alive (npc_hit e) = negb (e_health (npc_hit e) <=? 0)%Z.
Proof.
intros Ha. unfold npc_hit. simpl.
destruct (e_health e - NPC_DAMAGE <=? 0)%Z eqn:E; simpl;
  rewrite E; simpl; auto.
Qed.

(** The attack loop: what it does to the list and to the counters of the
  game threaded through it. *)
Lemma check_attack_from_kills `{F : FloatOps} (es : list Enemy) (g : Game) :
let es' := fst (check_attack_from es g) in
let g' := snd (check_attack_from es g) in
Forall2 dead_fixed es es'
/\ (enemies_killed g' - dead_count es'
    = enemies_killed g - dead_count es)%Z
/\ (p_enemies_killed (player g') - dead_count es'
    = p_enemies_killed (player g) - dead_count es)%Z.
Proof.
revert g. induction es as [|e es IH]; intros g; simpl.
- repeat split; constructor.
- destruct (in_attack_range g e) eqn:Hr.
  + assert (Ha : e_alive e = true).
    { unfold in_attack_range in Hr. apply andb_true_iff in Hr as [Hc _].
      exact (enemy_counts_alive g e Hc). }
    pose proof (player_hit_alive e Ha) as Hhit.
    set (g1 := if (e_health (player_hit e) <=? 0)%Z then count_kill g
               else g) in *.
    specialize (IH g1). destruct (check_attack_from es g1) as [es' g'].
    simpl in *. destruct IH as (Hf & Hk & Hp).
    split; [constructor; [intros Hd; congruence | exact Hf]|].
    rewrite !dead_count_cons, Ha, Hhit. subst g1.
    destruct (e_health (player_hit e) <=? 0)%Z; simpl in *; lia.
  + specialize (IH g). destruct (check_attack_from es g) as [es' g'].
    simpl in *. destruct IH as (Hf & Hk & Hp).
    split; [constructor; [intros _; reflexivity | exact Hf]|].
    rewrite !dead_count_cons. lia.
Qed.

Lemma check_attack_kill_step `{F : FloatOps} (g : Game) :
kill_step g (check_attack g).
Proof.
unfold check_attack. destruct (bool_decide _); [|apply kill_step_refl].
pose proof (check_attack_from_kills (enemies g) g) as H.
destruct (check_attack_from (enemies g) g) as [es' g']. simpl in H.
exact H.
Qed.

(** The companion's target is an alive enemy of the room. *)
Lemma nearest_enemy_from_counts `{F : FloatOps} (g : Game) (es : list Enemy)
  (k : nat) (best : option (nat * Q)) (i : nat) (d : Q) :
nearest_enemy_from g k es best = Some (i, d) ->
best = Some (i, d)
\/ exists e, (k <= i)%nat /\ es !! (i - k)%nat = Some e
             /\ enemy_counts g e = true.
Proof.
revert k best. induction es as [|e es IH]; intros k best H; simpl in H.
- left. exact H.
- destruct (enemy_counts g e) eqn:Hc.
  + apply IH in H as [H|(e' & Hle & Hl & Hc')].
    * destruct (match best with
                | Some (_, m) => Qltb _ m
                | None => true
                end).
      -- injection H as <- _. right. exists e.
         rewrite Nat.sub_diag. auto.
      -- left. exact H.
    * right. exists e'. split; [lia|]. split; [|exact Hc'].
      replace (i - k)%nat with (S (i - S k)) by lia. exact Hl.
  + apply IH in H as [H|(e' & Hle & Hl & Hc')]; [left; exact H|].
    right. exists e'. split; [lia|]. split; [|exact Hc'].
    replace (i - k)%nat with (S (i - S k)) by lia. exact Hl.
Qed.

Lemma insert_alive_dead_fixed (es : list Enemy) (i : nat) (e e' : Enemy) :
es !! i = Some e -> e_alive e = true ->
Forall2 dead_fixed es (<[i := e']> es)
/\ dead_count (<[i := e']> es)
   = (dead_count es + (if e_alive e' then 0 else 1))%Z.
Proof.
revert i. induction es as [|a es IH]; intros i Hl Ha; [discriminate|].
destruct i as [|i]; simpl in *.
- injection Hl as ->. split.
  + constructor; [intros Hd; congruence | apply dead_fixed_refl].
  + rewrite !dead_count_cons, Ha. lia.
- destruct (IH i Hl Ha) as [Hf Hc]. split.
  + constructor; [intros _; reflexivity | exact Hf].
  + rewrite !dead_count_cons, Hc. lia.
Qed.

Lemma npc_attack_kill_step (g : Game) (i : nat) (e : Enemy) :
enemies g !! i = Some e -> e_alive e = true ->
kill_step g (npc_attack i e g).
Proof.
intros Hl Ha.
destruct (insert_alive_dead_fixed (enemies g) i e (npc_hit e) Hl Ha)
  as [Hf Hc].
pose proof (npc_hit_alive e Ha) as Hhit.
unfold npc_attack, kill_step.
destruct (e_health (npc_hit e) <=? 0)%Z; simpl;
  rewrite Hc, Hhit; simpl; (split; [exact Hf | split; lia]).
Qed.

Lemma npc_act_kill_step `{F : FloatOps} (g : Game) :
kill_step g (fst (npc_act g)).
Proof.
unfold npc_act.
destruct (n_reaction (npc g));
  try (case_ifs; apply kill_step_same; reflexivity).
destruct (nearest_enemy_from g 0 (enemies g) None) as [[i d]|] eqn:Hn;
  [|apply kill_step_same; reflexivity].
destruct (enemies g !! i) as [e|] eqn:Hl; [|apply kill_step_same; reflexivity].
apply nearest_enemy_from_counts in Hn as [Hn|(e' & _ & Hl' & Hc)];
  [discriminate|].
rewrite Nat.sub_0_r, Hl in Hl'. injection Hl' as <-.
destruct (Qltb (inject_Z ATTACK_RADIUS + 5) d).
- destruct (Qltb 0 _); apply kill_step_same; reflexivity.
- destruct (Qltb d _ && _); [|apply kill_step_same; reflexivity].
  apply npc_attack_kill_step; [exact Hl | exact (enemy_counts_alive g e Hc)].
Qed.

Lemma update_npc_position_kill_step `{F : FloatOps} (g : Game) :
kill_step g (update_npc_position g).
Proof.
unfold update_npc_position.
assert (H0 : kill_step g (npc_cooldown g)).
{ unfold npc_cooldown. case_ifs; apply kill_step_same; reflexivity. }
pose proof (npc_act_kill_step (npc_cooldown g)) as H1.
destruct (npc_act (npc_cooldown g)) as [g1 moved]. simpl in H1.
apply (kill_step_trans _ _ _ H0), (kill_step_trans _ _ _ H1).
unfold npc_round, npc_keep_in_room, npc_check_move.
case_ifs; apply kill_step_same; reflexivity.
Qed.

(** One iteration of the enemy loop never changes the alive flag, and does
  nothing at all for a deactivated enemy. *)
Lemma update_enemy_alive `{F : FloatOps} (g : Game) (d : EnemyDraw)
  (e : Enemy) (h : Q) :
e_alive (fst (update_enemy g d e h)) = e_alive e
/\ (e_alive e = false -> update_enemy g d e h = (e, h)).
Proof.
unfold update_enemy. destruct (enemy_counts g e) eqn:Hc.
- split.
  + unfold enemy_keep_in_room, enemy_check_move, enemy_pursue. simpl.
    case_ifs; reflexivity.
  + intros Hd. apply enemy_counts_alive in Hc. congruence.
- split; reflexivity.
Qed.

Lemma update_enemies_from_alive `{F : FloatOps} (g : Game)
  (draw : nat -> EnemyDraw) (i : nat) (es : list Enemy) (h : Q) :
let es' := fst (update_enemies_from g draw i es h) in
Forall2 dead_fixed es es' /\ dead_count es' = dead_count es.
Proof.
revert i h. induction es as [|e es IH]; intros i h; simpl.
- split; [constructor | reflexivity].
- destruct (update_enemy_alive g (draw i) e h) as [Ha Hd].
  destruct (update_enemy g (draw i) e h) as [e' h'] eqn:He.
  specialize (IH (S i) h').
  destruct (update_enemies_from g draw (S i) es h') as [es' h''].
  simpl in *. destruct IH as [Hf Hc]. split.
  + constructor; [|exact Hf]. intros Hdead.
    specialize (Hd Hdead). congruence.
  + rewrite !dead_count_cons, Ha, Hc. reflexivity.
Qed.

Lemma update_enemies_kill_step `{F : FloatOps} (draw : nat -> EnemyDraw)
  (g : Game) :
kill_step g (update_enemies draw g).
Proof.
unfold update_enemies.
pose proof (update_enemies_from_alive g draw 0 (enemies g)
              (p_health (player g))) as H.
destruct (update_enemies_from g draw 0 (enemies g) (p_health (player g)))
  as [es h]. simpl in H. destruct H as [Hf Hc].
unfold kill_step. simpl. rewrite Hc. auto.
Qed.

Lemma playing_event_kill_step `{F : FloatOps} (g : Game) (ev : Event) :
kill_step g (playing_event g ev).
Proof.
destruct ev as [|k c|k]; simpl; try apply kill_step_refl.
- destruct k; try apply kill_step_refl.
  + apply (kill_step_trans _ (set_player (set_p_action ATTACK (player g)) g));
      [apply kill_step_same; reflexivity | apply check_attack_kill_step].
  + destruct c; apply kill_step_same; reflexivity.
  + destruct (debug_mode g); apply kill_step_same; reflexivity.
  + destruct (debug_mode g); apply kill_step_same; reflexivity.
  + destruct (debug_mode g); apply kill_step_same; reflexivity.
- destruct k; try apply kill_step_refl.
  destruct (bool_decide _); apply kill_step_same; reflexivity.
Qed.

Lemma check_door_interaction_kill_step `{F : FloatOps} (now : Z) (g : Game) :
kill_step g (check_door_interaction now g).
Proof.
unfold check_door_interaction. case_ifs; apply kill_step_same; reflexivity.
Qed.

Lemma player_action_update_kills (moved : bool) (p : Player) :
p_enemies_killed (player_action_update moved p) = p_enemies_killed p.
Proof. unfold player_action_update. case_ifs; reflexivity. Qed.

Lemma handle_playing_events_kill_step `{F : FloatOps} (inp : Input)
  (g : Game) :
kill_step g (handle_playing_events inp g).
Proof.
rewrite handle_playing_events_unfold. cbv zeta.
set (g1 := fold_left playing_event (in_events inp) g).
assert (H1 : kill_step g g1).
{ subst g1. apply (fold_left_preserves (kill_step g));
    [|apply kill_step_refl].
  intros a ev Ha.
  exact (kill_step_trans _ _ _ Ha (playing_event_kill_step a ev)). }
apply (kill_step_trans _ _ _ H1). clearbody g1.
set (p' := player_action_update _ _).
assert (Hp : p_enemies_killed p' = p_enemies_killed (player g1)).
{ subst p'. rewrite player_action_update_kills. reflexivity. }
clearbody p'.
assert (H2 : kill_step g1 (set_player p' g1)).
{ apply kill_step_same; [reflexivity | reflexivity | exact Hp]. }
apply (kill_step_trans _ _ _ H2).
generalize (p_x (player g1)) (p_y (player g1)). intros old_x old_y.
set (g2 := set_player p' g1). clearbody g2.
assert (H3 : kill_step g2 (player_check_move old_x old_y g2)).
{ unfold player_check_move. case_ifs; apply kill_step_same; reflexivity. }
apply (kill_step_trans _ _ _ H3).
set (g3 := player_check_move old_x old_y g2). clearbody g3.
unfold player_door_or_bounds.
destruct (is_player_at_door g3 && door_open g3).
- apply check_door_interaction_kill_step.
- unfold player_keep_in_room. apply kill_step_same; reflexivity.
Qed.

Lemma check_resources_from_iter `{F : FloatOps} (rs : list Resource)
  (g : Game) :
exists n, snd (check_resources_from rs g) = Nat.iter n collect g.
Proof.
revert g. induction rs as [|r rs IH]; intros g; simpl.
- exists 0%nat. reflexivity.
- destruct (resource_in_reach g r).
  + destruct (IH (collect g)) as [n Hn].
    destruct (check_resources_from rs (collect g)). simpl in *.
    exists (S n). rewrite Hn. symmetry. apply Nat.iter_succ_r.
  + destruct (IH g) as [n Hn]. destruct (check_resources_from rs g).
    exists n. exact Hn.
Qed.

Lemma check_resource_collection_kill_step `{F : FloatOps} (g : Game) :
kill_step g (check_resource_collection g).
Proof.
unfold check_resource_collection.
destruct (check_resources_from_iter (resources g) g) as [n Hn].
destruct (check_resources_from (resources g) g) as [rs g']. simpl in Hn.
subst g'.
apply (kill_step_trans _ (Nat.iter n collect g));
  [|apply kill_step_same; reflexivity].
induction n; simpl; [apply kill_step_refl|].
apply (kill_step_trans _ _ _ IHn).
unfold collect. case_ifs; apply kill_step_same; reflexivity.
Qed.

Lemma playing_tick_kill_step `{F : FloatOps} (inp : Input) (g : Game) :
kill_step g (playing_tick inp g).
Proof.
unfold playing_tick.
set (g0 := set_lagged_player_action _ (set_frame _ g)).
assert (H0 : kill_step g g0) by (apply kill_step_same; reflexivity).
pose proof (handle_playing_events_kill_step inp g0) as H1.
set (g1 := handle_playing_events inp g0) in *.
assert (H2 : kill_step g1 (update_npc_emotion (in_decide inp) g1))
  by (apply kill_step_same; reflexivity).
set (g2 := update_npc_emotion (in_decide inp) g1) in *.
pose proof (update_npc_position_kill_step g2) as H3.
set (g3 := update_npc_position g2) in *.
pose proof (update_enemies_kill_step (in_enemy_draw inp) g3) as H4.
set (g4 := update_enemies (in_enemy_draw inp) g3) in *.
pose proof (check_resource_collection_kill_step g4) as H5.
set (g5 := check_resource_collection g4) in *.
assert (H6 : kill_step g5 (check_exit_interaction g5)).
{ unfold check_exit_interaction. case_ifs; apply kill_step_same; reflexivity. }
eauto using kill_step_trans.
Qed.

Lemma handle_start_screen_events_kill_step `{F : FloatOps}
  (evs : list Event) (g : Game) :
kill_step g (handle_start_screen_events evs g).
Proof.
apply (fold_left_preserves (kill_step g)); [|apply kill_step_refl].
intros a ev Ha. apply (kill_step_trans _ _ _ Ha).
destruct ev as [|k c|k]; simpl; try apply kill_step_refl.
destruct k; try apply kill_step_refl;
  try (apply kill_step_same; reflexivity).
destruct c; apply kill_step_same; reflexivity.
Qed.

Lemma handle_completed_screen_events_kill_step `{F : FloatOps}
  (evs : list Event) (g : Game) :
kill_step g (handle_completed_screen_events evs g).
Proof.
apply (fold_left_preserves (kill_step g)); [|apply kill_step_refl].
intros a ev Ha. apply (kill_step_trans _ _ _ Ha).
destruct ev as [|k c|k]; simpl; try apply kill_step_refl;
  try (apply kill_step_same; reflexivity).
destruct k; try apply kill_step_refl; apply kill_step_same; reflexivity.
Qed.

Lemma update_kill_step `{F : FloatOps} (inp : Input) (g : Game) :
resets inp g = false -> kill_step g (update inp g).
Proof.
unfold resets, update. destruct (state g).
- intros _. apply handle_start_screen_events_kill_step.
- intros Halive.
  pose proof (playing_tick_kill_step inp g) as Ht.
  set (g1 := playing_tick inp g) in *. clearbody g1.
  apply (kill_step_trans _ _ _ Ht).
  unfold game_over_check. rewrite Halive.
  unfold time_limit_check.
  destruct (time_is_up g1); apply kill_step_same; reflexivity.
- intros _. apply handle_completed_screen_events_kill_step.
Qed.

Lemma kills_counted_step (g g' : Game) :
kill_step g g' -> kills_counted g -> kills_counted g'.
Proof. intros (_ & Hk & Hp) [H1 H2]. unfold kills_counted. lia. Qed.

Lemma reset_kills_counted `{F : FloatOps} (l : Layout) (g : Game) :
kills_counted (reset l g).
Proof. split; reflexivity. Qed.

Lemma update_kills_counted `{F : FloatOps} (inp : Input) (g : Game) :
kills_counted g -> kills_counted (update inp g).
Proof.
intros H. destruct (resets inp g) eqn:Hr.
- unfold resets in Hr. unfold update.
  destruct (state g); try discriminate Hr.
  set (g1 := playing_tick inp g) in *. clearbody g1.
  unfold game_over_check. rewrite Hr.
  pose proof (reset_kills_counted (in_layout inp) g1) as Hk.
  set (g2 := reset (in_layout inp) g1) in *. clearbody g2.
  unfold time_limit_check. destruct (time_is_up g2); exact Hk.
- exact (kills_counted_step _ _ (update_kill_step inp g Hr) H).
Qed.

(** C6. Once an enemy's alive flag is false, it stays so for the rest of
  the run: a call of [update] that does not end the run leaves the whole
  entry (position, health, flag) as it was; the enemy loop does nothing
  for it, so it neither moves nor damages the player; it is out of the
  reach of the player's attack and is never the companion's target; and
  at every tick of every run both kill counters equal the number of
  deactivated enemies, so each death is counted exactly once. *)
Theorem dead_enemy_stays_dead `{F : FloatOps} :
(forall (inp : Input) (g : Game) (i : nat) (e : Enemy),
    resets inp g = false ->
    enemies g !! i = Some e -> e_alive e = false ->
    enemies (update inp g) !! i = Some e)
/\ (forall (g : Game) (d : EnemyDraw) (e : Enemy) (health : Q),
      e_alive e = false -> update_enemy g d e health = (e, health))
/\ (forall (g : Game) (e : Enemy),
      e_alive e = false ->
      in_attack_range g e = false
      /\ forall i d, nearest_enemy_from g 0 (enemies g) None = Some (i, d) ->
                     enemies g !! i <> Some e)
/\ (forall (time_limit : Z) (pid cond : option string) (l : Layout)
           (inputs : list Input),
      kills_counted (updates inputs (new_game time_limit pid cond l))).
Proof.
split; [|split; [|split]].
- intros inp g i e Hr Hl Hd.
  destruct (update_kill_step inp g Hr) as (Hf & _).
  revert i Hl. induction Hf as [|a a' es es' Ha _ IH]; intros i Hl;
    [discriminate|].
  destruct i as [|i]; simpl in *.
  + injection Hl as ->. rewrite (Ha Hd). reflexivity.
  + apply IH, Hl.
- intros g d e h Hd. apply update_enemy_alive, Hd.
- intros g e Hd. split.
  + unfold in_attack_range, enemy_counts. rewrite Hd, andb_false_r.
    reflexivity.
  + intros i d Hn Hl.
    apply nearest_enemy_from_counts in Hn as [Hn|(e' & _ & Hl' & Hc)];
      [discriminate|].
    rewrite Nat.sub_0_r, Hl in Hl'. injection Hl' as <-.
    apply enemy_counts_alive in Hc. congruence.
- intros. apply (updates_preserves kills_counted).
  + intros inp g. apply update_kills_counted.
  + apply reset_kills_counted.
Qed.

(** ** The clock *)

Lemma same_clock_refl (g : Game) : same_clock g g.
Proof. split; reflexivity. Qed.

Lemma same_clock_trans (g1 g2 g3 : Game) :
same_clock g1 g2 -> same_clock g2 g3 -> same_clock g1 g3.
Proof. intros [? ?] [? ?]. split; congruence. Qed.

Lemma playing_event_same_clock `{F : FloatOps} (g : Game) (ev : Event) :
same_clock g (playing_event g ev).
Proof.
destruct ev as [|k c|k]; simpl; try apply same_clock_refl.
- destruct k; try apply same_clock_refl.
  + apply (check_attack_frame (same_clock g)).
    * intros g' H. exact H.
    * intros es g' H. exact H.
    * split; reflexivity.
  + destruct c; split; reflexivity.
  + destruct (debug_mode g); split; reflexivity.
  + destruct (debug_mode g); split; reflexivity.
  + destruct (debug_mode g); split; reflexivity.
- destruct k; try apply same_clock_refl.
  destruct (bool_decide _); split; reflexivity.
Qed.

Lemma check_door_interaction_same_clock `{F : FloatOps} (now : Z) (g : Game) :
same_clock g (check_door_interaction now g).
Proof.
unfold check_door_interaction. case_ifs; split; reflexivity.
Qed.

Lemma handle_playing_events_same_clock `{F : FloatOps} (inp : Input)
  (g : Game) :
same_clock g (handle_playing_events inp g).
Proof.
rewrite handle_playing_events_unfold. cbv zeta.
set (g1 := fold_left playing_event (in_events inp) g).
assert (H1 : same_clock g g1).
{ subst g1. apply (fold_left_preserves (same_clock g));
    [|apply same_clock_refl].
  intros a ev Ha.
  exact (same_clock_trans _ _ _ Ha (playing_event_same_clock a ev)). }
apply (same_clock_trans _ _ _ H1). clearbody g1.
set (p' := player_action_update _ _). clearbody p'.
generalize (p_x (player g1)) (p_y (player g1)). intros old_x old_y.
assert (H2 : same_clock g1 (set_player p' g1)) by (split; reflexivity).
apply (same_clock_trans _ _ _ H2).
set (g2 := set_player p' g1). clearbody g2.
assert (H3 : same_clock g2 (player_check_move old_x old_y g2)).
{ unfold player_check_move. case_ifs; split; reflexivity. }
apply (same_clock_trans _ _ _ H3).
set (g3 := player_check_move old_x old_y g2). clearbody g3.
unfold player_door_or_bounds.
destruct (is_player_at_door g3 && door_open g3).
- apply check_door_interaction_same_clock.
- split; reflexivity.
Qed.

Lemma update_npc_position_same_clock `{F : FloatOps} (g : Game) :
same_clock g (update_npc_position g).
Proof.
unfold update_npc_position.
assert (H0 : same_clock g (npc_cooldown g)).
{ unfold npc_cooldown. case_ifs; split; reflexivity. }
apply (same_clock_trans _ _ _ H0).
set (g0 := npc_cooldown g). clearbody g0.
assert (H1 : same_clock g0 (fst (npc_act g0))).
{ unfold npc_act, npc_attack. case_ifs; split; reflexivity. }
generalize (n_x (npc g0)) (n_y (npc g0)). intros old_x old_y.
destruct (npc_act g0) as [g1 moved]. simpl in H1.
apply (same_clock_trans _ _ _ H1).
unfold npc_round, npc_keep_in_room, npc_check_move.
case_ifs; split; reflexivity.
Qed.

Lemma update_enemies_same_clock `{F : FloatOps} (draw : nat -> EnemyDraw)
  (g : Game) :
same_clock g (update_enemies draw g).
Proof.
unfold update_enemies. destruct (update_enemies_from _ _ _ _ _).
split; reflexivity.
Qed.

Lemma check_resource_collection_same_clock `{F : FloatOps} (g : Game) :
same_clock g (check_resource_collection g).
Proof.
unfold check_resource_collection.
destruct (check_resources_from_iter (resources g) g) as [n Hn].
destruct (check_resources_from (resources g) g) as [rs g']. simpl in Hn.
subst g'.
apply (same_clock_trans _ (Nat.iter n collect g)); [|split; reflexivity].
induction n; simpl; [apply same_clock_refl|].
apply (same_clock_trans _ _ _ IHn).
unfold collect. case_ifs; split; reflexivity.
Qed.

Lemma check_exit_interaction_same_clock `{F : FloatOps} (g : Game) :
same_clock g (check_exit_interaction g).
Proof.
unfold check_exit_interaction.
destruct (at_exit g); [destruct (completion_gate g)|]; split; reflexivity.
Qed.

(** A playing tick advances the frame counter by one and leaves the time
  limit alone. *)
Lemma playing_tick_clock `{F : FloatOps} (inp : Input) (g : Game) :
frame (playing_tick inp g) = (frame g + 1)%Z
/\ game_time_limit (playing_tick inp g) = game_time_limit g.
Proof.
unfold playing_tick. cbv zeta.
set (g0 := set_lagged_player_action _ (set_frame _ g)).
assert (H0 : frame g0 = (frame g + 1)%Z
             /\ game_time_limit g0 = game_time_limit g)
  by (split; reflexivity).
clearbody g0. destruct H0 as [<- <-].
pose proof (handle_playing_events_same_clock inp g0) as H1.
set (g1 := handle_playing_events inp g0) in *. clearbody g1.
assert (H2 : same_clock g1 (update_npc_emotion (in_decide inp) g1))
  by (split; reflexivity).
set (g2 := update_npc_emotion (in_decide inp) g1) in *. clearbody g2.
pose proof (update_npc_position_same_clock g2) as H3.
set (g3 := update_npc_position g2) in *. clearbody g3.
pose proof (update_enemies_same_clock (in_enemy_draw inp) g3) as H4.
set (g4 := update_enemies (in_enemy_draw inp) g3) in *. clearbody g4.
pose proof (check_resource_collection_same_clock g4) as H5.
set (g5 := check_resource_collection g4) in *. clearbody g5.
pose proof (check_exit_interaction_same_clock g5) as H6.
exact (same_clock_trans _ _ _ H1
         (same_clock_trans _ _ _ H2
            (same_clock_trans _ _ _ H3
               (same_clock_trans _ _ _ H4
                  (same_clock_trans _ _ _ H5 H6))))).
Qed.

(** The completed screen is final: only [running] can still change. *)
Lemma handle_completed_screen_events_state (evs : list Event) (g : Game) :
state (handle_completed_screen_events evs g) = state g.
Proof.
apply (fold_left_preserves (fun g' => state g' = state g)); [|reflexivity].
intros a [|k c|k] Ha; simpl; try exact Ha.
destruct k; exact Ha.
Qed.

Lemma update_completed `{F : FloatOps} (inp : Input) (g : Game) :
state g = COMPLETED -> state (update inp g) = COMPLETED.
Proof.
intros H. unfold update. rewrite H.
rewrite handle_completed_screen_events_state. exact H.
Qed.

Lemma updates_completed `{F : FloatOps} (inputs : list Input) (g : Game) :
state g = COMPLETED -> state (updates inputs g) = COMPLETED.
Proof.
apply (updates_preserves (fun g' => state g' = COMPLETED)).
intros inp g'. apply update_completed.
Qed.

(** C9 (amended). With the time limit enabled (game_time_limit > 0), a
  playing tick in which the player does not die and which brings the
  frame counter to game_time_limit * FPS or beyond ends in state
  COMPLETED; the state then stays COMPLETED, so the record returned by
  [run] has 'completed' true, whatever the kill and resource counts are. *)
Theorem time_limit_completes `{F : FloatOps} (inp : Input) (g : Game) :
state g = PLAYING ->
(0 < game_time_limit g)%Z ->
resets inp g = false ->
(game_time_limit g * FPS <= frame g + 1)%Z ->
state (update inp g) = COMPLETED
/\ (forall inputs, state (updates inputs (update inp g)) = COMPLETED)
/\ (forall inputs data,
      run inputs (update inp g) = Some (Some data) ->
      gd_completed data = true).
Proof.
intros Hs Hlimit Halive Hframe.
assert (Hdone : state (update inp g) = COMPLETED).
{ unfold resets in Halive. unfold update. rewrite Hs in *.
  destruct (playing_tick_clock inp g) as [Hf Hl].
  set (g1 := playing_tick inp g) in *. clearbody g1.
  unfold game_over_check. rewrite Halive.
  unfold time_limit_check, time_is_up. rewrite Hf, Hl.
  apply Z.ltb_lt in Hlimit. apply Z.leb_le in Hframe.
  rewrite Hlimit, Hframe. reflexivity. }
split; [exact Hdone|]. split.
- intros inputs. apply updates_completed, Hdone.
- intros inputs data. unfold run.
  pose proof (updates_completed inputs _ Hdone) as Hend.
  set (g' := updates inputs (update inp g)) in *. clearbody g'.
  destruct (running g'); [discriminate|].
  unfold game_data. destruct (participant_id g') as [pid|]; [|discriminate].
  destruct (bool_decide (pid = EmptyString)); [discriminate|].
  intros [= <-]. simpl. rewrite Hend. reflexivity.
Qed.

(** ** The player's attack *)

Lemma player_motion_enemies `{F : FloatOps} (now : Z) (old_x old_y : Q)
  (p : Player) (g : Game) :
enemies (player_door_or_bounds now
           (player_check_move old_x old_y (set_player p g)))
= enemies g.
Proof.
unfold player_door_or_bounds, player_check_move, check_door_interaction.
case_ifs; reflexivity.
Qed.

Lemma playing_events_no_attack `{F : FloatOps} (evs : list Event) (g : Game) :
attack_pressed evs = false ->
enemies (fold_left playing_event evs g) = enemies g.
Proof.
revert g. induction evs as [|ev evs IH]; intros g H; [reflexivity|].
simpl in H. apply orb_false_iff in H as [Hev Hevs].
simpl. rewrite (IH _ Hevs).
destruct ev as [|k c|k]; try reflexivity.
- destruct k; try reflexivity; try discriminate Hev.
  + destruct c; reflexivity.
  + simpl. destruct (debug_mode g); reflexivity.
  + simpl. destruct (debug_mode g); reflexivity.
  + simpl. destruct (debug_mode g); reflexivity.
- destruct k; try reflexivity.
  simpl. destruct (bool_decide _); reflexivity.
Qed.

Lemma check_attack_from_struck `{F : FloatOps} (es : list Enemy) (g : Game) :
fst (check_attack_from es g) = map (struck g) es
/\ enemies_killed (snd (check_attack_from es g))
   = (enemies_killed g + strike_kills g es)%Z
/\ p_enemies_killed (player (snd (check_attack_from es g)))
   = (p_enemies_killed (player g) + strike_kills g es)%Z.
Proof.
revert g. induction es as [|e es IH]; intros g.
- simpl. unfold strike_kills. simpl. repeat split; lia.
- assert (Hk : strike_kills g (e :: es)
               = ((if felled g e then 1 else 0) + strike_kills g es)%Z).
  { unfold strike_kills. simpl. destruct (felled g e); simpl; lia. }
  rewrite Hk. simpl. unfold struck at 1, felled.
  destruct (in_attack_range g e); simpl.
  + destruct (e_health (player_hit e) <=? 0)%Z.
    * specialize (IH (count_kill g)).
      change (struck (count_kill g)) with (struck g) in IH.
      change (strike_kills (count_kill g) es)
        with (strike_kills g es) in IH.
      destruct (check_attack_from es (count_kill g)) as [es' g'].
      simpl in *. destruct IH as (-> & -> & ->).
      repeat split; lia.
    * specialize (IH g). destruct (check_attack_from es g) as [es' g'].
      simpl in *. destruct IH as (-> & -> & ->). repeat split; lia.
  + specialize (IH g). destruct (check_attack_from es g) as [es' g'].
    simpl in *. destruct IH as (-> & -> & ->). repeat split; lia.
Qed.

(** C5 (amended). Each SPACE key-down handled during play sets the
  player's intent to Attack and at once strikes every alive enemy of the
  current room within the attack radius (60): the enemy loses 100 health
  and, on reaching health <= 0, is deactivated, and both kill counters go
  up by the number of enemies so deactivated; an enemy with at most 100
  health is killed by one hit.  A tick whose event queue has no SPACE
  key-down deals no player damage, even while the intent is still
  Attack: event handling leaves the enemies as they were. *)
Theorem space_keydown_attacks `{F : FloatOps} :
(forall (g : Game) (ctrl : bool),
    let g' := playing_event g (KEYDOWN K_SPACE ctrl) in
    p_action (player g') = ATTACK
    /\ enemies g' = map (struck g) (enemies g)
    /\ enemies_killed g'
       = (enemies_killed g + strike_kills g (enemies g))%Z
    /\ p_enemies_killed (player g')
       = (p_enemies_killed (player g) + strike_kills g (enemies g))%Z)
/\ (forall e : Enemy,
      e_health (player_hit e) = (e_health e - 100)%Z
      /\ e_alive (player_hit e)
         = if (e_health e - 100 <=? 0)%Z then false else e_alive e)
/\ (forall e : Enemy,
      (e_health e <= 100)%Z -> e_alive (player_hit e) = false)
/\ (forall (inp : Input) (g : Game),
      attack_pressed (in_events inp) = false ->
      enemies (handle_playing_events inp g) = enemies g).
Proof.
split; [|split; [|split]].
- intros g ctrl. cbv zeta.
  change (playing_event g (KEYDOWN K_SPACE ctrl))
    with (check_attack (set_player (set_p_action ATTACK (player g)) g)).
  set (g0 := set_player (set_p_action ATTACK (player g)) g).
  unfold check_attack.
  change (p_action (player g0)) with ATTACK.
  change (bool_decide (ATTACK = ATTACK)) with true. cbv iota.
  destruct (check_attack_from_struck (enemies g0) g0) as (He & Hk & Hp).
  destruct (check_attack_from_iter (enemies g0) g0) as [n Hn].
  destruct (check_attack_from (enemies g0) g0) as [es g'].
  simpl in He, Hk, Hp, Hn. subst es.
  split; [|repeat split; assumption].
  simpl. rewrite Hn. clear. induction n; simpl; auto.
- intros e. unfold player_hit. simpl.
  change PLAYER_DAMAGE with 100%Z.
  destruct (e_health e - 100 <=? 0)%Z; split; reflexivity.
- intros e H. unfold player_hit. simpl. change PLAYER_DAMAGE with 100%Z.
  assert (E : (e_health e - 100 <=? 0)%Z = true) by (apply Z.leb_le; lia).
  rewrite E. reflexivity.
- intros inp g H. rewrite handle_playing_events_unfold. cbv zeta.
  rewrite player_motion_enemies. apply playing_events_no_attack, H.
Qed.

(** ** The exit *)

(** The completion gate: [check_exit_interaction] completes the game
  exactly in room 2, on the exit, with 8 kills and 4 resources. *)
Lemma check_exit_interaction_completes `{F : FloatOps} (g : Game) :
state (check_exit_interaction g) = COMPLETED
<-> state g = COMPLETED
    \/ (current_room g = Room2
        /\ colliderect (player_rect g) exit = true
        /\ (8 <= p_enemies_killed (player g))%Z
        /\ (4 <= p_resources_collected (player g))%Z).
Proof.
unfold check_exit_interaction, at_exit, completion_gate.
destruct (bool_decide (current_room g = Room2)) eqn:Hr;
  [apply bool_decide_eq_true in Hr | apply bool_decide_eq_false in Hr];
  destruct (colliderect (player_rect g) exit);
  destruct (8 <=? p_enemies_killed (player g))%Z eqn:Hk;
  destruct (4 <=? p_resources_collected (player g))%Z eqn:Hc;
  simpl; rewrite ?Z.leb_le in *; rewrite ?Z.leb_gt in *;
  split; intros H; auto;
  try (destruct H as [H|(H1 & H2 & H3 & H4)];
       [exact H | try contradiction; try discriminate; lia]).
Qed.

(** * Further properties of the engine *)

(** ** Footprints *)

Lemma footprint_refl (fs : list Field) (g : Game) : footprint fs g g.
Proof.
  split; [repeat split|]. intros f _. destruct f; simpl; auto.
Qed.

Lemma field_eq_trans (f : Field) (g1 g2 g3 : Game) :
  field_eq f g1 g2 -> field_eq f g2 g3 -> field_eq f g1 g3.
Proof.
  destruct f; simpl; try congruence;
    intros [? ?] [? ?]; split; congruence.
Qed.

Lemma fixed_eq_trans (g1 g2 g3 : Game) :
  fixed_eq g1 g2 -> fixed_eq g2 g3 -> fixed_eq g1 g3.
Proof.
  unfold fixed_eq. intros (?&?&?&?&?&?) (?&?&?&?&?&?).
  repeat split; congruence.
Qed.

Lemma footprint_trans (fs : list Field) (g1 g2 g3 : Game) :
  footprint fs g1 g2 -> footprint fs g2 g3 -> footprint fs g1 g3.
Proof.
  intros [Hc H] [Hc' H']. split; [exact (fixed_eq_trans _ _ _ Hc Hc')|].
  intros f Hf. exact (field_eq_trans f _ _ _ (H f Hf) (H' f Hf)).
Qed.

Lemma footprint_mono (fs fs' : list Field) (g g' : Game) :
  (forall f, written fs f = true -> written fs' f = true) ->
  footprint fs g g' -> footprint fs' g g'.
Proof.
  intros Hsub [Hc H]. split; [exact Hc|]. intros f Hf. apply H.
  destruct (written fs f) eqn:E; [|reflexivity].
  rewrite (Hsub f E) in Hf. discriminate Hf.
Qed.

Lemma check_attack_footprint `{F : FloatOps} (g : Game) :
  footprint [F_enemies; F_enemies_killed; F_p_enemies_killed] g
            (check_attack g).
Proof.
  apply (check_attack_frame
           (footprint [F_enemies; F_enemies_killed; F_p_enemies_killed] g)).
  - intros g' H. apply (footprint_trans _ _ _ _ H). footprint_setters.
  - intros es g' H. apply (footprint_trans _ _ _ _ H). footprint_setters.
  - apply footprint_refl.
Qed.

Lemma playing_event_footprint `{F : FloatOps} (g : Game) (ev : Event) :
  footprint events_fields g (playing_event g ev).
Proof.
  destruct ev as [|k c|k]; simpl; try apply footprint_refl.
  - destruct k; try apply footprint_refl.
    + apply (footprint_trans _ _
               (set_player (set_p_action ATTACK (player g)) g));
        [footprint_setters|].
      apply (footprint_mono
               [F_enemies; F_enemies_killed; F_p_enemies_killed]
               events_fields); [footprint_sub | apply check_attack_footprint].
    + destruct c; [footprint_setters | apply footprint_refl].
    + destruct (debug_mode g); [footprint_setters | apply footprint_refl].
    + destruct (debug_mode g); [footprint_setters | apply footprint_refl].
    + destruct (debug_mode g); [footprint_setters | apply footprint_refl].
  - destruct k; try apply footprint_refl.
    destruct (bool_decide _); [footprint_setters | apply footprint_refl].
Qed.

Lemma check_door_interaction_footprint `{F : FloatOps} (now : Z) (g : Game) :
  footprint events_fields g (check_door_interaction now g).
Proof.
  unfold check_door_interaction.
  destruct (is_player_at_door g); [|apply footprint_refl].
  destruct (_ <? _)%Z; [|apply footprint_refl].
  destruct (door_open g).
  - destruct (door_unlock_effect g); simpl; destruct (current_room g);
      footprint_setters.
  - destruct (Qltb _ _); footprint_setters.
Qed.

(** [handle_playing_events] writes the player's position and intent, the
    debug flag, the door, the room, the companion's position (on a door
    traversal), and, through [check_attack], the enemies and the kill
    counters; nothing else. *)
Lemma handle_playing_events_footprint `{F : FloatOps} (inp : Input)
    (g : Game) :
  footprint events_fields g (handle_playing_events inp g).
Proof.
  rewrite handle_playing_events_unfold. cbv zeta.
  set (g1 := fold_left playing_event (in_events inp) g).
  assert (H1 : footprint events_fields g g1).
  { subst g1. apply (fold_left_preserves (footprint events_fields g));
      [|apply footprint_refl].
    intros a ev Ha.
    exact (footprint_trans _ _ _ _ Ha (playing_event_footprint a ev)). }
  apply (footprint_trans _ _ _ _ H1). clearbody g1.
  set (p' := player_action_update _ _).
  assert (Hp : p_health p' = p_health (player g1)
               /\ p_speed p' = p_speed (player g1)
               /\ p_resources_collected p'
                  = p_resources_collected (player g1)
               /\ p_enemies_killed p' = p_enemies_killed (player g1)).
  { subst p'. unfold player_action_update, player_step.
    case_ifs; repeat split; reflexivity. }
  clearbody p'. destruct Hp as (Hh & Hs & Hr & Hk).
  assert (H2 : footprint events_fields g1 (set_player p' g1)).
  { split; [repeat split; auto|].
    intros f Hf; destruct f; cbv in Hf; try discriminate Hf; simpl; auto. }
  apply (footprint_trans _ _ _ _ H2).
  generalize (p_x (player g1)) (p_y (player g1)). intros old_x old_y.
  set (g2 := set_player p' g1). clearbody g2.
  assert (H3 : footprint events_fields g2 (player_check_move old_x old_y g2)).
  { unfold player_check_move.
    destruct (negb _); [footprint_setters | apply footprint_refl]. }
  apply (footprint_trans _ _ _ _ H3).
  set (g3 := player_check_move old_x old_y g2). clearbody g3.
  unfold player_door_or_bounds.
  destruct (is_player_at_door g3 && door_open g3).
  - apply check_door_interaction_footprint.
  - unfold player_keep_in_room. footprint_setters.
Qed.

Lemma update_npc_emotion_footprint `{F : FloatOps} (decide : EmotionFn)
    (g : Game) :
  footprint emotion_fields g (update_npc_emotion decide g).
Proof. footprint_setters. Qed.

Lemma npc_act_footprint `{F : FloatOps} (g : Game) :
  footprint companion_fields g (fst (npc_act g)).
Proof.
  unfold npc_act, npc_attack.
  case_ifs; simpl; try apply footprint_refl; footprint_setters.
Qed.

Lemma update_npc_position_footprint `{F : FloatOps} (g : Game) :
  footprint companion_fields g (update_npc_position g).
Proof.
  unfold update_npc_position.
  assert (H0 : footprint companion_fields g (npc_cooldown g)).
  { unfold npc_cooldown.
    destruct (_ <? _)%Z; [footprint_setters | apply footprint_refl]. }
  apply (footprint_trans _ _ _ _ H0).
  set (g0 := npc_cooldown g). clearbody g0.
  pose proof (npc_act_footprint g0) as H1.
  generalize (n_x (npc g0)) (n_y (npc g0)). intros old_x old_y.
  destruct (npc_act g0) as [g1 moved]. simpl in H1.
  apply (footprint_trans _ _ _ _ H1). clear H1.
  assert (H2 : footprint companion_fields g1 (npc_check_move old_x old_y g1)).
  { unfold npc_check_move.
    destruct (negb _); [footprint_setters | apply footprint_refl]. }
  apply (footprint_trans _ _ _ _ H2).
  set (g2 := npc_check_move old_x old_y g1). clearbody g2.
  assert (H3 : footprint companion_fields g2 (npc_keep_in_room g2)).
  { unfold npc_keep_in_room. footprint_setters. }
  apply (footprint_trans _ _ _ _ H3).
  set (g3 := npc_keep_in_room g2). clearbody g3.
  unfold npc_round. destruct (negb moved);
    [footprint_setters | apply footprint_refl].
Qed.

Lemma update_enemies_footprint `{F : FloatOps} (draw : nat -> EnemyDraw)
    (g : Game) :
  footprint enemy_fields g (update_enemies draw g).
Proof.
  unfold update_enemies. destruct (update_enemies_from _ _ _ _ _).
  footprint_setters.
Qed.

Lemma collect_footprint (g : Game) : footprint pickup_fields g (collect g).
Proof.
  unfold collect. cbv zeta.
  match goal with
  | |- context [if ?b then _ else _] => destruct b
  end; footprint_setters.
Qed.

Lemma check_resource_collection_footprint `{F : FloatOps} (g : Game) :
  footprint pickup_fields g (check_resource_collection g).
Proof.
  unfold check_resource_collection.
  destruct (check_resources_from_iter (resources g) g) as [n Hn].
  destruct (check_resources_from (resources g) g) as [rs g']. simpl in Hn.
  subst g'.
  apply (footprint_trans _ _ (Nat.iter n collect g)); [|footprint_setters].
  induction n; simpl; [apply footprint_refl|].
  exact (footprint_trans _ _ _ _ IHn (collect_footprint _)).
Qed.

Lemma check_exit_interaction_footprint `{F : FloatOps} (g : Game) :
  footprint exit_fields g (check_exit_interaction g).
Proof.
  unfold check_exit_interaction.
  destruct (at_exit g); [destruct (completion_gate g)|];
    try apply footprint_refl; footprint_setters.
Qed.

Lemma playing_tick_simulate `{F : FloatOps} (inp : Input) (g : Game) :
  playing_tick inp g = check_exit_interaction (simulate inp g).
Proof. unfold playing_tick, simulate. cbv zeta. reflexivity. Qed.

(** The steps before the exit check never write [state] or [running]. *)
Lemma simulate_footprint `{F : FloatOps} (inp : Input) (g : Game) :
  footprint simulation_fields g (simulate inp g).
Proof.
  unfold simulate. cbv zeta.
  set (g0 := set_lagged_player_action _ (set_frame _ g)).
  assert (H0 : footprint simulation_fields g g0)
    by (subst g0; footprint_setters).
  clearbody g0.
  pose proof (footprint_mono events_fields simulation_fields _ _
                ltac:(footprint_sub)
                (handle_playing_events_footprint inp g0)) as H1.
  set (g1 := handle_playing_events inp g0) in *. clearbody g1.
  pose proof (footprint_mono emotion_fields simulation_fields _ _
                ltac:(footprint_sub)
                (update_npc_emotion_footprint (in_decide inp) g1)) as H2.
  set (g2 := update_npc_emotion (in_decide inp) g1) in *. clearbody g2.
  pose proof (footprint_mono companion_fields simulation_fields _ _
                ltac:(footprint_sub)
                (update_npc_position_footprint g2)) as H3.
  set (g3 := update_npc_position g2) in *. clearbody g3.
  pose proof (footprint_mono enemy_fields simulation_fields _ _
                ltac:(footprint_sub)
                (update_enemies_footprint (in_enemy_draw inp) g3)) as H4.
  set (g4 := update_enemies (in_enemy_draw inp) g3) in *. clearbody g4.
  pose proof (footprint_mono pickup_fields simulation_fields _ _
                ltac:(footprint_sub)
                (check_resource_collection_footprint g4)) as H5.
  exact (footprint_trans _ _ _ _ H0
           (footprint_trans _ _ _ _ H1
              (footprint_trans _ _ _ _ H2
                 (footprint_trans _ _ _ _ H3
                    (footprint_trans _ _ _ _ H4 H5))))).
Qed.

Lemma handle_start_screen_events_footprint (evs : list Event) (g : Game) :
  footprint [F_state; F_debug_mode] g (handle_start_screen_events evs g).
Proof.
  apply (fold_left_preserves (footprint [F_state; F_debug_mode] g));
    [|apply footprint_refl].
  intros a ev Ha. apply (footprint_trans _ _ _ _ Ha).
  destruct ev as [|k c|k]; simpl; try apply footprint_refl.
  destruct k; try apply footprint_refl; try footprint_setters.
  destruct c; [footprint_setters | apply footprint_refl].
Qed.

Lemma handle_completed_screen_events_footprint (evs : list Event)
    (g : Game) :
  footprint [F_running] g (handle_completed_screen_events evs g).
Proof.
  apply (fold_left_preserves (footprint [F_running] g));
    [|apply footprint_refl].
  intros a ev Ha. apply (footprint_trans _ _ _ _ Ha).
  destruct ev as [|k c|k]; simpl; try apply footprint_refl;
    try footprint_setters.
  destruct k; try apply footprint_refl; footprint_setters.
Qed.

(** The cases of [update], for proving an invariant. *)
Lemma update_cases `{F : FloatOps} (P : Game -> Prop) (inp : Input)
    (g : Game) :
  (state g = START_SCREEN ->
   P (handle_start_screen_events (in_events inp) g)) ->
  (state g = PLAYING ->
   P (time_limit_check
        (game_over_check (in_layout inp)
           (check_exit_interaction (simulate inp g))))) ->
  (state g = COMPLETED ->
   P (handle_completed_screen_events (in_events inp) g)) ->
  P (update inp g).
Proof.
  intros Hs Hp Hc. unfold update.
  destruct (state g);
    [apply Hs | rewrite playing_tick_simulate; apply Hp | apply Hc];
    reflexivity.
Qed.

(** The last two checks of a playing tick, for proving an invariant that
    [reset] establishes and that ignores [state]. *)
Lemma final_checks_preserve `{F : FloatOps} (P : Game -> Prop) (l : Layout)
    (g : Game) :
  (forall g', P (reset l g')) ->
  (forall g' s, P g' -> P (set_state s g')) ->
  P g -> P (time_limit_check (game_over_check l g)).
Proof.
  intros Hreset Hstate Hg. unfold time_limit_check, game_over_check.
  destruct (player_died g).
  - pose proof (Hreset g) as Hr.
    set (g2 := reset l g) in *. clearbody g2.
    destruct (time_is_up g2); [apply Hstate|]; exact Hr.
  - destruct (time_is_up g); [apply Hstate|]; exact Hg.
Qed.

Lemma footprint_field (fs : list Field) (f : Field) (g g' : Game) :
  footprint fs g g' -> written fs f = false -> field_eq f g g'.
Proof. intros [_ H]. apply H. Qed.

(** ** The companion's reaction *)

Lemma reaction_matches_fields (g g' : Game) :
  n_emotion (npc g') = n_emotion (npc g) ->
  n_reaction (npc g') = n_reaction (npc g) ->
  reaction_matches g -> reaction_matches g'.
Proof.
  unfold reaction_matches, update_npc_reaction. simpl.
  intros -> ->. auto.
Qed.

Lemma update_npc_emotion_reaction `{F : FloatOps} (decide : EmotionFn)
    (g : Game) :
  reaction_matches (update_npc_emotion decide g).
Proof. reflexivity. Qed.

Lemma update_reaction_matches `{F : FloatOps} (inp : Input) (g : Game) :
  reaction_matches g -> reaction_matches (update inp g).
Proof.
  intros H. apply update_cases; intros Hs.
  - pose proof (handle_start_screen_events_footprint (in_events inp) g) as Hf.
    exact (reaction_matches_fields _ _
             (footprint_field _ F_n_emotion _ _ Hf eq_refl)
             (footprint_field _ F_n_reaction _ _ Hf eq_refl) H).
  - apply final_checks_preserve.
    + intros g'. reflexivity.
    + intros g' s Hg'. exact Hg'.
    + unfold simulate. cbv zeta.
      set (g1 := handle_playing_events inp _). clearbody g1.
      pose proof (update_npc_emotion_reaction (in_decide inp) g1) as H2.
      set (g2 := update_npc_emotion (in_decide inp) g1) in *. clearbody g2.
      pose proof (update_npc_position_footprint g2) as F3.
      set (g3 := update_npc_position g2) in *. clearbody g3.
      pose proof (update_enemies_footprint (in_enemy_draw inp) g3) as F4.
      set (g4 := update_enemies (in_enemy_draw inp) g3) in *. clearbody g4.
      pose proof (check_resource_collection_footprint g4) as F5.
      set (g5 := check_resource_collection g4) in *. clearbody g5.
      pose proof (check_exit_interaction_footprint g5) as F6.
      set (g6 := check_exit_interaction g5) in *. clearbody g6.
      apply (reaction_matches_fields g5);
        [exact (footprint_field _ F_n_emotion _ _ F6 eq_refl)
        |exact (footprint_field _ F_n_reaction _ _ F6 eq_refl)|].
      apply (reaction_matches_fields g4);
        [exact (footprint_field _ F_n_emotion _ _ F5 eq_refl)
        |exact (footprint_field _ F_n_reaction _ _ F5 eq_refl)|].
      apply (reaction_matches_fields g3);
        [exact (footprint_field _ F_n_emotion _ _ F4 eq_refl)
        |exact (footprint_field _ F_n_reaction _ _ F4 eq_refl)|].
      apply (reaction_matches_fields g2);
        [exact (footprint_field _ F_n_emotion _ _ F3 eq_refl)
        |exact (footprint_field _ F_n_reaction _ _ F3 eq_refl)|].
      exact H2.
  - pose proof (handle_completed_screen_events_footprint (in_events inp) g)
      as Hf.
    exact (reaction_matches_fields _ _
             (footprint_field _ F_n_emotion _ _ Hf eq_refl)
             (footprint_field _ F_n_reaction _ _ Hf eq_refl) H).
Qed.

(** X1. The companion's reaction is a function of its emotion: in every
    state reachable from the constructor the stored reaction is the one
    [update_npc_reaction] derives from the stored emotion; the lookup is
    one-to-one (different emotions give different reactions); and
    [update_npc_emotion] stores the previous emotion as the lagged one. *)
Theorem reaction_follows_emotion `{F : FloatOps} :
  (forall (time_limit : Z) (pid cond : option string) (l : Layout)
          (inputs : list Input),
      reaction_matches (updates inputs (new_game time_limit pid cond l)))
  /\ (forall g1 g2 : Game,
        n_reaction (npc (update_npc_reaction g1))
        = n_reaction (npc (update_npc_reaction g2)) ->
        n_emotion (npc g1) = n_emotion (npc g2))
  /\ (forall (decide : EmotionFn) (g : Game),
        n_emotion_lagged (npc (update_npc_emotion decide g))
        = n_emotion (npc g)).
Proof.
  split; [|split].
  - intros. apply (updates_preserves reaction_matches).
    + intros inp g. apply update_reaction_matches.
    + reflexivity.
  - intros g1 g2. unfold update_npc_reaction. simpl.
    destruct (n_emotion (npc g1)), (n_emotion (npc g2));
      intros H; (reflexivity || discriminate H).
  - intros. reflexivity.
Qed.

(** ** The attack cooldown *)






(** ** Death and the end of the session *)

Lemma health_positive_field (g g' : Game) :
  p_health (player g') = p_health (player g) ->
  health_positive g -> health_positive g'.
Proof. unfold health_positive. intros ->. auto. Qed.

Lemma game_over_check_health_positive `{F : FloatOps} (l : Layout)
    (g : Game) :
  health_ok g -> health_positive (game_over_check l g).
Proof.
  intros [H0 H100]. unfold game_over_check, player_died.
  destruct (Qle_bool (p_health (player g)) 0) eqn:E.
  - unfold health_positive. simpl. lra.
  - split; [|exact H100]. apply Qnot_le_lt. intros Hle.
    apply Qle_bool_iff in Hle. congruence.
Qed.

Lemma time_limit_check_health_positive (g : Game) :
  health_positive g -> health_positive (time_limit_check g).
Proof.
  intros H. unfold time_limit_check. destruct (time_is_up g); exact H.
Qed.

Lemma update_health_positive `{F : FloatOps} (inp : Input) (g : Game) :
  health_positive g -> health_positive (update inp g).
Proof.
  intros H. apply update_cases; intros Hs.
  - exact (health_positive_field _ _
             (footprint_field _ F_p_health _ _
                (handle_start_screen_events_footprint (in_events inp) g)
                eq_refl) H).
  - assert (Hok : health_ok g) by (destruct H; split; [lra | assumption]).
    apply time_limit_check_health_positive,
      game_over_check_health_positive.
    rewrite <- playing_tick_simulate. apply playing_tick_health, Hok.
  - exact (health_positive_field _ _
             (footprint_field _ F_p_health _ _
                (handle_completed_screen_events_footprint (in_events inp) g)
                eq_refl) H).
Qed.

(** X3. Between two calls of [update] the player's health is always
    positive (and at most 100): a playing tick that brings it to 0 ends
    with [reset], which restores 100. *)
Theorem health_positive_between_ticks `{F : FloatOps}
    (time_limit : Z) (pid cond : option string) (l : Layout)
    (inputs : list Input) :
  health_positive (updates inputs (new_game time_limit pid cond l)).
Proof.
  apply (updates_preserves health_positive).
  - intros inp g. apply update_health_positive.
  - unfold health_positive. simpl. lra.
Qed.

Lemma time_is_up_reset `{F : FloatOps} (l : Layout) (g : Game) :
  time_is_up (reset l g) = false.
Proof.
  unfold time_is_up. simpl.
  destruct (0 <? game_time_limit g)%Z eqn:E; [|reflexivity].
  apply Z.ltb_lt in E. simpl. apply Z.leb_gt. unfold FPS. lia.
Qed.

(** X4. When the player dies in a playing tick, [update] recreates the
    whole run: frame counter 0, health 100, room 1, door closed, both pairs
    of counters 0, every enemy alive and every resource uncollected, the
    obstacles of the new placement.  The time-limit check that follows
    never fires on that tick, so the state is the one the tick had reached
    before the reset (PLAYING, or COMPLETED if the exit check had just
    succeeded). *)
Theorem death_restarts_run `{F : FloatOps} (inp : Input) (g : Game) :
  resets inp g = true ->
  let g' := update inp g in
  frame g' = 0%Z
  /\ p_health (player g') = 100
  /\ current_room g' = Room1
  /\ door_open g' = false
  /\ resources_collected g' = 0%Z
  /\ p_resources_collected (player g') = 0%Z
  /\ enemies_killed g' = 0%Z
  /\ p_enemies_killed (player g') = 0%Z
  /\ dead_count (enemies g') = 0%Z
  /\ collected_count (resources g') = 0%Z
  /\ obstacles g' = l_obstacles (in_layout inp)
  /\ state g' = state (playing_tick inp g).
Proof.
  unfold resets. intros H. cbv zeta. unfold update.
  destruct (state g); try discriminate H.
  set (g1 := playing_tick inp g) in *. clearbody g1.
  unfold game_over_check. rewrite H.
  unfold time_limit_check. rewrite time_is_up_reset.
  repeat split; reflexivity.
Qed.

(** ** The loop of [run] *)

Lemma update_stopped_only_completed `{F : FloatOps} (inp : Input)
    (g : Game) :
  stopped_only_completed g -> stopped_only_completed (update inp g).
Proof.
  intros H. apply update_cases; intros Hs.
  - left. destruct H as [H|H]; [|congruence].
    rewrite <- H.
    exact (footprint_field _ F_running _ _
             (handle_start_screen_events_footprint (in_events inp) g)
             eq_refl).
  - left. destruct H as [H|H]; [|congruence].
    apply (final_checks_preserve (fun g' => running g' = true)).
    + intros g'. reflexivity.
    + intros g' s Hg'. exact Hg'.
    + pose proof (simulate_footprint inp g) as F1.
      set (g1 := simulate inp g) in *. clearbody g1.
      pose proof (check_exit_interaction_footprint g1) as F2.
      set (g2 := check_exit_interaction g1) in *. clearbody g2.
      pose proof (footprint_field _ F_running _ _ F1 eq_refl) as E1.
      pose proof (footprint_field _ F_running _ _ F2 eq_refl) as E2.
      simpl in E1, E2. congruence.
  - right. rewrite handle_completed_screen_events_state. exact Hs.
Qed.

(** X5. The loop of [run] can stop only on the completed screen: in every
    state reachable from the constructor, [running] is false only if the
    state is COMPLETED (QUIT and ESC are ignored on the other screens).
    Hence whenever [run] returns a record, its 'completed' entry is
    true. *)
Theorem run_returns_completed `{F : FloatOps}
    (time_limit : Z) (pid cond : option string) (l : Layout)
    (inputs : list Input) :
  stopped_only_completed (updates inputs (new_game time_limit pid cond l))
  /\ forall data,
       run inputs (new_game time_limit pid cond l) = Some (Some data) ->
       gd_completed data = true.
Proof.
  assert (H : stopped_only_completed
                (updates inputs (new_game time_limit pid cond l))).
  { apply (updates_preserves stopped_only_completed).
    - intros inp g. apply update_stopped_only_completed.
    - left. reflexivity. }
  split; [exact H|]. intros data. unfold run.
  set (g' := updates inputs (new_game time_limit pid cond l)) in *.
  clearbody g'.
  destruct (running g') eqn:Hr; [discriminate|].
  destruct H as [H|H]; [congruence|].
  unfold game_data. destruct (participant_id g') as [p|]; [|discriminate].
  destruct (bool_decide (p = EmptyString)); [discriminate|].
  intros [= <-]. simpl. rewrite H. reflexivity.
Qed.

Lemma start_screen_event_rank (g : Game) (ev : Event) :
  state (start_screen_event g ev) = state g
  \/ state (start_screen_event g ev) = PLAYING.
Proof.
  destruct ev as [|k c|k]; simpl; auto.
  destruct k; simpl; auto. destruct c; auto.
Qed.

(** X6. The three screens only advance: a call of [update] never takes
    the game from PLAYING back to the start screen, nor from COMPLETED to
    any other state; from PLAYING it leaves the state PLAYING or makes it
    COMPLETED. *)
Theorem screens_only_advance `{F : FloatOps} (inp : Input) (g : Game) :
  (state_rank (state g) <= state_rank (state (update inp g)))%nat
  /\ (state g = COMPLETED -> state (update inp g) = COMPLETED)
  /\ (state g = PLAYING ->
      state (update inp g) = PLAYING \/ state (update inp g) = COMPLETED).
Proof.
  assert (Hplay : state g = PLAYING ->
                  state (update inp g) = PLAYING
                  \/ state (update inp g) = COMPLETED).
  { intros Hs. apply update_cases; intros Hs'; try congruence.
    pose proof (simulate_footprint inp g) as F1.
    set (g1 := simulate inp g) in *. clearbody g1.
    pose proof (footprint_field _ F_state _ _ F1 eq_refl) as E1.
    simpl in E1. rewrite Hs in E1.
    assert (H2 : state (check_exit_interaction g1) = PLAYING
                 \/ state (check_exit_interaction g1) = COMPLETED).
    { unfold check_exit_interaction.
      destruct (at_exit g1); [destruct (completion_gate g1)|]; simpl; auto. }
    set (g2 := check_exit_interaction g1) in *. clearbody g2.
    unfold time_limit_check, game_over_check.
    destruct (player_died g2).
    - assert (E : state (reset (in_layout inp) g2) = state g2)
        by reflexivity.
      set (g3 := reset (in_layout inp) g2) in *. clearbody g3.
      destruct (time_is_up g3); simpl;
        [right; reflexivity | rewrite E; exact H2].
    - destruct (time_is_up g2); simpl; [right; reflexivity | exact H2]. }
  split; [|split; [apply update_completed | exact Hplay]].
  destruct (state g) eqn:Hs.
  - simpl. lia.
  - destruct (Hplay eq_refl) as [-> | ->]; simpl; lia.
  - rewrite (update_completed inp g Hs). simpl. lia.
Qed.

(** ** Resources *)

Lemma collected_fixed_refl (rs : list Resource) :
  Forall2 collected_fixed rs rs.
Proof. induction rs; constructor; auto. repeat split; auto. Qed.

Lemma collected_fixed_trans (rs1 rs2 rs3 : list Resource) :
  Forall2 collected_fixed rs1 rs2 -> Forall2 collected_fixed rs2 rs3 ->
  Forall2 collected_fixed rs1 rs3.
Proof.
  intros H12. revert rs3. induction H12 as [|r1 r2 rs1 rs2 H _ IH];
    intros rs3 H23; inversion H23 as [|? r3 ? ? H' ? ]; subst;
    constructor; auto.
  destruct H as (Hc & Hx & Hy & Hr), H' as (Hc' & Hx' & Hy' & Hr').
  repeat split; try congruence.
  intros Hd. specialize (Hc Hd). subst r2. auto.
Qed.

Lemma resource_step_refl (g : Game) : resource_step g g.
Proof. split; [apply collected_fixed_refl | split; reflexivity]. Qed.

Lemma resource_step_trans (g1 g2 g3 : Game) :
  resource_step g1 g2 -> resource_step g2 g3 -> resource_step g1 g3.
Proof.
  intros (H & ? & ?) (H' & ? & ?).
  split; [exact (collected_fixed_trans _ _ _ H H') | split; congruence].
Qed.

(** A stage whose footprint leaves the resources and their counters out. *)
Lemma resource_step_footprint (fs : list Field) (g g' : Game) :
  footprint fs g g' ->
  written fs F_resources = false ->
  written fs F_resources_collected = false ->
  written fs F_p_resources_collected = false ->
  resource_step g g'.
Proof.
  intros Hf H1 H2 H3.
  pose proof (footprint_field _ _ _ _ Hf H1) as E1.
  pose proof (footprint_field _ _ _ _ Hf H2) as E2.
  pose proof (footprint_field _ _ _ _ Hf H3) as E3.
  simpl in E1, E2, E3. unfold resource_step. rewrite E1, E2, E3.
  split; [apply collected_fixed_refl | split; reflexivity].
Qed.

Lemma collected_count_cons (r : Resource) (rs : list Resource) :
  collected_count (r :: rs)
  = ((if r_collected r then 1 else 0) + collected_count rs)%Z.
Proof.
  unfold collected_count. simpl. destruct (r_collected r); simpl; lia.
Qed.

Lemma collect_counters (g : Game) :
  resources_collected (collect g) = (resources_collected g + 1)%Z
  /\ p_resources_collected (player (collect g))
     = (p_resources_collected (player g) + 1)%Z.
Proof.
  unfold collect. cbv zeta.
  match goal with
  | |- context [if ?b then _ else _] => destruct b
  end; split; reflexivity.
Qed.

Lemma check_resources_from_counts `{F : FloatOps} (rs : list Resource)
    (g : Game) :
  let rs' := fst (check_resources_from rs g) in
  let g' := snd (check_resources_from rs g) in
  Forall2 collected_fixed rs rs'
  /\ (resources_collected g' - collected_count rs'
      = resources_collected g - collected_count rs)%Z
  /\ (p_resources_collected (player g') - collected_count rs'
      = p_resources_collected (player g) - collected_count rs)%Z.
Proof.
  revert g. induction rs as [|r rs IH]; intros g; simpl.
  - repeat split; constructor.
  - destruct (resource_in_reach g r) eqn:Hr.
    + assert (Hc : r_collected r = false).
      { unfold resource_in_reach, resource_counts in Hr.
        apply andb_true_iff in Hr as [Hr _].
        apply andb_true_iff in Hr as [_ Hr].
        apply negb_true_iff in Hr. exact Hr. }
      destruct (collect_counters g) as [E1 E2].
      specialize (IH (collect g)).
      destruct (check_resources_from rs (collect g)) as [rs' g'].
      simpl in *. destruct IH as (Hf & Hk & Hp).
      split; [constructor; [|exact Hf]|].
      * repeat split; try reflexivity. intros Hd. congruence.
      * rewrite !collected_count_cons, Hc. simpl. lia.
    + specialize (IH g). destruct (check_resources_from rs g) as [rs' g'].
      simpl in *. destruct IH as (Hf & Hk & Hp).
      split; [constructor; [repeat split; auto | exact Hf]|].
      rewrite !collected_count_cons. lia.
Qed.

Lemma check_resource_collection_resource_step `{F : FloatOps} (g : Game) :
  resource_step g (check_resource_collection g).
Proof.
  unfold check_resource_collection.
  pose proof (check_resources_from_counts (resources g) g) as H.
  destruct (check_resources_from (resources g) g) as [rs' g']. simpl in H.
  exact H.
Qed.

Lemma simulate_resource_step `{F : FloatOps} (inp : Input) (g : Game) :
  resource_step g (simulate inp g).
Proof.
  unfold simulate. cbv zeta.
  set (g0 := set_lagged_player_action _ (set_frame _ g)).
  assert (H0 : resource_step g g0)
    by (split; [apply collected_fixed_refl | split; reflexivity]).
  clearbody g0.
  pose proof (resource_step_footprint _ _ _
                (handle_playing_events_footprint inp g0)
                eq_refl eq_refl eq_refl) as H1.
  set (g1 := handle_playing_events inp g0) in *. clearbody g1.
  pose proof (resource_step_footprint _ _ _
                (update_npc_emotion_footprint (in_decide inp) g1)
                eq_refl eq_refl eq_refl) as H2.
  set (g2 := update_npc_emotion (in_decide inp) g1) in *. clearbody g2.
  pose proof (resource_step_footprint _ _ _
                (update_npc_position_footprint g2)
                eq_refl eq_refl eq_refl) as H3.
  set (g3 := update_npc_position g2) in *. clearbody g3.
  pose proof (resource_step_footprint _ _ _
                (update_enemies_footprint (in_enemy_draw inp) g3)
                eq_refl eq_refl eq_refl) as H4.
  set (g4 := update_enemies (in_enemy_draw inp) g3) in *. clearbody g4.
  pose proof (check_resource_collection_resource_step g4) as H5.
  exact (resource_step_trans _ _ _ H0
           (resource_step_trans _ _ _ H1
              (resource_step_trans _ _ _ H2
                 (resource_step_trans _ _ _ H3
                    (resource_step_trans _ _ _ H4 H5))))).
Qed.

Lemma resets_playing `{F : FloatOps} (inp : Input) (g : Game) :
  state g = PLAYING ->
  resets inp g = player_died (check_exit_interaction (simulate inp g)).
Proof.
  intros Hs. unfold resets. rewrite Hs. rewrite playing_tick_simulate.
  reflexivity.
Qed.

Lemma resets_only_playing `{F : FloatOps} (inp : Input) (g : Game) :
  resets inp g = true -> state g = PLAYING.
Proof. unfold resets. destruct (state g); intros H; congruence. Qed.

Lemma final_checks_resource_step (l : Layout) (g : Game) :
  player_died g = false ->
  resource_step g (time_limit_check (game_over_check l g)).
Proof.
  intros Halive. unfold game_over_check. rewrite Halive.
  unfold time_limit_check.
  destruct (time_is_up g);
    (split; [apply collected_fixed_refl | split; reflexivity]).
Qed.

Lemma update_resource_step `{F : FloatOps} (inp : Input) (g : Game) :
  resets inp g = false -> resource_step g (update inp g).
Proof.
  intros Halive. apply update_cases; intros Hs.
  - exact (resource_step_footprint _ _ _
             (handle_start_screen_events_footprint (in_events inp) g)
             eq_refl eq_refl eq_refl).
  - rewrite (resets_playing inp g Hs) in Halive.
    pose proof (simulate_resource_step inp g) as H1.
    set (g1 := simulate inp g) in *. clearbody g1.
    pose proof (resource_step_footprint _ _ _
                  (check_exit_interaction_footprint g1)
                  eq_refl eq_refl eq_refl) as H2.
    set (g2 := check_exit_interaction g1) in *. clearbody g2.
    exact (resource_step_trans _ _ _ H1
             (resource_step_trans _ _ _ H2
                (final_checks_resource_step (in_layout inp) g2 Halive))).
  - exact (resource_step_footprint _ _ _
             (handle_completed_screen_events_footprint (in_events inp) g)
             eq_refl eq_refl eq_refl).
Qed.

Lemma resources_counted_step (g g' : Game) :
  resource_step g g' -> resources_counted g -> resources_counted g'.
Proof. intros (_ & Hk & Hp) [H1 H2]. unfold resources_counted. lia. Qed.

Lemma final_checks_reset `{F : FloatOps} (l : Layout) (g : Game) :
  player_died g = true ->
  time_limit_check (game_over_check l g) = reset l g.
Proof.
  intros H. unfold game_over_check. rewrite H.
  unfold time_limit_check. rewrite time_is_up_reset. reflexivity.
Qed.

Lemma update_resets `{F : FloatOps} (inp : Input) (g : Game) :
  resets inp g = true ->
  update inp g
  = reset (in_layout inp) (check_exit_interaction (simulate inp g)).
Proof.
  intros H. pose proof (resets_only_playing inp g H) as Hs.
  rewrite (resets_playing inp g Hs) in H.
  apply update_cases; intros Hs'; try congruence.
  apply final_checks_reset, H.
Qed.

Lemma update_resources_counted `{F : FloatOps} (inp : Input) (g : Game) :
  resources_counted g -> resources_counted (update inp g).
Proof.
  intros H. destruct (resets inp g) eqn:Hr.
  - rewrite (update_resets inp g Hr). split; reflexivity.
  - exact (resources_counted_step _ _ (update_resource_step inp g Hr) H).
Qed.

(** X7. Each pickup is counted exactly once: in every state reachable
    from the constructor both resource counters equal the number of
    resources whose collected flag is set; and a call of [update] that
    does not end the run leaves every collected resource exactly as it is
    and never moves any resource or changes its room. *)
Theorem resources_counted_once `{F : FloatOps} :
  (forall (time_limit : Z) (pid cond : option string) (l : Layout)
          (inputs : list Input),
      resources_counted (updates inputs (new_game time_limit pid cond l)))
  /\ (forall (inp : Input) (g : Game) (i : nat) (r : Resource),
        resets inp g = false ->
        resources g !! i = Some r ->
        exists r', resources (update inp g) !! i = Some r'
                   /\ collected_fixed r r').
Proof.
  split.
  - intros. apply (updates_preserves resources_counted).
    + intros inp g. apply update_resources_counted.
    + split; reflexivity.
  - intros inp g i r Hr Hl.
    destruct (update_resource_step inp g Hr) as (Hf & _).
    revert i Hl. induction Hf as [|a a' rs rs' Ha _ IH]; intros i Hl;
      [discriminate|].
    destruct i as [|i]; simpl in *.
    + injection Hl as ->. exists a'. split; [reflexivity | exact Ha].
    + apply IH, Hl.
Qed.

(** ** The pools *)

Lemma dead_count_bounds (es : list Enemy) :
  (0 <= dead_count es <= Z.of_nat (length es))%Z.
Proof.
  unfold dead_count. split; [lia|].
  apply inj_le. induction es as [|e es IH]; simpl; [lia|].
  destruct (negb (e_alive e)); simpl; lia.
Qed.

Lemma collected_count_bounds (rs : list Resource) :
  (0 <= collected_count rs <= Z.of_nat (length rs))%Z.
Proof.
  unfold collected_count. split; [lia|].
  apply inj_le. induction rs as [|r rs IH]; simpl; [lia|].
  destruct (r_collected r); simpl; lia.
Qed.

Lemma Forall2_same_length {A : Type} (R : A -> A -> Prop) (l l' : list A) :
  Forall2 R l l' -> length l' = length l.
Proof. induction 1; simpl; congruence. Qed.

Lemma update_pools_ok `{F : FloatOps} (inp : Input) (g : Game) :
  pools_ok g -> pools_ok (update inp g).
Proof.
  intros (He & Hr & Hk & Hc). destruct (resets inp g) eqn:Hreset.
  - rewrite (update_resets inp g Hreset).
    repeat split; reflexivity.
  - destruct (update_kill_step inp g Hreset) as (Hf & _).
    destruct (update_resource_step inp g Hreset) as (Hf' & _).
    split; [|split; [|split]].
    + rewrite (Forall2_same_length _ _ _ Hf). exact He.
    + rewrite (Forall2_same_length _ _ _ Hf'). exact Hr.
    + apply update_kills_counted, Hk.
    + apply update_resources_counted, Hc.
Qed.

(** X8. The pools are never resized: in every state reachable from the
    constructor there are exactly 15 enemies and 4 resources, so the kill
    counters stay within [0, 15] and the resource counters within
    [0, 4]. *)
Theorem pools_fixed `{F : FloatOps}
    (time_limit : Z) (pid cond : option string) (l : Layout)
    (inputs : list Input) :
  let g := updates inputs (new_game time_limit pid cond l) in
  length (enemies g) = 15%nat
  /\ length (resources g) = 4%nat
  /\ (0 <= enemies_killed g <= 15)%Z
  /\ (0 <= p_enemies_killed (player g) <= 15)%Z
  /\ (0 <= resources_collected g <= 4)%Z
  /\ (0 <= p_resources_collected (player g) <= 4)%Z.
Proof.
  intros g.
  assert (H : pools_ok g).
  { apply (updates_preserves pools_ok).
    - intros inp g'. apply update_pools_ok.
    - repeat split; reflexivity. }
  clearbody g. destruct H as (He & Hr & [Hk Hk'] & [Hc Hc']).
  pose proof (dead_count_bounds (enemies g)) as Hb.
  pose proof (collected_count_bounds (resources g)) as Hb'.
  rewrite He in Hb. rewrite Hr in Hb'.
  repeat split; lia.
Qed.

(** ** Enemy health *)

Lemma enemy_step_refl (e : Enemy) : enemy_step e e.
Proof.
  unfold enemy_step.
  split; [reflexivity | split; [reflexivity | split; [lia | auto]]].
Qed.

Lemma enemy_step_trans (e1 e2 e3 : Enemy) :
  enemy_step e1 e2 -> enemy_step e2 e3 -> enemy_step e1 e3.
Proof.
  intros (? & ? & ? & ?) (? & ? & ? & ?). unfold enemy_step.
  split; [congruence | split; [congruence | split; [lia | auto]]].
Qed.

Lemma Forall2_refl_on {A : Type} (R : A -> A -> Prop) (l : list A) :
  (forall x, R x x) -> Forall2 R l l.
Proof. intros H. induction l; constructor; auto. Qed.

Lemma Forall2_trans_on {A : Type} (R : A -> A -> Prop) (l1 l2 l3 : list A) :
  (forall x y z, R x y -> R y z -> R x z) ->
  Forall2 R l1 l2 -> Forall2 R l2 l3 -> Forall2 R l1 l3.
Proof.
  intros Ht H12. revert l3. induction H12; intros l3 H23;
    inversion H23; subst; constructor; eauto.
Qed.

Lemma Forall2_map_on {A : Type} (R : A -> A -> Prop) (f : A -> A)
    (l : list A) :
  (forall x, R x (f x)) -> Forall2 R l (map f l).
Proof. intros H. induction l; simpl; constructor; auto. Qed.

Lemma Forall2_insert_on {A : Type} (R : A -> A -> Prop) (l : list A)
    (i : nat) (x y : A) :
  (forall x, R x x) -> l !! i = Some x -> R x y ->
  Forall2 R l (<[i := y]> l).
Proof.
  intros Hr. revert i. induction l as [|a l IH]; intros i Hl Hxy;
    [discriminate|].
  destruct i as [|i]; simpl in *.
  - injection Hl as ->. constructor; [exact Hxy | apply Forall2_refl_on, Hr].
  - constructor; [apply Hr | apply IH; assumption].
Qed.

Lemma enemies_step_refl (g : Game) : enemies_step g g.
Proof. apply Forall2_refl_on, enemy_step_refl. Qed.

Lemma enemies_step_same (g g' : Game) :
  enemies g' = enemies g -> enemies_step g g'.
Proof. unfold enemies_step. intros ->. apply enemies_step_refl. Qed.

Lemma enemies_step_trans (g1 g2 g3 : Game) :
  enemies_step g1 g2 -> enemies_step g2 g3 -> enemies_step g1 g3.
Proof. apply Forall2_trans_on, enemy_step_trans. Qed.

Lemma enemies_step_footprint (fs : list Field) (g g' : Game) :
  footprint fs g g' -> written fs F_enemies = false -> enemies_step g g'.
Proof.
  intros Hf H. apply enemies_step_same.
  exact (footprint_field _ _ _ _ Hf H).
Qed.

(** The player's hit takes 100 health, so it deactivates any sane enemy. *)
Lemma player_hit_step (e : Enemy) :
  enemy_step e (player_hit e)
  /\ (enemy_sane e -> e_alive (player_hit e) = false).
Proof.
  unfold player_hit, enemy_step, enemy_sane, PLAYER_DAMAGE. cbv zeta.
  simpl.
  destruct (e_health e - 100 <=? 0)%Z eqn:E;
    simpl.
  - apply Z.leb_le in E.
    assert (Hd : (0 <? e_health e - 100)%Z = false) by (apply Z.ltb_ge; lia).
    rewrite Hd. 
    split; [split; [reflexivity | split; [reflexivity | split; [lia|]]]|];
      intros [Hh Ha]; [split; [lia | reflexivity] | reflexivity].
  - apply Z.leb_gt in E.
    split; [split; [reflexivity | split; [reflexivity | split; [lia|]]]|];
      intros [Hh Ha]; lia.
Qed.

(** The companion's hit takes 20 health. *)
Lemma npc_hit_step (e : Enemy) : enemy_step e (npc_hit e).
Proof.
  unfold npc_hit, enemy_step, enemy_sane, NPC_DAMAGE. cbv zeta.
  simpl.
  destruct (e_health e - 20 <=? 0)%Z eqn:E;
    simpl.
  - apply Z.leb_le in E.
    assert (Hd : (0 <? e_health e - 20)%Z = false) by (apply Z.ltb_ge; lia).
    rewrite Hd. 
    split; [reflexivity | split; [reflexivity | split; [lia|]]].
    intros [Hh Ha]. split; [lia | reflexivity].
  - apply Z.leb_gt in E.
    assert (Hd : (0 <? e_health e - 20)%Z = true) by (apply Z.ltb_lt; lia).
    assert (Hd' : (0 <? e_health e)%Z = true) by (apply Z.ltb_lt; lia).
    rewrite Hd, Hd'.
    split; [reflexivity | split; [reflexivity | split; [lia|]]].
    intros [Hh Ha]. split; [lia | exact Ha].
Qed.

Lemma struck_step `{F : FloatOps} (g : Game) (e : Enemy) :
  enemy_step e (struck g e).
Proof.
  unfold struck. destruct (in_attack_range g e);
    [apply player_hit_step | apply enemy_step_refl].
Qed.

Lemma check_attack_enemies `{F : FloatOps} (g : Game) :
  enemies (check_attack g)
  = if bool_decide (p_action (player g) = ATTACK)
    then map (struck g) (enemies g) else enemies g.
Proof.
  unfold check_attack. destruct (bool_decide _); [|reflexivity].
  destruct (check_attack_from_struck (enemies g) g) as (H & _).
  destruct (check_attack_from (enemies g) g) as [es g']. exact H.
Qed.

Lemma check_attack_enemies_step `{F : FloatOps} (g : Game) :
  enemies_step g (check_attack g).
Proof.
  unfold enemies_step. rewrite check_attack_enemies.
  destruct (bool_decide _);
    [apply Forall2_map_on, struck_step | apply enemies_step_refl].
Qed.

Lemma playing_event_enemies_step `{F : FloatOps} (g : Game) (ev : Event) :
  enemies_step g (playing_event g ev).
Proof.
  destruct ev as [|k c|k]; simpl; try apply enemies_step_refl.
  - destruct k; try apply enemies_step_refl.
    + apply (enemies_step_trans _
               (set_player (set_p_action ATTACK (player g)) g));
        [apply enemies_step_same; reflexivity
        | apply check_attack_enemies_step].
    + destruct c; apply enemies_step_same; reflexivity.
    + destruct (debug_mode g); apply enemies_step_same; reflexivity.
    + destruct (debug_mode g); apply enemies_step_same; reflexivity.
    + destruct (debug_mode g); apply enemies_step_same; reflexivity.
  - destruct k; try apply enemies_step_refl.
    destruct (bool_decide _); apply enemies_step_same; reflexivity.
Qed.

Lemma handle_playing_events_enemies_step `{F : FloatOps} (inp : Input)
    (g : Game) :
  enemies_step g (handle_playing_events inp g).
Proof.
  rewrite handle_playing_events_unfold. cbv zeta.
  set (g1 := fold_left playing_event (in_events inp) g).
  assert (H1 : enemies_step g g1).
  { subst g1. apply (fold_left_preserves (enemies_step g));
      [|apply enemies_step_refl].
    intros a ev Ha.
    exact (enemies_step_trans _ _ _ Ha (playing_event_enemies_step a ev)). }
  apply (enemies_step_trans _ _ _ H1). clearbody g1.
  apply enemies_step_same, player_motion_enemies.
Qed.

Lemma npc_act_enemies_step `{F : FloatOps} (g : Game) :
  enemies_step g (fst (npc_act g)).
Proof.
  unfold npc_act.
  destruct (n_reaction (npc g));
    try (case_ifs; apply enemies_step_same; reflexivity).
  destruct (nearest_enemy_from g 0 (enemies g) None) as [[i d]|];
    [|apply enemies_step_same; reflexivity].
  destruct (enemies g !! i) as [e|] eqn:Hl;
    [|apply enemies_step_same; reflexivity].
  destruct (Qltb (inject_Z ATTACK_RADIUS + 5) d).
  - destruct (Qltb 0 _); apply enemies_step_same; reflexivity.
  - destruct (Qltb d _ && _); [|apply enemies_step_same; reflexivity].
    assert (H : Forall2 enemy_step (enemies g)
                  (<[i := npc_hit e]> (enemies g)))
      by (apply (Forall2_insert_on _ _ _ e);
          [apply enemy_step_refl | exact Hl | apply npc_hit_step]).
    unfold enemies_step, npc_attack. cbv zeta.
    destruct (e_health (npc_hit e) <=? 0)%Z; exact H.
Qed.

Lemma update_npc_position_enemies_step `{F : FloatOps} (g : Game) :
  enemies_step g (update_npc_position g).
Proof.
  unfold update_npc_position.
  assert (H0 : enemies_step g (npc_cooldown g)).
  { unfold npc_cooldown. case_ifs; apply enemies_step_same; reflexivity. }
  pose proof (npc_act_enemies_step (npc_cooldown g)) as H1.
  destruct (npc_act (npc_cooldown g)) as [g1 moved]. simpl in H1.
  apply (enemies_step_trans _ _ _ H0), (enemies_step_trans _ _ _ H1).
  unfold npc_round, npc_keep_in_room, npc_check_move.
  case_ifs; apply enemies_step_same; reflexivity.
Qed.

(** One iteration of the enemy loop only moves the enemy. *)
Lemma update_enemy_step `{F : FloatOps} (g : Game) (d : EnemyDraw)
    (e : Enemy) (h : Q) :
  let e' := fst (update_enemy g d e h) in
  e_room e' = e_room e /\ e_speed e' = e_speed e
  /\ e_health e' = e_health e /\ e_alive e' = e_alive e.
Proof.
  unfold update_enemy. destruct (enemy_counts g e).
  - unfold enemy_keep_in_room, enemy_check_move, enemy_pursue. simpl.
    case_ifs; repeat split; reflexivity.
  - repeat split; reflexivity.
Qed.

Lemma update_enemies_from_step `{F : FloatOps} (g : Game)
    (draw : nat -> EnemyDraw) (i : nat) (es : list Enemy) (h : Q) :
  Forall2 enemy_step es (fst (update_enemies_from g draw i es h)).
Proof.
  revert i h. induction es as [|e es IH]; intros i h; simpl.
  - constructor.
  - pose proof (update_enemy_step g (draw i) e h) as He.
    destruct (update_enemy g (draw i) e h) as [e' h'].
    specialize (IH (S i) h').
    destruct (update_enemies_from g draw (S i) es h') as [es' h''].
    simpl in *. destruct He as (Hr & Hs & Hh & Ha).
    constructor; [|exact IH].
    unfold enemy_step, enemy_sane. rewrite Hr, Hs, Hh, Ha.
    split; [reflexivity | split; [reflexivity | split; [lia | auto]]].
Qed.

Lemma update_enemies_enemies_step `{F : FloatOps}
    (draw : nat -> EnemyDraw) (g : Game) :
  enemies_step g (update_enemies draw g).
Proof.
  unfold update_enemies.
  pose proof (update_enemies_from_step g draw 0 (enemies g)
                (p_health (player g))) as H.
  destruct (update_enemies_from g draw 0 (enemies g) (p_health (player g)))
    as [es h]. exact H.
Qed.

Lemma simulate_enemies_step `{F : FloatOps} (inp : Input) (g : Game) :
  enemies_step g (simulate inp g).
Proof.
  unfold simulate. cbv zeta.
  set (g0 := set_lagged_player_action _ (set_frame _ g)).
  assert (H0 : enemies_step g g0) by (apply enemies_step_same; reflexivity).
  clearbody g0.
  pose proof (handle_playing_events_enemies_step inp g0) as H1.
  set (g1 := handle_playing_events inp g0) in *. clearbody g1.
  pose proof (enemies_step_footprint _ _ _
                (update_npc_emotion_footprint (in_decide inp) g1)
                eq_refl) as H2.
  set (g2 := update_npc_emotion (in_decide inp) g1) in *. clearbody g2.
  pose proof (update_npc_position_enemies_step g2) as H3.
  set (g3 := update_npc_position g2) in *. clearbody g3.
  pose proof (update_enemies_enemies_step (in_enemy_draw inp) g3) as H4.
  set (g4 := update_enemies (in_enemy_draw inp) g3) in *. clearbody g4.
  pose proof (enemies_step_footprint _ _ _
                (check_resource_collection_footprint g4) eq_refl) as H5.
  exact (enemies_step_trans _ _ _ H0
           (enemies_step_trans _ _ _ H1
              (enemies_step_trans _ _ _ H2
                 (enemies_step_trans _ _ _ H3
                    (enemies_step_trans _ _ _ H4 H5))))).
Qed.

Lemma final_checks_enemies_step (l : Layout) (g : Game) :
  player_died g = false ->
  enemies_step g (time_limit_check (game_over_check l g)).
Proof.
  intros Halive. unfold game_over_check. rewrite Halive.
  unfold time_limit_check.
  destruct (time_is_up g); apply enemies_step_same; reflexivity.
Qed.

Lemma update_enemies_step `{F : FloatOps} (inp : Input) (g : Game) :
  resets inp g = false -> enemies_step g (update inp g).
Proof.
  intros Halive. apply update_cases; intros Hs.
  - exact (enemies_step_footprint _ _ _
             (handle_start_screen_events_footprint (in_events inp) g)
             eq_refl).
  - rewrite (resets_playing inp g Hs) in Halive.
    pose proof (simulate_enemies_step inp g) as H1.
    set (g1 := simulate inp g) in *. clearbody g1.
    pose proof (enemies_step_footprint _ _ _
                  (check_exit_interaction_footprint g1) eq_refl) as H2.
    set (g2 := check_exit_interaction g1) in *. clearbody g2.
    exact (enemies_step_trans _ _ _ H1
             (enemies_step_trans _ _ _ H2
                (final_checks_enemies_step (in_layout inp) g2 Halive))).
  - exact (enemies_step_footprint _ _ _
             (handle_completed_screen_events_footprint (in_events inp) g)
             eq_refl).
Qed.

Lemma enemies_sane_step (g g' : Game) :
  enemies_step g g' -> enemies_sane g -> enemies_sane g'.
Proof.
  unfold enemies_step, enemies_sane. induction 1 as [|e e' es es' He _ IH];
    intros Hs; [constructor|].
  inversion Hs; subst. constructor; [apply He; assumption | auto].
Qed.

Lemma reset_enemies_sane (l : Layout) (g : Game) :
  enemies_sane (reset l g).
Proof.
  unfold enemies_sane. simpl enemies.
  repeat (constructor; [split; [simpl; lia | reflexivity]|]).
  constructor.
Qed.

Lemma update_enemies_sane `{F : FloatOps} (inp : Input) (g : Game) :
  enemies_sane g -> enemies_sane (update inp g).
Proof.
  intros H. destruct (resets inp g) eqn:Hr.
  - rewrite (update_resets inp g Hr). apply reset_enemies_sane.
  - exact (enemies_sane_step _ _ (update_enemies_step inp g Hr) H).
Qed.

(** X9. Enemy health.  In every state reachable from the constructor each
    enemy has at most 100 health and is alive exactly while its health is
    positive, so that a hit of the player (100 damage) deactivates the
    enemy it lands on; and a call of [update] that does not end the run
    never changes an enemy's room or speed and never raises its health. *)
Theorem enemy_health_sane `{F : FloatOps} :
  (forall (time_limit : Z) (pid cond : option string) (l : Layout)
          (inputs : list Input) (i : nat) (e : Enemy),
      enemies (updates inputs (new_game time_limit pid cond l)) !! i
      = Some e ->
      enemy_sane e /\ e_alive (player_hit e) = false)
  /\ (forall (inp : Input) (g : Game) (i : nat) (e : Enemy),
        resets inp g = false ->
        enemies g !! i = Some e ->
        exists e', enemies (update inp g) !! i = Some e'
                   /\ e_room e' = e_room e /\ e_speed e' = e_speed e
                   /\ (e_health e' <= e_health e)%Z).
Proof.
  split.
  - intros time_limit pid cond l inputs i e He.
    assert (H : enemies_sane (updates inputs
                                (new_game time_limit pid cond l))).
    { apply (updates_preserves enemies_sane).
      - intros inp g. apply update_enemies_sane.
      - apply reset_enemies_sane. }
    pose proof (Forall_lookup_1 _ _ _ _ H He) as Hs.
    split; [exact Hs | apply player_hit_step, Hs].
  - intros inp g i e Hr Hl.
    pose proof (update_enemies_step inp g Hr) as Hf.
    unfold enemies_step in Hf.
    revert i Hl. induction Hf as [|a a' es es' Ha _ IH]; intros i Hl;
      [discriminate|].
    destruct i as [|i]; simpl in *.
    + injection Hl as ->. exists a'. destruct Ha as (? & ? & ? & _). auto.
    + apply IH, Hl.
Qed.


(** ** Room bounds and the door *)

Lemma clamp_bounds (lo v hi : Q) :
  lo <= hi -> lo <= clamp lo v hi /\ clamp lo v hi <= hi.
Proof.
  intros H. unfold clamp. pose proof (pymin_le_r v hi) as Hm.
  set (m := pymin v hi) in *. clearbody m.
  unfold pymax. destruct (Qltb lo m) eqn:E.
  - apply Qltb_lt in E. lra.
  - lra.
Qed.

Lemma room_bounds_ordered (room : RoomId) (size : Z) :
  (0 <= size <= 600)%Z ->
  inject_Z (b_x (rooms room) + size / 2)
  <= inject_Z (b_x (rooms room) + b_width (rooms room) - size / 2)
  /\ inject_Z (b_y (rooms room) + size / 2)
     <= inject_Z (b_y (rooms room) + b_height (rooms room) - size / 2).
Proof.
  intros Hs. rewrite <- !Zle_Qle.
  assert (0 <= size / 2 <= 300)%Z
    by (split; [apply Z.div_pos; lia | apply Z.div_le_upper_bound; lia]).
  destruct room; simpl; unfold ROOM_WIDTH, ROOM_HEIGHT; lia.
Qed.

(** The two clamps of a mover of the given size put it inside the room. *)
Lemma clamps_inside_room (room : RoomId) (size : Z) (x y : Q) :
  (0 <= size <= 600)%Z ->
  inside_room room size
    (clamp (inject_Z (b_x (rooms room) + size / 2)) x
           (inject_Z (b_x (rooms room) + b_width (rooms room) - size / 2)))
    (clamp (inject_Z (b_y (rooms room) + size / 2)) y
           (inject_Z (b_y (rooms room) + b_height (rooms room) - size / 2))).
Proof.
  intros Hs. destruct (room_bounds_ordered room size Hs) as [Hx Hy].
  destruct (clamp_bounds _ x _ Hx) as [Hx1 Hx2].
  destruct (clamp_bounds _ y _ Hy) as [Hy1 Hy2].
  unfold inside_room. auto.
Qed.

(** Rounding to the nearest integer stays between integer bounds. *)
Lemma pyround_bounds (lo hi : Z) (x : Q) :
  inject_Z lo <= x -> x <= inject_Z hi ->
  inject_Z lo <= pyround x /\ pyround x <= inject_Z hi.
Proof.
  intros Hlo Hhi.
  assert (Hf1 : (lo <= Qfloor x)%Z).
  { rewrite <- (Qfloor_Z lo). apply Qfloor_resp_le, Hlo. }
  assert (Hf2 : (Qfloor x <= hi)%Z).
  { rewrite <- (Qfloor_Z hi). apply Qfloor_resp_le, Hhi. }
  pose proof (Qfloor_le x) as Hfx.
  assert (Hup : inject_Z (Qfloor x) < x -> (Qfloor x + 1 <= hi)%Z).
  { intros Hlt. assert (inject_Z (Qfloor x) < inject_Z hi) by lra.
    rewrite <- Zlt_Qlt in *. lia. }
  unfold pyround. cbv zeta.
  set (f := Qfloor x) in *. clearbody f.
  destruct (Qltb (x - inject_Z f) (1 # 2)) eqn:E1.
  - rewrite <- !Zle_Qle. auto.
  - apply Qltb_ge in E1.
    assert ((f + 1 <= hi)%Z) by (apply Hup; lra).
    destruct (Qltb (1 # 2) (x - inject_Z f)).
    + rewrite <- !Zle_Qle. lia.
    + destruct (Z.even f); rewrite <- !Zle_Qle; lia.
Qed.

Lemma inside_room_round (room : RoomId) (size : Z) (x y : Q) :
  inside_room room size x y ->
  inside_room room size (pyround x) (pyround y).
Proof.
  intros (Hx1 & Hx2 & Hy1 & Hy2).
  destruct (pyround_bounds _ _ x Hx1 Hx2).
  destruct (pyround_bounds _ _ y Hy1 Hy2).
  unfold inside_room. auto.
Qed.

Lemma npc_act_room `{F : FloatOps} (g : Game) :
  current_room (fst (npc_act g)) = current_room g.
Proof. unfold npc_act, npc_attack. case_ifs; reflexivity. Qed.

Lemma update_npc_position_inside `{F : FloatOps} (g : Game) :
  let g' := update_npc_position g in
  current_room g' = current_room g
  /\ inside_room (current_room g) NPC_SIZE (n_x (npc g')) (n_y (npc g')).
Proof.
  unfold update_npc_position. cbv zeta.
  assert (H0 : current_room (npc_cooldown g) = current_room g)
    by (unfold npc_cooldown; case_ifs; reflexivity).
  pose proof (npc_act_room (npc_cooldown g)) as H1.
  generalize (n_x (npc (npc_cooldown g))) (n_y (npc (npc_cooldown g))).
  intros old_x old_y.
  destruct (npc_act (npc_cooldown g)) as [g1 moved]. simpl in H1.
  rewrite <- H0, <- H1. clear H0 H1.
  set (g2 := npc_check_move old_x old_y g1).
  assert (H2 : current_room g2 = current_room g1)
    by (unfold g2, npc_check_move; case_ifs; reflexivity).
  rewrite <- H2. clearbody g2.
  assert (H3 : inside_room (current_room g2) NPC_SIZE
                 (n_x (npc (npc_keep_in_room g2)))
                 (n_y (npc (npc_keep_in_room g2))))
    by (apply clamps_inside_room; unfold NPC_SIZE; lia).
  assert (H4 : current_room (npc_keep_in_room g2) = current_room g2)
    by reflexivity.
  set (g3 := npc_keep_in_room g2) in *. clearbody g3. rewrite <- H4 in *.
  unfold npc_round. destruct moved; simpl.
  - split; [reflexivity | exact H3].
  - split; [reflexivity | apply inside_room_round, H3].
Qed.

Lemma update_enemy_inside `{F : FloatOps} (g : Game) (d : EnemyDraw)
    (e : Enemy) (h : Q) :
  enemy_counts g e = true ->
  let e' := fst (update_enemy g d e h) in
  inside_room (current_room g) ENEMY_SIZE (e_x e') (e_y e').
Proof.
  intros Hc. unfold update_enemy. rewrite Hc. cbv zeta.
  apply clamps_inside_room. unfold ENEMY_SIZE. lia.
Qed.

Lemma player_keep_in_room_inside `{F : FloatOps} (g : Game) :
  let g' := player_keep_in_room g in
  inside_room (current_room g) PLAYER_SIZE
              (p_x (player g')) (p_y (player g'))
  /\ is_player_at_door g' = false.
Proof.
  unfold player_keep_in_room. cbv zeta.
  pose proof (clamps_inside_room (current_room g) PLAYER_SIZE
                (p_x (player g)) (p_y (player g))) as Hin.
  assert (Hs : (0 <= PLAYER_SIZE <= 600)%Z) by (unfold PLAYER_SIZE; lia).
  specialize (Hin Hs).
  set (x := clamp _ (p_x (player g)) _) in *.
  set (y := clamp _ (p_y (player g)) _) in *.
  clearbody x y. split; [exact Hin|].
  destruct Hin as (Hx1 & Hx2 & _ & _).
  unfold is_player_at_door. cbv zeta. simpl p_x. simpl p_y.
  apply andb_false_iff. left.
  destruct (Qltb _ _) eqn:E; [|reflexivity]. exfalso.
  apply Qltb_lt, Qabs_Qlt_condition in E. destruct E as [E1 E2].
  assert (Hc : inject_Z (b_x door) + inject_Z (b_width door) / 2 == 700)
    by reflexivity.
  assert (Ht : inject_Z (b_width door) / 2 + inject_Z PLAYER_SIZE / 2 == 90)
    by reflexivity.
  rewrite Hc, Ht in E1, E2.
  destruct (current_room g).
  - assert (Hhi : inject_Z (b_x (rooms Room1) + b_width (rooms Room1)
                            - PLAYER_SIZE / 2) == 610) by reflexivity.
    rewrite Hhi in Hx2. lra.
  - assert (Hlo : inject_Z (b_x (rooms Room2) + PLAYER_SIZE / 2) == 790)
      by reflexivity.
    rewrite Hlo in Hx1. lra.
Qed.

(** X10. After their stage of a tick the movers are inside the current
    room, inset by half their size: the companion after
    [update_npc_position] (also when its position was rounded), and every
    alive enemy of the current room after its iteration of
    [update_enemies]. *)
Theorem movers_kept_in_room `{F : FloatOps} (g : Game) :
  (let g' := update_npc_position g in
   current_room g' = current_room g
   /\ inside_room (current_room g) NPC_SIZE (n_x (npc g')) (n_y (npc g')))
  /\ (forall (d : EnemyDraw) (e : Enemy) (h : Q),
        enemy_counts g e = true ->
        let e' := fst (update_enemy g d e h) in
        inside_room (current_room g) ENEMY_SIZE (e_x e') (e_y e')).
Proof.
  split; [apply update_npc_position_inside|].
  intros d e h Hc. apply update_enemy_inside, Hc.
Qed.

Lemma check_door_interaction_door_open `{F : FloatOps} (now : Z)
    (g : Game) :
  door_open (check_door_interaction now g) = door_open g.
Proof.
  unfold check_door_interaction.
  destruct (is_player_at_door g); [|reflexivity].
  destruct (_ <? _)%Z; [|reflexivity].
  destruct (door_open g) eqn:Ho.
  - destruct (door_unlock_effect g); simpl; destruct (current_room g);
      simpl; exact Ho.
  - destruct (Qltb _ _); simpl; exact Ho.
Qed.

Lemma player_door_or_bounds_closed `{F : FloatOps} (now : Z) (g : Game) :
  door_open (player_door_or_bounds now g) = false ->
  player_door_or_bounds now g = player_keep_in_room g.
Proof.
  unfold player_door_or_bounds.
  destruct (is_player_at_door g); [|reflexivity].
  destruct (door_open g) eqn:Ho; [|reflexivity]. simpl.
  rewrite check_door_interaction_door_open. congruence.
Qed.

(** X11. While the door is closed the input stage never pushes the player:
    [handle_playing_events] ends with the boundary clamp, so the player is
    inside the current room and not at the door, and a call of
    [check_door_interaction] on the result does nothing.  The locked-door
    push of [check_door_interaction] is never executed by
    [handle_playing_events]. *)
Theorem closed_door_clamps `{F : FloatOps} (inp : Input) (g : Game) :
  let g' := handle_playing_events inp g in
  door_open g' = false ->
  inside_room (current_room g') PLAYER_SIZE
              (p_x (player g')) (p_y (player g'))
  /\ is_player_at_door g' = false
  /\ forall now, check_door_interaction now g' = g'.
Proof.
  rewrite handle_playing_events_unfold. cbv zeta.
  set (g1 := fold_left playing_event (in_events inp) g). clearbody g1.
  generalize (p_x (player g1)) (p_y (player g1)). intros old_x old_y.
  set (g2 := player_check_move old_x old_y _). clearbody g2.
  intros Hclosed.
  rewrite (player_door_or_bounds_closed _ _ Hclosed).
  destruct (player_keep_in_room_inside g2) as [Hin Hdoor].
  split; [exact Hin | split; [exact Hdoor|]].
  intros now. unfold check_door_interaction. rewrite Hdoor. reflexivity.
Qed.

(** X12. Going through the open door.  When the player is at the open
    door and more than 500 ms have passed since the last transition,
    [check_door_interaction] switches to the other room, puts the player
    on that room's anchor (50 pixels inside the wall with the door, at
    half height) and the companion 30 pixels to the left of the player,
    clears the unlock effect and records the time; the anchor lies inside
    the room and away from the door, so a second call does nothing. *)
Theorem door_traversal `{F : FloatOps} (now : Z) (g : Game) :
  is_player_at_door g = true ->
  door_open g = true ->
  (room_transition_cooldown < now - last_room_transition g)%Z ->
  let g' := check_door_interaction now g in
  current_room g' = (match current_room g with
                     | Room1 => Room2 | Room2 => Room1 end)
  /\ p_x (player g') = (match current_room g with
                        | Room1 => inject_Z 825 | Room2 => inject_Z 575 end)
  /\ p_y (player g') = inject_Z 75 + inject_Z 600 / 2
  /\ n_x (npc g') = p_x (player g') - 30
  /\ n_y (npc g') = p_y (player g')
  /\ door_unlock_effect g' = false
  /\ door_open g' = true
  /\ last_room_transition g' = now
  /\ inside_room (current_room g') PLAYER_SIZE
                 (p_x (player g')) (p_y (player g'))
  /\ is_player_at_door g' = false
  /\ forall now', check_door_interaction now' g' = g'.
Proof.
  intros Hd Ho Hc. apply Z.ltb_lt in Hc.
  unfold check_door_interaction at 1. rewrite Hd, Ho, Hc.
  assert (Hoff : forall g0 : Game,
             is_player_at_door g0 = false ->
             forall now', check_door_interaction now' g0 = g0).
  { intros g0 H0 now'. unfold check_door_interaction. rewrite H0.
    reflexivity. }
  destruct (door_unlock_effect g) eqn:Hu; simpl;
    destruct (current_room g) eqn:Hr; simpl; rewrite ?Ho, ?Hu;
    (repeat (split; [reflexivity|]));
    (split; [vm_compute; repeat split; discriminate|]);
    (split; [reflexivity | apply Hoff; reflexivity]).
Qed.


(** ** The random emotion system *)

Lemma random_call_holds (c : Z) (d : RandomEmotion.Draw)
    (s : RandomEmotion.Snapshot) :
  (1 < c)%Z ->
  RandomEmotion.call c d s
  = ((c - 1)%Z, RandomEmotion.s_npc_emotion_lagged s).
Proof.
  intros Hc. unfold RandomEmotion.call, RandomEmotion.determine_emotion.
  cbv zeta. destruct (c - 1 <=? 0)%Z eqn:E; [|reflexivity].
  apply Z.leb_le in E. lia.
Qed.

Lemma random_call_changes (c : Z) (d : RandomEmotion.Draw)
    (s : RandomEmotion.Snapshot) :
  (c <= 1)%Z ->
  RandomEmotion.call c d s
  = ((35 + RandomEmotion.d_offset d)%Z, RandomEmotion.d_choice d).
Proof.
  intros Hc. unfold RandomEmotion.call, RandomEmotion.determine_emotion.
  cbv zeta. destruct (c - 1 <=? 0)%Z eqn:E; [reflexivity|].
  apply Z.leb_gt in E. lia.
Qed.

Lemma random_calls_hold (c : Z)
    (ins : list (RandomEmotion.Draw * RandomEmotion.Snapshot)) :
  (Z.of_nat (length ins) < c)%Z ->
  RandomEmotion.calls c ins
  = ((c - Z.of_nat (length ins))%Z,
     map (fun i => RandomEmotion.s_npc_emotion_lagged (snd i)) ins).
Proof.
  revert c. induction ins as [|[d s] ins IH]; intros c Hc.
  - simpl. f_equal. lia.
  - cbn [length] in Hc. cbn [RandomEmotion.calls].
    rewrite random_call_holds by lia.
    rewrite IH by lia. cbn [map snd length]. f_equal. lia.
Qed.

(** X13. The random emotion system changes the emotion only when its
    cooldown runs out.  A call with cooldown at most 1 (the first call
    after [initialize] is one) returns the drawn emotion and sets the
    cooldown to 35 plus the drawn offset, which is between 20 and 50 for
    an offset in the range of the draw; each of the calls that follow, up
    to 19 of them at least, returns the lagged emotion it is given and
    takes one off the cooldown. *)
Theorem random_emotion_holds (c : Z) (d : RandomEmotion.Draw)
    (s : RandomEmotion.Snapshot)
    (ins : list (RandomEmotion.Draw * RandomEmotion.Snapshot)) :
  RandomEmotion.offset_in_range d ->
  (c <= 1)%Z ->
  (length ins <= 19)%nat ->
  let c' := fst (RandomEmotion.call c d s) in
  snd (RandomEmotion.call c d s) = RandomEmotion.d_choice d
  /\ (20 <= c' <= 50)%Z
  /\ RandomEmotion.calls c' ins
     = ((c' - Z.of_nat (length ins))%Z,
        map (fun i => RandomEmotion.s_npc_emotion_lagged (snd i)) ins).
Proof.
  intros Hd Hc Hlen. rewrite (random_call_changes c d s Hc). cbn [fst snd].
  unfold RandomEmotion.offset_in_range in Hd.
  split; [reflexivity | split; [lia|]].
  apply random_calls_hold. lia.
Qed.

(** X14. Plugged into the engine, the random system leaves the companion
    alone between changes: in a tick where its cooldown is above 1,
    [update_npc_emotion] keeps the emotion, and the reaction follows it;
    only the lagged emotion is overwritten, with that same emotion. *)
Theorem random_emotion_keeps_companion `{F : FloatOps} (c : Z)
    (d : RandomEmotion.Draw) (g : Game) :
  (1 < c)%Z ->
  let g' := update_npc_emotion (RandomEmotion.decide c d) g in
  n_emotion (npc g') = n_emotion (npc g)
  /\ n_emotion_lagged (npc g') = n_emotion (npc g)
  /\ reaction_matches g'.
Proof.
  intros Hc. unfold update_npc_emotion, RandomEmotion.decide,
    RandomEmotion.determine_emotion. cbv zeta.
  destruct (c - 1 <=? 0)%Z eqn:E; [apply Z.leb_le in E; lia|].
  cbn [snd]. unfold reaction_matches, update_npc_reaction. simpl.
  repeat split; reflexivity.
Qed.

(** ** The machine-learning emotion system *)

Lemma dummy_sum_action (a : PlayerAction) :
  MLEmotion.dummy IDLE a + (MLEmotion.dummy MOVE a
                            + (MLEmotion.dummy ATTACK a + 0)) == 1.
Proof. destruct a; reflexivity. Qed.

Lemma dummy_sum_emotion (e : NPCEmotion) :
  MLEmotion.dummy ANTICIPATION e
  + (MLEmotion.dummy HAPPINESS e
     + (MLEmotion.dummy FEAR e
        + (MLEmotion.dummy ANGER e
           + (MLEmotion.dummy SURPRISE e
              + (MLEmotion.dummy SADNESS e + 0))))) == 1.
Proof. destruct e; reflexivity. Qed.

(** X15. Without a loaded model the machine-learning system is the
    rule-based system: its fallback returns, for every input, what
    [RuleBasedEmotionSystem.determine_emotion] returns. *)
Theorem ml_fallback_is_rule_based `{F : FloatOps}
    (player_health enemy_proximity resource_proximity : Q)
    (lagged_player_action : PlayerAction) (level : RoomId)
    (player_x player_y npc_x npc_y : Q)
    (resources_collected enemies_killed : Z)
    (npc_emotion_lagged : NPCEmotion)
    (current_player_action : PlayerAction) :
  MLEmotion.determine_emotion None
    player_health enemy_proximity resource_proximity lagged_player_action
    level player_x player_y npc_x npc_y resources_collected enemies_killed
    npc_emotion_lagged current_player_action
  = RuleBased.determine_emotion
      player_health enemy_proximity resource_proximity lagged_player_action
      level player_x player_y npc_x npc_y resources_collected enemies_killed
      npc_emotion_lagged current_player_action.
Proof.
  unfold MLEmotion.determine_emotion, RuleBased.determine_emotion,
    RuleBased.player_npc_distance.
  reflexivity.
Qed.

(** X16. With a model, the row handed to [predict] has 22 entries, of
    which the three dummies of the current action, the three of the
    lagged action and the six of the lagged emotion each sum to 1; and
    the system answers with the emotion of a prediction 0..5 and with
    [npc_emotion_lagged] when the prediction is any other number or the
    call fails. *)
Theorem ml_features_one_hot `{F : FloatOps} (predict : MLEmotion.Model)
    (player_health enemy_proximity resource_proximity : Q)
    (lagged_player_action : PlayerAction) (level : RoomId)
    (player_x player_y npc_x npc_y : Q)
    (resources_collected enemies_killed : Z)
    (npc_emotion_lagged : NPCEmotion)
    (current_player_action : PlayerAction) :
  let row := MLEmotion.features
               player_health enemy_proximity resource_proximity
               lagged_player_action level player_x player_y npc_x npc_y
               resources_collected enemies_killed npc_emotion_lagged
               current_player_action in
  let answer := MLEmotion.determine_emotion (Some predict)
                  player_health enemy_proximity resource_proximity
                  lagged_player_action level player_x player_y npc_x npc_y
                  resources_collected enemies_killed npc_emotion_lagged
                  current_player_action in
  length row = 22%nat
  /\ slice_sum 10 3 row == 1
  /\ slice_sum 13 3 row == 1
  /\ slice_sum 16 6 row == 1
  /\ (forall p, predict row = Some p -> (0 <= p <= 5)%Z ->
                MLEmotion.index_to_emotion p = Some answer)
  /\ (forall p, predict row = Some p -> ~ (0 <= p <= 5)%Z ->
                answer = npc_emotion_lagged)
  /\ (predict row = None -> answer = npc_emotion_lagged).
Proof.
  cbv zeta. split; [reflexivity|].
  split; [apply dummy_sum_action|].
  split; [apply dummy_sum_action|].
  split; [apply dummy_sum_emotion|].
  unfold MLEmotion.determine_emotion.
  set (row := MLEmotion.features _ _ _ _ _ _ _ _ _ _ _ _ _). clearbody row.
  split; [|split].
  - intros p Hp Hr. rewrite Hp.
    assert (H : (p = 0 \/ p = 1 \/ p = 2 \/ p = 3 \/ p = 4 \/ p = 5)%Z)
      by lia.
    destruct H as [->|[->|[->|[->|[->| ->]]]]]; reflexivity.
  - intros p Hp Hr. rewrite Hp.
    destruct (MLEmotion.index_to_emotion p) eqn:E; [|reflexivity].
    exfalso. apply Hr. unfold MLEmotion.index_to_emotion in E.
    destruct p as [|p|p]; [lia| |discriminate].
    do 3 (destruct p as [p|p|]; try discriminate; try lia).
  - intros Hp. rewrite Hp. reflexivity.
Qed.

(** ** Placement *)

(** The attempt loop returns the first accepted candidate, or nothing when
    every attempt fails. *)
Lemma first_accepted_spec (accept : Z * Z -> bool)
    (candidate : nat -> Z * Z) (attempt remaining : nat) :
  match Placement.first_accepted accept candidate attempt remaining with
  | Some p =>
      exists k, (attempt <= k < attempt + remaining)%nat
                /\ p = candidate k /\ accept (candidate k) = true
                /\ forall j, (attempt <= j < k)%nat ->
                             accept (candidate j) = false
  | None =>
      forall j, (attempt <= j < attempt + remaining)%nat ->
                accept (candidate j) = false
  end.
Proof.
  revert attempt. induction remaining as [|r IH]; intros attempt; simpl.
  - intros j Hj. lia.
  - destruct (accept (candidate attempt)) eqn:E.
    + exists attempt. split; [lia|]. split; [reflexivity|].
      split; [exact E|]. intros j Hj. lia.
    + specialize (IH (S attempt)).
      destruct (Placement.first_accepted accept candidate (S attempt) r).
      * destruct IH as (k & Hk & Hp & Ha & Hj).
        exists k. split; [lia|]. split; [exact Hp|]. split; [exact Ha|].
        intros j Hj'. destruct (Nat.eq_dec j attempt) as [->|Hne];
          [exact E | apply Hj; lia].
      * intros j Hj. destruct (Nat.eq_dec j attempt) as [->|Hne];
          [exact E | apply IH; lia].
Qed.

Lemma place_obstacle_well_placed `{F : FloatOps} (room_id : RoomId)
    (obstacles : list (Z * Z)) (candidate : nat -> Z * Z) :
  well_placed room_id obstacles ->
  well_placed room_id (Placement.place_obstacle room_id obstacles candidate)
  /\ (length (Placement.place_obstacle room_id obstacles candidate)
      <= S (length obstacles))%nat.
Proof.
  intros H. unfold Placement.place_obstacle.
  pose proof (first_accepted_spec
                (Placement.acceptable room_id obstacles) candidate 0 50)
    as Hs.
  destruct (Placement.first_accepted _ candidate 0 50) as [p|].
  - destruct Hs as (k & _ & -> & Ha & _).
    unfold Placement.acceptable in Ha.
    apply andb_true_iff in Ha as [Hz Ho].
    apply negb_true_iff in Hz, Ho.
    split; [constructor; assumption|].
    rewrite length_app. simpl. lia.
  - split; [exact H | lia].
Qed.

Lemma generate_room_well_placed `{F : FloatOps} (room_id : RoomId)
    (num_obstacles : nat) (candidate : nat -> nat -> Z * Z) :
  well_placed room_id
    (Placement.generate_room room_id num_obstacles candidate)
  /\ (length (Placement.generate_room room_id num_obstacles candidate)
      <= num_obstacles)%nat.
Proof.
  unfold Placement.generate_room.
  assert (H : forall (l : list nat) (obstacles : list (Z * Z)),
             well_placed room_id obstacles ->
             let r := fold_left
                        (fun obstacles i =>
                           Placement.place_obstacle room_id obstacles
                             (candidate i)) l obstacles in
             well_placed room_id r
             /\ (length r <= length l + length obstacles)%nat).
  { induction l as [|i l IH]; intros obstacles Hw; simpl.
    - split; [exact Hw | lia].
    - destruct (place_obstacle_well_placed room_id obstacles (candidate i) Hw)
        as [Hw' Hl].
      destruct (IH _ Hw') as [Hw'' Hl'']. split; [exact Hw''|]. lia. }
  destruct (H (seq 0 num_obstacles) [] (well_placed_nil room_id))
    as [Hw Hl].
  split; [exact Hw|]. rewrite length_seq in Hl. simpl in Hl. lia.
Qed.

Lemma lookup_In {A : Type} (l : list A) (i : nat) (x : A) :
  l !! i = Some x -> In x l.
Proof.
  revert i. induction l as [|a l IH]; intros i H; [discriminate|].
  destruct i as [|i]; simpl in *.
  - injection H as ->. left. reflexivity.
  - right. exact (IH i H).
Qed.

Lemma well_placed_lookup `{F : FloatOps} (room_id : RoomId)
    (obstacles : list (Z * Z)) :
  well_placed room_id obstacles ->
  forall (j : nat) (q : Z * Z),
    obstacles !! j = Some q ->
    Placement.in_safe_zone room_id q = false
    /\ forall (i : nat) (p : Z * Z),
         (i < j)%nat -> obstacles !! i = Some p ->
         Qltb (Placement.point_distance q p) (inject_Z OBSTACLE_SIZE * 1.5)
         = false.
Proof.
  induction 1 as [|obstacles p Hw IH Hz Ho]; intros j q Hj;
    [discriminate|].
  destruct (Nat.lt_ge_cases j (length obstacles)) as [Hlt|Hge].
  - rewrite lookup_app_l in Hj by exact Hlt.
    destruct (IH j q Hj) as [Hzq Hq]. split; [exact Hzq|].
    intros i p' Hi Hp'. rewrite lookup_app_l in Hp' by lia.
    exact (Hq i p' Hi Hp').
  - rewrite lookup_app_r in Hj by exact Hge.
    destruct (j - length obstacles)%nat as [|n] eqn:En; [|discriminate].
    injection Hj as <-. split; [exact Hz|].
    intros i p' Hi Hp'. rewrite lookup_app_l in Hp' by lia.
    unfold Placement.overlapping in Ho.
    rewrite <- not_true_iff_false, existsb_exists in Ho.
    destruct (Qltb _ _) eqn:E; [|reflexivity].
    exfalso. apply Ho. exists p'. split; [|exact E].
    exact (lookup_In _ _ _ Hp').
Qed.

(** X17. The obstacles that [generate_obstacles] places in a room: there
    are at most as many as the drawn number; none lies in a safe zone of
    the room (spawn or entry area, door or exit area); and each one is at
    least 1.5 obstacle sizes away from every obstacle placed before it. *)
Theorem obstacles_well_placed `{F : FloatOps}
    (num_obstacles : RoomId -> nat)
    (candidate : RoomId -> nat -> nat -> Z * Z) (room_id : RoomId) :
  let obstacles :=
    Placement.generate_obstacles num_obstacles candidate room_id in
  (length obstacles <= num_obstacles room_id)%nat
  /\ forall (j : nat) (q : Z * Z),
       obstacles !! j = Some q ->
       Placement.in_safe_zone room_id q = false
       /\ forall (i : nat) (p : Z * Z),
            (i < j)%nat -> obstacles !! i = Some p ->
            Qltb (Placement.point_distance q p)
                 (inject_Z OBSTACLE_SIZE * 1.5) = false.
Proof.
  cbv zeta. unfold Placement.generate_obstacles.
  destruct (generate_room_well_placed room_id (num_obstacles room_id)
              (candidate room_id)) as [Hw Hl].
  split; [exact Hl | apply well_placed_lookup, Hw].
Qed.

(** X18. [get_valid_position] never fails: it returns the first of the
    100 candidates that is at least [OBSTACLE_SIZE + 30] away from every
    obstacle of the room, and when all 100 are too close it returns the
    fixed point 150 pixels inside the room's corner, which is not checked
    against the obstacles. *)
Theorem get_valid_position_spec `{F : FloatOps}
    (obstacles : RoomId -> list (Z * Z)) (room_id : RoomId)
    (candidate : nat -> Z * Z) :
  let p := Placement.get_valid_position obstacles room_id candidate in
  (exists k, (k < 100)%nat /\ p = candidate k
             /\ Placement.too_close (obstacles room_id) (candidate k) = false
             /\ forall j, (j < k)%nat ->
                  Placement.too_close (obstacles room_id) (candidate j)
                  = true)
  \/ (p = Placement.default_position room_id
      /\ forall j, (j < 100)%nat ->
           Placement.too_close (obstacles room_id) (candidate j) = true).
Proof.
  cbv zeta. unfold Placement.get_valid_position.
  pose proof (first_accepted_spec
                (fun p => negb (Placement.too_close (obstacles room_id) p))
                candidate 0 100) as Hs.
  destruct (Placement.first_accepted _ candidate 0 100) as [p|].
  - left. destruct Hs as (k & Hk & -> & Ha & Hj).
    exists k. split; [lia|]. split; [reflexivity|].
    split; [apply negb_true_iff, Ha|].
    intros j Hlt. apply negb_false_iff, Hj. lia.
  - right. split; [reflexivity|].
    intros j Hlt. apply negb_false_iff, Hs. lia.
Qed.

(** ** The exit *)

(** X19. The completion gate: [check_exit_interaction] moves a game to
    the completed screen exactly when the player is in room 2, the
    player's rectangle collides with the exit, and the player has at
    least 8 kills and at least 4 resources; it changes nothing else. *)
Theorem exit_completes_exactly `{F : FloatOps} (g : Game) :
  (state (check_exit_interaction g) = COMPLETED
   <-> state g = COMPLETED
       \/ (current_room g = Room2
           /\ colliderect (player_rect g) exit = true
           /\ (8 <= p_enemies_killed (player g))%Z
           /\ (4 <= p_resources_collected (player g))%Z))
  /\ footprint exit_fields g (check_exit_interaction g).
Proof.
  split; [apply check_exit_interaction_completes|].
  apply check_exit_interaction_footprint.
Qed.

(** ** What each stage assigns to *)

(** X20. Each simulation stage of a playing tick assigns only to its own
    attributes.  The emotion stage changes nothing but the companion's
    emotion, lagged emotion and reaction; the companion stage nothing but
    the companion's position and cooldown, the enemies, the kill counters
    and the player's health; the enemy stage nothing but the enemies and
    the player's health; the pickup stage nothing but the resources, the
    resource counters, the player's health and the two door flags; and
    none of them changes the time limit, the identity fields, the
    obstacles or the movers' speeds. *)
Theorem stages_write_only `{F : FloatOps} (inp : Input) (g : Game) :
  footprint emotion_fields g (update_npc_emotion (in_decide inp) g)
  /\ footprint companion_fields g (update_npc_position g)
  /\ footprint enemy_fields g (update_enemies (in_enemy_draw inp) g)
  /\ footprint pickup_fields g (check_resource_collection g).
Proof.
  split; [apply update_npc_emotion_footprint|].
  split; [apply update_npc_position_footprint|].
  split; [apply update_enemies_footprint|].
  apply check_resource_collection_footprint.
Qed.

(** X23. What the three event handlers assign to.  On the start screen
    the events change nothing but the state and the debug flag, and on
    the completed screen nothing but [running]: the world is frozen on
    both screens.  While playing, the input stage never touches the
    state, [running], the frame counter, the lagged action, the
    resources, the resource counters, the player's health, or the
    companion's emotion, reaction and cooldown. *)
Theorem handlers_write_only `{F : FloatOps} (inp : Input) (g : Game) :
  footprint [F_state; F_debug_mode] g
            (handle_start_screen_events (in_events inp) g)
  /\ footprint [F_running] g
               (handle_completed_screen_events (in_events inp) g)
  /\ footprint events_fields g (handle_playing_events inp g).
Proof.
  split; [apply handle_start_screen_events_footprint|].
  split; [apply handle_completed_screen_events_footprint|].
  apply handle_playing_events_footprint.
Qed.

(** ** The companion's attack *)



(** ** Following the player *)

(** X22. The bands of the FOLLOW reaction, with [dist] the distance
    between player and companion: beyond 70 the companion approaches at
    1.5 times its speed, between 65 and 70 at its speed; below 40 (and
    above 0) it retreats at half its speed; from 40 to 65, and at
    distance 0, it holds its position and reports that it did not
    move. *)
Theorem follow_bands `{F : FloatOps} (g : Game) :
  n_reaction (npc g) = FOLLOW ->
  let dist := distance (p_x (player g)) (p_y (player g))
                       (n_x (npc g)) (n_y (npc g)) in
  let dx := (p_x (player g) - n_x (npc g)) / dist in
  let dy := (p_y (player g) - n_y (npc g)) / dist in
  (70 < dist -> npc_act g = (npc_shift dx dy 1.5 g, true))
  /\ (65 < dist -> dist <= 70 -> npc_act g = (npc_shift dx dy 1.0 g, true))
  /\ (0 < dist -> dist < 40 ->
      npc_act g = (npc_shift dx dy (-0.5) g, true))
  /\ (40 <= dist -> dist <= 65 -> npc_act g = (g, false))
  /\ (dist <= 0 -> npc_act g = (g, false)).
Proof.
  intros Hr. cbv zeta. unfold npc_act. rewrite Hr. cbv zeta.
  unfold IDEAL_DISTANCE, MIN_DISTANCE.
  set (dist := distance _ _ _ _). clearbody dist.
  destruct (Qltb 0 dist) eqn:E0;
    [apply Qltb_lt in E0 | apply Qltb_ge in E0];
    destruct (Qltb (60 + 10) dist) eqn:E1;
    [apply Qltb_lt in E1 | apply Qltb_ge in E1
     | apply Qltb_lt in E1 | apply Qltb_ge in E1];
    destruct (Qltb dist 40) eqn:E2;
    [apply Qltb_lt in E2 | apply Qltb_ge in E2
     | apply Qltb_lt in E2 | apply Qltb_ge in E2
     | apply Qltb_lt in E2 | apply Qltb_ge in E2
     | apply Qltb_lt in E2 | apply Qltb_ge in E2];
    destruct (Qltb 60 dist) eqn:E3;
    try apply Qltb_lt in E3; try apply Qltb_ge in E3;
    destruct (Qltb (60 + 5) dist) eqn:E4;
    try apply Qltb_lt in E4; try apply Qltb_ge in E4;
    (split; [intros ?|split; [intros ? ?|split; [intros ? ?|
       split; [intros ? ?|intros ?]]]]);
    try reflexivity; exfalso; lra.
Qed.

(** ** Entities outside the simulation *)

Lemma Forall2_lookup_on {A : Type} (R : A -> A -> Prop) (l l' : list A)
    (i : nat) (x : A) :
  Forall2 R l l' -> l !! i = Some x ->
  exists y, l' !! i = Some y /\ R x y.
Proof.
  intros H. revert i. induction H as [|a a' l l' Ha _ IH]; intros i Hl;
    [discriminate|].
  destruct i as [|i]; simpl in *.
  - injection Hl as ->. exists a'. split; [reflexivity | exact Ha].
  - apply IH, Hl.
Qed.

Lemma uncounted_lookup (g : Game) (es es' : list Enemy) (i : nat)
    (e : Enemy) :
  Forall2 (uncounted_enemy_fixed g) es es' ->
  es !! i = Some e -> enemy_counts g e = false -> es' !! i = Some e.
Proof.
  intros Hf Hl Hc.
  destruct (Forall2_lookup_on _ _ _ _ _ Hf Hl) as (e' & Hl' & He).
  rewrite Hl'. f_equal. apply He, Hc.
Qed.

Lemma check_attack_uncounted `{F : FloatOps} (g : Game) :
  Forall2 (uncounted_enemy_fixed g) (enemies g) (enemies (check_attack g)).
Proof.
  rewrite check_attack_enemies. destruct (bool_decide _).
  - apply Forall2_map_on. intros e Hc. unfold struck, in_attack_range.
    rewrite Hc. reflexivity.
  - apply Forall2_refl_on. intros e _. reflexivity.
Qed.

Lemma npc_act_uncounted `{F : FloatOps} (g : Game) :
  Forall2 (uncounted_enemy_fixed g) (enemies g) (enemies (fst (npc_act g))).
Proof.
  assert (Hrefl : Forall2 (uncounted_enemy_fixed g) (enemies g) (enemies g))
    by (apply Forall2_refl_on; intros e _; reflexivity).
  unfold npc_act.
  destruct (n_reaction (npc g)); try (case_ifs; exact Hrefl).
  destruct (nearest_enemy_from g 0 (enemies g) None) as [[i d]|] eqn:Hn;
    [|exact Hrefl].
  destruct (enemies g !! i) as [e|] eqn:Hl; [|exact Hrefl].
  apply nearest_enemy_from_counts in Hn as [Hn|(e' & _ & Hl' & Hc)];
    [discriminate|].
  rewrite Nat.sub_0_r, Hl in Hl'. injection Hl' as <-.
  destruct (Qltb (inject_Z ATTACK_RADIUS + 5) d).
  - destruct (Qltb 0 _); exact Hrefl.
  - destruct (Qltb d _ && _); [|exact Hrefl].
    assert (H : Forall2 (uncounted_enemy_fixed g) (enemies g)
                  (<[i := npc_hit e]> (enemies g))).
    { apply (Forall2_insert_on _ _ _ e); [|exact Hl|].
      - intros x _. reflexivity.
      - intros Hc'. congruence. }
    unfold npc_attack. cbv zeta.
    destruct (e_health (npc_hit e) <=? 0)%Z; exact H.
Qed.

Lemma update_npc_position_uncounted `{F : FloatOps} (g : Game) :
  Forall2 (uncounted_enemy_fixed g) (enemies g)
          (enemies (update_npc_position g)).
Proof.
  unfold update_npc_position.
  assert (H0 : enemies (npc_cooldown g) = enemies g
               /\ current_room (npc_cooldown g) = current_room g)
    by (unfold npc_cooldown; case_ifs; split; reflexivity).
  destruct H0 as [He Hr].
  pose proof (npc_act_uncounted (npc_cooldown g)) as H1.
  rewrite He in H1.
  assert (H1' : Forall2 (uncounted_enemy_fixed g) (enemies g)
                  (enemies (fst (npc_act (npc_cooldown g))))).
  { eapply Forall2_impl; [exact H1|]. intros e e' H Hc. apply H.
    unfold enemy_counts in *. rewrite Hr. exact Hc. }
  clear H1.
  generalize (n_x (npc (npc_cooldown g))) (n_y (npc (npc_cooldown g))).
  intros old_x old_y.
  destruct (npc_act (npc_cooldown g)) as [g1 moved]. simpl in H1'.
  assert (E : enemies (npc_round moved
                         (npc_keep_in_room (npc_check_move old_x old_y g1)))
              = enemies g1)
    by (unfold npc_round, npc_keep_in_room, npc_check_move;
        case_ifs; reflexivity).
  rewrite E. exact H1'.
Qed.

Lemma update_enemies_from_uncounted `{F : FloatOps} (g : Game)
    (draw : nat -> EnemyDraw) (i : nat) (es : list Enemy) (h : Q) :
  Forall2 (uncounted_enemy_fixed g) es
          (fst (update_enemies_from g draw i es h)).
Proof.
  revert i h. induction es as [|e es IH]; intros i h; simpl.
  - constructor.
  - assert (He : enemy_counts g e = false ->
                 update_enemy g (draw i) e h = (e, h))
      by (intros Hc; unfold update_enemy; rewrite Hc; reflexivity).
    destruct (update_enemy g (draw i) e h) as [e' h'].
    specialize (IH (S i) h').
    destruct (update_enemies_from g draw (S i) es h') as [es' h''].
    simpl in *. constructor; [|exact IH].
    intros Hc. specialize (He Hc). congruence.
Qed.

Lemma update_enemies_uncounted `{F : FloatOps} (draw : nat -> EnemyDraw)
    (g : Game) :
  Forall2 (uncounted_enemy_fixed g) (enemies g)
          (enemies (update_enemies draw g)).
Proof.
  unfold update_enemies.
  pose proof (update_enemies_from_uncounted g draw 0 (enemies g)
                (p_health (player g))) as H.
  destruct (update_enemies_from g draw 0 (enemies g) (p_health (player g)))
    as [es h]. exact H.
Qed.

Lemma collect_room (g : Game) : current_room (collect g) = current_room g.
Proof.
  unfold collect. cbv zeta.
  match goal with
  | |- context [if ?b then _ else _] => destruct b
  end; reflexivity.
Qed.

Lemma check_resources_from_uncounted `{F : FloatOps} (g : Game)
    (rs : list Resource) (g0 : Game) :
  current_room g0 = current_room g ->
  Forall2 (uncounted_resource_fixed g) rs
          (fst (check_resources_from rs g0)).
Proof.
  revert g0. induction rs as [|r rs IH]; intros g0 Hr; simpl.
  - constructor.
  - destruct (resource_in_reach g0 r) eqn:Hreach.
    + specialize (IH (collect g0)).
      rewrite collect_room in IH. specialize (IH Hr).
      destruct (check_resources_from rs (collect g0)) as [rs' g'].
      simpl in *. constructor; [|exact IH].
      intros Hc. exfalso.
      unfold resource_in_reach, resource_counts in Hreach.
      unfold resource_counts in Hc. rewrite Hr, Hc in Hreach.
      discriminate Hreach.
    + specialize (IH g0 Hr).
      destruct (check_resources_from rs g0) as [rs' g']. simpl in *.
      constructor; [intros _; reflexivity | exact IH].
Qed.

(** X24. Only the alive enemies and the uncollected resources of the
    current room are simulated.  An enemy that is deactivated or in the
    other room is left exactly as it is, at its index, by the player's
    attack, by the companion's stage and by the enemy stage; a resource
    that is collected or in the other room is left as it is by the
    pickup stage. *)
Theorem other_room_untouched `{F : FloatOps} (g : Game) :
  (forall (i : nat) (e : Enemy),
      enemies g !! i = Some e -> enemy_counts g e = false ->
      enemies (check_attack g) !! i = Some e
      /\ enemies (update_npc_position g) !! i = Some e
      /\ forall draw, enemies (update_enemies draw g) !! i = Some e)
  /\ (forall (i : nat) (r : Resource),
        resources g !! i = Some r -> resource_counts g r = false ->
        resources (check_resource_collection g) !! i = Some r).
Proof.
  split.
  - intros i e Hl Hc. split; [|split].
    + exact (uncounted_lookup g _ _ i e (check_attack_uncounted g) Hl Hc).
    + exact (uncounted_lookup g _ _ i e
               (update_npc_position_uncounted g) Hl Hc).
    + intros draw.
      exact (uncounted_lookup g _ _ i e
               (update_enemies_uncounted draw g) Hl Hc).
  - intros i r Hl Hc. unfold check_resource_collection.
    pose proof (check_resources_from_uncounted g (resources g) g eq_refl)
      as H.
    destruct (check_resources_from (resources g) g) as [rs' g']. simpl in *.
    destruct (Forall2_lookup_on _ _ _ _ _ H Hl) as (r' & Hl' & Hr).
    rewrite Hl'. f_equal. apply Hr, Hc.
Qed.

(** ** Counters and health over a tick *)

Lemma dead_count_mono (es es' : list Enemy) :
  Forall2 dead_fixed es es' -> (dead_count es <= dead_count es')%Z.
Proof.
  induction 1 as [|e e' es es' He _ IH]; [lia|].
  rewrite !dead_count_cons. destruct (e_alive e) eqn:Ha.
  - destruct (e_alive e'); lia.
  - rewrite (He Ha), Ha. lia.
Qed.

Lemma collected_count_mono (rs rs' : list Resource) :
  Forall2 collected_fixed rs rs' ->
  (collected_count rs <= collected_count rs')%Z.
Proof.
  induction 1 as [|r r' rs rs' Hr _ IH]; [lia|].
  rewrite !collected_count_cons. destruct (r_collected r) eqn:Hc.
  - rewrite (proj1 Hr Hc), Hc. lia.
  - destruct (r_collected r'); lia.
Qed.

(** X25. Within a run the cumulative counters never go down: a call of
    [update] that does not end the run leaves each of the two kill
    counters and each of the two resource counters where it was or
    raises it. *)
Theorem counters_never_decrease `{F : FloatOps} (inp : Input) (g : Game) :
  resets inp g = false ->
  (enemies_killed g <= enemies_killed (update inp g))%Z
  /\ (p_enemies_killed (player g)
      <= p_enemies_killed (player (update inp g)))%Z
  /\ (resources_collected g <= resources_collected (update inp g))%Z
  /\ (p_resources_collected (player g)
      <= p_resources_collected (player (update inp g)))%Z.
Proof.
  intros Hr.
  destruct (update_kill_step inp g Hr) as (Hf & Hk & Hp).
  destruct (update_resource_step inp g Hr) as (Hf' & Hk' & Hp').
  pose proof (dead_count_mono _ _ Hf).
  pose proof (collected_count_mono _ _ Hf').
  repeat split; lia.
Qed.








(** * The properties on concrete runs *)

#[local] Existing Instance run_floats.

(** C4. At the failing input (room 2, player on the exit, 6 kills, 4
    resources, debug mode on) the completion gate refuses, as the
    thresholds 8 and 4 announced on the start screen require, but the
    feedback branch measures the kills against 5: it finds nothing missing
    and prints nothing. *)
Theorem exit_feedback_threshold_mismatch :
  at_exit at_exit_six_kills = true
  /\ p_enemies_killed (player at_exit_six_kills) = 6%Z
  /\ p_resources_collected (player at_exit_six_kills) = 4%Z
  /\ completion_gate at_exit_six_kills = false
  /\ state (check_exit_interaction at_exit_six_kills) = PLAYING
  /\ missing_resources at_exit_six_kills = 0%Z
  /\ missing_enemies at_exit_six_kills = 0%Z
  /\ exit_feedback at_exit_six_kills = None.
Proof. vm_compute. repeat split; reflexivity. Qed.

(** C3, counterexample: in debug mode the O key opens the door on the
    first playing tick, with no resource collected. *)
Lemma debug_key_opens_door :
  door_open (started 120 quiet_layout) = false
  /\ state door_forced = PLAYING
  /\ door_open door_forced = true
  /\ resources_collected door_forced = 0%Z
  /\ (2 <=? resources_collected door_forced)%Z = false.
Proof. vm_compute. repeat split; reflexivity. Qed.

(** C5, counterexample: the attack key is held over a tick with no new key
    event; the intent is Attack before and after, the first enemy is alive,
    in the room and within the attack radius before and after, and it
    keeps its full health. *)
Lemma held_attack_spares_enemy :
  attack_held_next = update (tick demo_layout []) attack_held
  /\ p_action (player attack_held) = ATTACK
  /\ p_action (player attack_held_next) = ATTACK
  /\ in_attack_range attack_held (first_enemy attack_held) = true
  /\ in_attack_range attack_held_next (first_enemy attack_held_next) = true
  /\ e_health (first_enemy attack_held) = 100%Z
  /\ e_health (first_enemy attack_held_next) = 100%Z
  /\ e_alive (first_enemy attack_held_next) = true
  /\ enemies_killed attack_held_next = 0%Z.
Proof.
  split; [reflexivity|]. vm_compute. repeat split; reflexivity.
Qed.

(** C9, counterexample: with game_time_limit = 0 the frame counter is at
    game_time_limit * FPS or beyond from the first playing tick on, and the
    state stays PLAYING. *)
Lemma disabled_limit_never_completes :
  let g := update (tick quiet_layout []) (started 0 quiet_layout) in
  state (started 0 quiet_layout) = PLAYING
  /\ frame g = 1%Z
  /\ (game_time_limit g * FPS <=? frame g)%Z = true
  /\ state g = PLAYING.
Proof. vm_compute. repeat split; reflexivity. Qed.

(** ** Witnesses *)



Lemma player_health_bounded_witness :
  let g := started 120 quiet_layout in
  health_ok g
  /\ health_ok (update_enemies (fun _ => still_draw) g)
  /\ health_ok (check_resource_collection g)
  /\ health_ok (update_npc_position g).
Proof.
  intros g.
  assert (H : health_ok g) by (split; vm_compute; discriminate).
  destruct (proj2 player_health_bounded g H) as (He & Hr & Hn).
  exact (conj H (conj (He (fun _ => still_draw)) (conj Hr Hn))).
Defined.

Lemma door_opens_once_at_threshold_witness :
  resets (tick quiet_layout []) door_forced = false
  /\ door_open door_forced = true
  /\ door_open (update (tick quiet_layout []) door_forced) = true.
Proof.
  assert (Ha : resets (tick quiet_layout []) door_forced = false)
    by (vm_compute; reflexivity).
  assert (Ho : door_open door_forced = true) by (vm_compute; reflexivity).
  exact (conj Ha (conj Ho
           (proj1 (proj2 (proj2 door_opens_once_at_threshold))
                  (tick quiet_layout []) door_forced Ha Ho))).
Defined.

Lemma dead_enemy_stays_dead_witness :
  let e := first_enemy enemy_felled in
  resets (tick demo_layout []) enemy_felled = false
  /\ enemies enemy_felled !! 0%nat = Some e
  /\ e_alive e = false
  /\ enemies_killed enemy_felled = 1%Z
  /\ enemies (update (tick demo_layout []) enemy_felled) !! 0%nat = Some e.
Proof.
  intros e.
  assert (Ha : resets (tick demo_layout []) enemy_felled = false)
    by (vm_compute; reflexivity).
  assert (Hl : enemies enemy_felled !! 0%nat = Some e)
    by (vm_compute; reflexivity).
  assert (Hd : e_alive e = false) by (vm_compute; reflexivity).
  assert (Hk : enemies_killed enemy_felled = 1%Z) by (vm_compute; reflexivity).
  exact (conj Ha (conj Hl (conj Hd (conj Hk
           (proj1 dead_enemy_stays_dead
                  (tick demo_layout []) enemy_felled 0%nat e Ha Hl Hd))))).
Defined.

Lemma space_keydown_attacks_witness :
  (e_health cornered_enemy <= 100)%Z
  /\ e_alive (player_hit cornered_enemy) = false
  /\ attack_pressed (in_events (tick demo_layout [])) = false
  /\ enemies (handle_playing_events (tick demo_layout []) attack_held)
     = enemies attack_held.
Proof.
  assert (Hh : (e_health cornered_enemy <= 100)%Z)
    by (vm_compute; discriminate).
  assert (Hp : attack_pressed (in_events (tick demo_layout [])) = false)
    by reflexivity.
  destruct space_keydown_attacks as (_ & _ & Hone & Hnone).
  exact (conj Hh (conj (Hone cornered_enemy Hh)
           (conj Hp (Hnone (tick demo_layout []) attack_held Hp)))).
Defined.

Lemma time_limit_completes_witness :
  state last_frame = PLAYING
  /\ (0 < game_time_limit last_frame)%Z
  /\ resets (tick quiet_layout []) last_frame = false
  /\ (game_time_limit last_frame * FPS <= frame last_frame + 1)%Z
  /\ p_enemies_killed (player (update (tick quiet_layout []) last_frame))
     = 0%Z
  /\ p_resources_collected (player (update (tick quiet_layout []) last_frame))
     = 0%Z
  /\ state (update (tick quiet_layout []) last_frame) = COMPLETED
  /\ run [tick quiet_layout [QUIT]] (update (tick quiet_layout []) last_frame)
     <> None.
Proof.
  assert (Hs : state last_frame = PLAYING) by reflexivity.
  assert (Hl : (0 < game_time_limit last_frame)%Z) by reflexivity.
  assert (Ha : resets (tick quiet_layout []) last_frame = false)
    by (vm_compute; reflexivity).
  assert (Hf : (game_time_limit last_frame * FPS <= frame last_frame + 1)%Z)
    by (vm_compute; discriminate).
  destruct (time_limit_completes (tick quiet_layout []) last_frame
              Hs Hl Ha Hf) as (Hdone & _ & _).
  assert (Hk : p_enemies_killed
                 (player (update (tick quiet_layout []) last_frame)) = 0%Z)
    by (vm_compute; reflexivity).
  assert (Hr : p_resources_collected
                 (player (update (tick quiet_layout []) last_frame)) = 0%Z)
    by (vm_compute; reflexivity).
  assert (Hrun : run [tick quiet_layout [QUIT]]
                     (update (tick quiet_layout []) last_frame) <> None)
    by (vm_compute; discriminate).
  exact (conj Hs (conj Hl (conj Ha (conj Hf (conj Hk (conj Hr
           (conj Hdone Hrun))))))).
Defined.

(** ** Witnesses of the further properties *)

Lemma death_restarts_run_witness :
  let g' := update (tick demo_layout []) dying in
  resets (tick demo_layout []) dying = true
  /\ frame g' = 0%Z
  /\ p_health (player g') = 100
  /\ current_room g' = Room1.
Proof.
  intros g'.
  assert (Hd : resets (tick demo_layout []) dying = true)
    by (vm_compute; reflexivity).
  destruct (death_restarts_run (tick demo_layout []) dying Hd)
    as (Hf & Hh & Hr & _).
  exact (conj Hd (conj Hf (conj Hh Hr))).
Defined.

Lemma closed_door_clamps_witness :
  let g' := handle_playing_events (tick quiet_layout [])
              (started 120 quiet_layout) in
  door_open g' = false
  /\ is_player_at_door g' = false
  /\ check_door_interaction 1000 g' = g'.
Proof.
  intros g'.
  assert (Hc : door_open g' = false) by (vm_compute; reflexivity).
  destruct (closed_door_clamps (tick quiet_layout [])
              (started 120 quiet_layout) Hc) as (_ & Hd & Hn).
  exact (conj Hc (conj Hd (Hn 1000%Z))).
Defined.

Lemma door_traversal_witness :
  let g' := check_door_interaction 501 at_open_door in
  is_player_at_door at_open_door = true
  /\ door_open at_open_door = true
  /\ current_room at_open_door = Room1
  /\ current_room g' = Room2
  /\ is_player_at_door g' = false
  /\ last_room_transition g' = 501%Z.
Proof.
  intros g'.
  assert (Hd : is_player_at_door at_open_door = true)
    by (vm_compute; reflexivity).
  assert (Ho : door_open at_open_door = true) by (vm_compute; reflexivity).
  assert (Hr : current_room at_open_door = Room1)
    by (vm_compute; reflexivity).
  assert (Hc : (room_transition_cooldown
                < 501 - last_room_transition at_open_door)%Z)
    by (vm_compute; reflexivity).
  destruct (door_traversal 501 at_open_door Hd Ho Hc)
    as (Hroom & _ & _ & _ & _ & _ & _ & Hlast & _ & Hoff & _).
  rewrite Hr in Hroom.
  exact (conj Hd (conj Ho (conj Hr (conj Hroom (conj Hoff Hlast))))).
Defined.

Lemma random_emotion_holds_witness :
  let c' := fst (RandomEmotion.call RandomEmotion.initialize fear_draw
                   calm_snapshot) in
  RandomEmotion.offset_in_range fear_draw
  /\ snd (RandomEmotion.call RandomEmotion.initialize fear_draw
            calm_snapshot) = FEAR
  /\ RandomEmotion.calls c' [(fear_draw, calm_snapshot);
                             (fear_draw, calm_snapshot)]
     = ((c' - 2)%Z, [HAPPINESS; HAPPINESS]).
Proof.
  intros c'.
  assert (Hd : RandomEmotion.offset_in_range fear_draw)
    by (split; vm_compute; discriminate).
  assert (Hc : (RandomEmotion.initialize <= 1)%Z)
    by (vm_compute; discriminate).
  assert (Hl : (length [(fear_draw, calm_snapshot);
                        (fear_draw, calm_snapshot)] <= 19)%nat)
    by (vm_compute; lia).
  destruct (random_emotion_holds RandomEmotion.initialize fear_draw
              calm_snapshot
              [(fear_draw, calm_snapshot); (fear_draw, calm_snapshot)]
              Hd Hc Hl) as (He & _ & Hcalls).
  exact (conj Hd (conj He Hcalls)).
Defined.

Lemma random_emotion_keeps_companion_witness :
  let g := started 120 quiet_layout in
  let g' := update_npc_emotion (RandomEmotion.decide 20 fear_draw) g in
  (1 < 20)%Z
  /\ n_emotion (npc g') = n_emotion (npc g)
  /\ n_emotion_lagged (npc g') = n_emotion (npc g).
Proof.
  intros g g'.
  assert (Hc : (1 < 20)%Z) by reflexivity.
  destruct (random_emotion_keeps_companion 20 fear_draw g Hc)
    as (He & Hl & _).
  exact (conj Hc (conj He Hl)).
Defined.


Lemma follow_bands_witness :
  let g := started 120 quiet_layout in
  let dist := distance (p_x (player g)) (p_y (player g))
                       (n_x (npc g)) (n_y (npc g)) in
  n_reaction (npc g) = FOLLOW
  /\ 70 < dist
  /\ snd (npc_act g) = true.
Proof.
  intros g dist.
  assert (Hr : n_reaction (npc g) = FOLLOW) by (vm_compute; reflexivity).
  assert (Hd : 70 < dist) by (vm_compute; reflexivity).
  destruct (follow_bands g Hr) as (Hfar & _).
  exact (conj Hr (conj Hd (f_equal snd (Hfar Hd)))).
Defined.

Lemma resources_counted_once_witness :
  let g := started 120 quiet_layout in
  resets (tick quiet_layout []) g = false
  /\ exists r r',
       resources g !! 0%nat = Some r
       /\ resources (update (tick quiet_layout []) g) !! 0%nat = Some r'
       /\ collected_fixed r r'.
Proof.
  intros g.
  assert (Ha : resets (tick quiet_layout []) g = false)
    by (vm_compute; reflexivity).
  assert (Hl : resources g !! 0%nat
               = Some (new_resource quiet_layout Room1 0))
    by (vm_compute; reflexivity).
  destruct (proj2 resources_counted_once (tick quiet_layout []) g 0%nat
              (new_resource quiet_layout Room1 0) Ha Hl) as (r' & Hl' & Hf).
  exact (conj Ha (ex_intro _ _ (ex_intro _ r' (conj Hl (conj Hl' Hf))))).
Defined.

Lemma enemy_health_sane_witness :
  let g := updates [tick demo_layout [KEYDOWN K_RETURN false]]
             (new_game 120 None None demo_layout) in
  enemies g !! 0%nat = Some (new_enemy demo_layout Room1 0)
  /\ enemy_sane (new_enemy demo_layout Room1 0)
  /\ e_alive (player_hit (new_enemy demo_layout Room1 0)) = false.
Proof.
  intros g.
  assert (Hl : enemies g !! 0%nat = Some (new_enemy demo_layout Room1 0))
    by (vm_compute; reflexivity).
  destruct (proj1 enemy_health_sane 120%Z None None demo_layout
              [tick demo_layout [KEYDOWN K_RETURN false]] 0%nat
              (new_enemy demo_layout Room1 0) Hl) as (Hs & Hk).
  exact (conj Hl (conj Hs Hk)).
Defined.

Lemma obstacles_well_placed_witness :
  let obstacles :=
    Placement.generate_obstacles (fun _ => 3%nat) wall_candidates Room1 in
  obstacles = [(100, 600); (200, 600); (300, 600)]%Z
  /\ Placement.in_safe_zone Room1 (200, 600)%Z = false
  /\ Qltb (Placement.point_distance (200, 600)%Z (100, 600)%Z)
          (inject_Z OBSTACLE_SIZE * 1.5) = false.
Proof.
  intros obstacles.
  assert (Ho : obstacles = [(100, 600); (200, 600); (300, 600)]%Z)
    by (vm_compute; reflexivity).
  assert (H1 : obstacles !! 1%nat = Some (200, 600)%Z)
    by (rewrite Ho; reflexivity).
  assert (H0 : obstacles !! 0%nat = Some (100, 600)%Z)
    by (rewrite Ho; reflexivity).
  destruct (proj2 (obstacles_well_placed (fun _ => 3%nat) wall_candidates
                     Room1) 1%nat (200, 600)%Z H1) as (Hz & Hfar).
  exact (conj Ho (conj Hz (Hfar 0%nat (100, 600)%Z (le_n 1) H0))).
Defined.

Lemma other_room_untouched_witness :
  let g := started 120 quiet_layout in
  let e := new_enemy quiet_layout Room2 7 in
  enemies g !! 7%nat = Some e
  /\ enemy_counts g e = false
  /\ enemies (update_enemies (fun _ => still_draw) g) !! 7%nat = Some e.
Proof.
  intros g e.
  assert (Hl : enemies g !! 7%nat = Some e) by (vm_compute; reflexivity).
  assert (Hc : enemy_counts g e = false) by (vm_compute; reflexivity).
  destruct (proj1 (other_room_untouched g) 7%nat e Hl Hc) as (_ & _ & He).
  exact (conj Hl (conj Hc (He (fun _ => still_draw)))).
Defined.

Lemma counters_never_decrease_witness :
  resets (tick demo_layout [KEYUP K_SPACE; KEYDOWN K_SPACE false])
         attack_held = false
  /\ enemies_killed attack_held = 0%Z
  /\ enemies_killed enemy_felled = 1%Z
  /\ (enemies_killed attack_held <= enemies_killed enemy_felled)%Z.
Proof.
  assert (Ha : resets (tick demo_layout [KEYUP K_SPACE; KEYDOWN K_SPACE false])
                      attack_held = false)
    by (vm_compute; reflexivity).
  assert (H0 : enemies_killed attack_held = 0%Z) by (vm_compute; reflexivity).
  assert (H1 : enemies_killed enemy_felled = 1%Z) by (vm_compute; reflexivity).
  exact (conj Ha (conj H0 (conj H1
           (proj1 (counters_never_decrease
                     (tick demo_layout [KEYUP K_SPACE; KEYDOWN K_SPACE false])
                     attack_held Ha))))).
Defined.

